(** * The WebSocket connection manager (utils/websocket.ts)

    A shallow embedding of [class WebSocketManager]: the registry of client
    connections ([clients], a JavaScript [Map] keyed by session id), the
    liveness timer callback installed by [initialize], the inbound frame
    router [handleWebSocketMessage], the senders [sendToClient] and
    [broadcastToStore], [getStats] and [cleanup].

    What lives outside the class is an explicit environment: the transport
    objects ([ws.readyState], whether [ws.send] or [ws.close] throws) and the
    wall clock.  What the class does to the outside world (frames handed to
    a transport, calls of the last-active hook, closes) is recorded in an
    effect log. *)

From Stdlib Require Import List String ZArith Bool Lia QArith.
Import ListNotations.
Local Open Scope nat_scope.
Local Open Scope string_scope.
Local Open Scope list_scope.

(** ** Data model *)

(** [ws: any]: a transport object.  Only its identity ([client.ws === ws])
    and the three members the class touches matter. *)
Definition Handle := nat.

Inductive WebSocketEventType :=
| PROFILE_UPDATED | ORDER_CREATED | ORDER_UPDATED | ORDER_STATUS_CHANGED
| CUSTOMER_CREATED | CUSTOMER_UPDATED | PRODUCT_UPDATED | CATEGORY_UPDATED
| STORE_UPDATED | USER_JOINED | USER_LEFT | GENERAL_NOTIFICATION
| PING | PONG | SERVER_STATUS.

(** [data: any].  The payloads the class builds itself are spelled out, the
    payloads of its callers are opaque. *)
Inductive Payload :=
| NoData
| NoticeData (message : string)
| PongData
| PresenceData (user store : option string)
| AppData (tag : nat).

Record WebSocketMessage := mkMessage {
  msg_type : WebSocketEventType;
  msg_data : Payload;
  msg_timestamp : Z;
  msg_userId : option string;
  msg_storeId : option string;
  msg_sessionId : option string
}.

Record ClientConnection := mkClient {
  ws : Handle;
  userId : option string;
  storeId : option string;
  sessionId : string;
  isAlive : bool;
  lastPingTime : Z;
  lastActiveTime : Z;
  connectedAt : Z
}.

(** JavaScript truthiness of an optional string: [undefined] and the empty
    string are falsy. *)
Definition truthy (o : option string) : bool :=
  match o with
  | Some s => negb (s =? "")
  | None => false
  end.

(** [a === b] where [a] may be [undefined] and [b] is a string. *)
Definition is_string (o : option string) (s : string) : bool :=
  match o with
  | Some x => x =? s
  | None => false
  end.

(** [sessionId !== excludeSessionId] with an optional second operand. *)
Definition differs (sid : string) (exclude : option string) : bool :=
  negb (is_string exclude sid).

(** ** The registry: a JavaScript Map in insertion order *)

Section JsMap.
Context {V : Type}.

Fixpoint map_get (k : string) (m : list (string * V)) : option V :=
  match m with
  | [] => None
  | (k', v) :: rest => if k' =? k then Some v else map_get k rest
  end.

(** [Map.set]: an existing key keeps its place, a new key goes last. *)
Fixpoint map_set (k : string) (v : V) (m : list (string * V)) : list (string * V) :=
  match m with
  | [] => [(k, v)]
  | (k', v') :: rest =>
      if k' =? k then (k', v) :: rest else (k', v') :: map_set k v rest
  end.

Definition map_delete (k : string) (m : list (string * V)) : list (string * V) :=
  filter (fun e => negb (fst e =? k)) m.

(** A field assignment on the object stored under [k]. *)
Fixpoint map_update (k : string) (f : V -> V) (m : list (string * V)) : list (string * V) :=
  match m with
  | [] => []
  | (k', v) :: rest =>
      if k' =? k then (k', f v) :: rest else (k', v) :: map_update k f rest
  end.

Definition keys (m : list (string * V)) : list string := map fst m.
End JsMap.

(** ** Environment, effects and state *)

Record Env := mkEnv {
  readyState : Handle -> Z;
  sendThrows : Handle -> WebSocketMessage -> bool;
  closeThrows : Handle -> bool;
  clock : nat -> Z
}.

Inductive Effect :=
| Sent (to : Handle) (m : WebSocketMessage)
| SendFailed (to : Handle) (m : WebSocketMessage)
| LastActiveHook (user : string)
| Closed (h : Handle).

Record State := mkState {
  clients : list (string * ClientConnection);
  effects : list Effect;
  reads : nat
}.

Definition initial : State := mkState [] [] 0.

Definition with_clients (f : list (string * ClientConnection) -> list (string * ClientConnection))
    (st : State) : State :=
  mkState (f (clients st)) (effects st) (reads st).

Definition log (e : Effect) (st : State) : State :=
  mkState (clients st) (effects st ++ [e]) (reads st).

(** [Date.now()] and [new Date()]: the next reading of the clock. *)
Definition Date_now (env : Env) (st : State) : Z * State :=
  (clock env (reads st), mkState (clients st) (effects st) (S (reads st))).

Definition set_isAlive (b : bool) (c : ClientConnection) : ClientConnection :=
  mkClient (ws c) (userId c) (storeId c) (sessionId c) b
           (lastPingTime c) (lastActiveTime c) (connectedAt c).

Definition set_lastPingTime (t : Z) (c : ClientConnection) : ClientConnection :=
  mkClient (ws c) (userId c) (storeId c) (sessionId c) (isAlive c)
           t (lastActiveTime c) (connectedAt c).

Definition set_lastActiveTime (t : Z) (c : ClientConnection) : ClientConnection :=
  mkClient (ws c) (userId c) (storeId c) (sessionId c) (isAlive c)
           (lastPingTime c) t (connectedAt c).

Definition set_identity (u s : option string) (c : ClientConnection) : ClientConnection :=
  mkClient (ws c) u s (sessionId c) (isAlive c)
           (lastPingTime c) (lastActiveTime c) (connectedAt c).

Definition assign (sid : string) (f : ClientConnection -> ClientConnection)
    (st : State) : State :=
  with_clients (map_update sid f) st.

(** ** Completions

    A call either returns or throws, in a state; [None] stands for a call
    chain deeper than the fuel (the mutual recursion of [sendToClient],
    [handleDisconnection] and [broadcastToStore] is not structurally
    bounded). *)

Inductive Completion :=
| Returned (st : State)
| Threw (st : State).

Definition Outcome := option Completion.

Definition state_of (c : Completion) : State :=
  match c with Returned st => st | Threw st => st end.

Definition andThen (r : Outcome) (k : State -> Outcome) : Outcome :=
  match r with
  | Some (Returned st) => k st
  | other => other
  end.

Definition tryCatch (r : Outcome) (handler : State -> Outcome) : Outcome :=
  match r with
  | Some (Threw st) => handler st
  | other => other
  end.

Definition ret (st : State) : Outcome := Some (Returned st).
Definition throw (st : State) : Outcome := Some (Threw st).

Notation "r >>= k" := (andThen r k) (at level 50, left associativity).

(** [client.ws.send(JSON.stringify(message))]. *)
Definition ws_send (env : Env) (h : Handle) (m : WebSocketMessage) (st : State) : Outcome :=
  if sendThrows env h m then throw (log (SendFailed h m) st)
  else ret (log (Sent h m) st).

(** [client.ws.close()]. *)
Definition ws_close (env : Env) (h : Handle) (st : State) : Outcome :=
  if closeThrows env h then throw st else ret (log (Closed h) st).

(** [this.clients.forEach(visit)].  No callback of the class adds a key, so
    the keys visited are those present when the loop starts, each one
    skipped if it was deleted before its turn, and each one visited with the
    object then stored under it. *)
Fixpoint forEach (visit : string -> ClientConnection -> State -> Outcome)
    (ks : list string) (st : State) : Outcome :=
  match ks with
  | [] => ret st
  | k :: rest =>
      match map_get k (clients st) with
      | Some c => visit k c st >>= forEach visit rest
      | None => forEach visit rest st
      end
  end.

Definition clients_forEach (visit : string -> ClientConnection -> State -> Outcome)
    (st : State) : Outcome :=
  forEach visit (keys (clients st)) st.

(** ** Messages built by the class *)

Definition welcomeMessage (t : Z) : WebSocketMessage :=
  mkMessage GENERAL_NOTIFICATION
            (NoticeData "Connected to ZipZap WebSocket server") t None None None.

Definition pingMessage (t : Z) : WebSocketMessage :=
  mkMessage PING NoData t None None None.

Definition pongMessage (t : Z) : WebSocketMessage :=
  mkMessage PONG PongData t None None None.

Definition userJoinedMessage (u : option string) (s : string) (t : Z) : WebSocketMessage :=
  mkMessage USER_JOINED (PresenceData u (Some s)) t u (Some s) None.

Definition userLeftMessage (u s : option string) (t : Z) : WebSocketMessage :=
  mkMessage USER_LEFT (PresenceData u s) t u s None.

(** ** Senders *)

Definition is_open (env : Env) (c : ClientConnection) : bool :=
  (readyState env (ws c) =? 1)%Z.

(** The condition of the loop body of [broadcastToStore]. *)
Definition store_target (env : Env) (store : string) (exclude : option string)
    (sid : string) (c : ClientConnection) : bool :=
  is_string (storeId c) store && differs sid exclude && is_open env c.

Definition broadcastToStore_with (send : string -> WebSocketMessage -> State -> Outcome)
    (env : Env) (store : string) (message : WebSocketMessage)
    (exclude : option string) (st : State) : Outcome :=
  clients_forEach
    (fun sid client st' =>
       if store_target env store exclude sid client
       then send sid message st'
       else ret st')
    st.

Definition handleDisconnection_with (send : string -> WebSocketMessage -> State -> Outcome)
    (env : Env) (sid : string) (st : State) : Outcome :=
  (match map_get sid (clients st) with
   | Some client =>
       match storeId client with
       | Some store =>
           if truthy (storeId client) then
             let (t, st1) := Date_now env st in
             broadcastToStore_with send env store
               (userLeftMessage (userId client) (storeId client) t) (Some sid) st1
           else ret st
       | None => ret st
       end
   | None => ret st
   end) >>= fun st' => ret (with_clients (map_delete sid) st').

Fixpoint sendToClient (fuel : nat) (env : Env) (sid : string)
    (message : WebSocketMessage) (st : State) : Outcome :=
  match fuel with
  | O => None
  | S n =>
      match map_get sid (clients st) with
      | Some client =>
          if is_open env client then
            tryCatch (ws_send env (ws client) message st)
                     (handleDisconnection_with (sendToClient n env) env sid)
          else ret st
      | None => ret st
      end
  end.

Definition handleDisconnection (fuel : nat) (env : Env) (sid : string) (st : State) : Outcome :=
  handleDisconnection_with (sendToClient fuel env) env sid st.

Definition broadcastToStore (fuel : nat) (env : Env) (store : string)
    (message : WebSocketMessage) (exclude : option string) (st : State) : Outcome :=
  broadcastToStore_with (sendToClient fuel env) env store message exclude st.

Definition sendToUser (fuel : nat) (env : Env) (user : string)
    (message : WebSocketMessage) (st : State) : Outcome :=
  clients_forEach
    (fun sid client st' =>
       if is_string (userId client) user && is_open env client
       then sendToClient fuel env sid message st'
       else ret st')
    st.

Definition sendToStore (fuel : nat) (env : Env) (store : string)
    (message : WebSocketMessage) (st : State) : Outcome :=
  clients_forEach
    (fun sid client st' =>
       if is_string (storeId client) store && is_open env client
       then sendToClient fuel env sid message st'
       else ret st')
    st.

Definition broadcast (fuel : nat) (env : Env) (message : WebSocketMessage)
    (exclude : option string) (st : State) : Outcome :=
  clients_forEach
    (fun sid client st' =>
       if differs sid exclude && is_open env client
       then sendToClient fuel env sid message st'
       else ret st')
    st.

(** ** Liveness timer callback (the body of [setInterval] in [initialize]) *)

Definition livenessVisit (fuel : nat) (env : Env) (sid : string)
    (client : ClientConnection) (st : State) : Outcome :=
  if negb (isAlive client) then handleDisconnection fuel env sid st
  else
    let st1 := assign sid (set_isAlive false) st in
    let (t, st2) := Date_now env st1 in
    tryCatch (ws_send env (ws client) (pingMessage t) st2)
             (handleDisconnection fuel env sid).

Definition livenessTick (fuel : nat) (env : Env) (st : State) : Outcome :=
  clients_forEach (livenessVisit fuel env) st.

(** ** Connection open, close and reverse lookup *)

Fixpoint find_ws (w : Handle) (m : list (string * ClientConnection)) : option string :=
  match m with
  | [] => None
  | (sid, client) :: rest => if (ws client =? w)%nat then Some sid else find_ws w rest
  end.

Definition findSessionIdByWebSocket (w : Handle) (st : State) : option string :=
  find_ws w (clients st).

(** [sessionId] is the value [generateSessionId()] returned: two base-36
    renderings of [Math.random()], taken here as an input. *)
Definition handleWebSocketUpgrade (fuel : nat) (env : Env) (sessionId : string)
    (w : Handle) (st : State) : Outcome :=
  let (now, st1) := Date_now env st in
  let st2 := with_clients
               (map_set sessionId (mkClient w None None sessionId true now now now)) st1 in
  let (t, st3) := Date_now env st2 in
  sendToClient fuel env sessionId (welcomeMessage t) st3.

Definition handleWebSocketClose (fuel : nat) (env : Env) (w : Handle) (st : State) : Outcome :=
  match findSessionIdByWebSocket w st with
  | Some sid => if sid =? "" then ret st else handleDisconnection fuel env sid st
  | None => ret st
  end.

(** ** Inbound frames *)

(** [authData: { userId?: string; storeId?: string }]. *)
Record AuthData := mkAuth {
  auth_userId : option string;
  auth_storeId : option string
}.

(** What [JSON.parse] returned, as far as the router looks at it: [null]
    (reading [.type] throws), or a value with an optional string [type] and
    an optional object [data] ([None]: [undefined] or [null], reading
    [.userId] throws). *)
Inductive Parsed :=
| PNull
| PValue (type : option string) (data : option AuthData).

Definition authenticateClient (fuel : nat) (env : Env) (sid : string)
    (authData : option AuthData) (st : State) : Outcome :=
  match map_get sid (clients st) with
  | Some client =>
      match authData with
      | None => throw st
      | Some a =>
          let st1 := assign sid (set_identity (auth_userId a) (auth_storeId a)) st in
          match auth_storeId a with
          | Some store =>
              if truthy (auth_storeId a) then
                let (t, st2) := Date_now env st1 in
                broadcastToStore fuel env store
                  (userJoinedMessage (auth_userId a) store t) (Some sid) st2
              else ret st1
          | None => ret st1
          end
      end
  | None => ret st
  end.

(** [updateUserLastActive(userId)] is asynchronous and catches its own
    errors; the call is what is recorded. *)
Definition updateUserLastActive (user : string) (st : State) : Outcome :=
  ret (log (LastActiveHook user) st).

Definition touchLastActive (client : ClientConnection) (st : State) : Outcome :=
  match userId client with
  | Some u => if truthy (userId client) then updateUserLastActive u st else ret st
  | None => ret st
  end.

Definition dispatch (fuel : nat) (env : Env) (sid : string) (client : ClientConnection)
    (parsedMessage : Parsed) (st : State) : Outcome :=
  match parsedMessage with
  | PNull => throw st
  | PValue type data =>
      if is_string type "authenticate" then authenticateClient fuel env sid data st
      else if is_string type "pong" then
        let st1 := assign sid (set_isAlive true) st in
        let (t, st2) := Date_now env st1 in
        let st3 := assign sid (set_lastPingTime t) st2 in
        touchLastActive client st3
      else if is_string type "ping" then
        let st1 := assign sid (set_isAlive true) st in
        let (t, st2) := Date_now env st1 in
        let st3 := assign sid (set_lastPingTime t) st2 in
        let (t', st4) := Date_now env st3 in
        sendToClient fuel env sid (pongMessage t') st4
          >>= touchLastActive client
      else ret st
  end.

(** [message] is the result of [JSON.parse(messageString)], [None] when it
    throws a [SyntaxError]. *)
Definition handleWebSocketMessage (fuel : nat) (env : Env) (w : Handle)
    (message : option Parsed) (st : State) : Outcome :=
  match findSessionIdByWebSocket w st with
  | None => ret st
  | Some sid =>
      if sid =? "" then ret st
      else
        tryCatch
          (match message with
           | None => throw st
           | Some parsedMessage =>
               match map_get sid (clients st) with
               | None => ret st
               | Some client =>
                   let (t, st1) := Date_now env st in
                   let st2 := assign sid (set_lastActiveTime t) st1 in
                   dispatch fuel env sid client parsedMessage st2
               end
           end)
          ret
  end.

(** ** Statistics and shutdown *)

Record Stats := mkStats {
  totalConnections : nat;
  activeConnections : nat;
  storeConnections : list (string * Z);
  averageConnectionTime : Q
}.

(** [(storeConnections.get(k) || 0) + 1]. *)
Definition bump (k : string) (counts : list (string * Z)) : list (string * Z) :=
  map_set k (match map_get k counts with
             | Some n => if (n =? 0)%Z then 0%Z else n
             | None => 0%Z
             end + 1)%Z counts.

Definition countStores (m : list (string * ClientConnection)) : list (string * Z) :=
  fold_left
    (fun counts e =>
       match storeId (snd e) with
       | Some store => if truthy (storeId (snd e)) then bump store counts else counts
       | None => counts
       end)
    m [].

(** The quotient is a JavaScript number; it is kept exact here. *)
Definition getStats (env : Env) (st : State) : Stats * State :=
  let (now, st1) := Date_now env st in
  let size := List.length (clients st1) in
  (mkStats size
           (List.length (filter (fun e => is_open env (snd e)) (clients st1)))
           (countStores (clients st1))
           (if (0 <? size)%nat
            then (inject_Z (fold_left (fun sum e => (sum + (now - connectedAt (snd e)))%Z)
                                      (clients st1) 0%Z)
                  / inject_Z (Z.of_nat size))%Q
            else 0%Q),
   st1).

(** [clearInterval] concerns the timer only; the loop closes every
    registered transport, then the registry is emptied. *)
Definition cleanup (env : Env) (st : State) : Outcome :=
  clients_forEach (fun _ client st' => ws_close env (ws client) st') st
    >>= fun st' => ret (with_clients (fun _ => []) st').

(** The transports the registry owns, in registry order. *)
Definition transports (m : list (string * ClientConnection)) : list Handle :=
  map (fun e => ws (snd e)) m.

(** ** Entry points

    What the server, the timer and the rest of the application call on the
    manager. *)

Inductive Event :=
| Open (sessionId : string) (w : Handle)
| Frame (w : Handle) (message : option Parsed)
| Close (w : Handle)
| Tick
| ToClient (sid : string) (message : WebSocketMessage)
| ToUser (user : string) (message : WebSocketMessage)
| ToStore (store : string) (message : WebSocketMessage)
| ToAll (message : WebSocketMessage) (exclude : option string)
| ToStoreBut (store : string) (message : WebSocketMessage) (exclude : option string).

Definition handle (fuel : nat) (env : Env) (ev : Event) (st : State) : Outcome :=
  match ev with
  | Open sessionId w => handleWebSocketUpgrade fuel env sessionId w st
  | Frame w message => handleWebSocketMessage fuel env w message st
  | Close w => handleWebSocketClose fuel env w st
  | Tick => livenessTick fuel env st
  | ToClient sid message => sendToClient fuel env sid message st
  | ToUser user message => sendToUser fuel env user message st
  | ToStore store message => sendToStore fuel env store message st
  | ToAll message exclude => broadcast fuel env message exclude st
  | ToStoreBut store message exclude => broadcastToStore fuel env store message exclude st
  end.

(** The states the manager can be in, starting from the empty registry, when
    every call made on it satisfies [admissible]. *)
Inductive reachable (admissible : Event -> State -> Prop) : State -> Prop :=
| reach_initial : reachable admissible initial
| reach_step fuel env ev st r :
    reachable admissible st ->
    admissible ev st ->
    handle fuel env ev st = Some r ->
    reachable admissible (state_of r).

(** ** Vocabulary of the statements *)

(** The server opens a connection on a transport the registry does not
    hold. *)
Definition fresh_transport (ev : Event) (st : State) : Prop :=
  match ev with
  | Open _ w => ~ In w (transports (clients st))
  | _ => True
  end.

Definition paired (u s : option string) : Prop := u = None <-> s = None.

(** An [authenticate] frame carries both [userId] and [storeId], or
    neither. *)
Definition paired_authenticate (ev : Event) (st : State) : Prop :=
  match ev with
  | Frame _ (Some (PValue type (Some a))) =>
      is_string type "authenticate" = true -> paired (auth_userId a) (auth_storeId a)
  | _ => True
  end.

Definition identity_paired (st : State) : Prop :=
  forall sid c, In (sid, c) (clients st) -> paired (userId c) (storeId c).

(** The transports the manager closed, oldest first. *)
Definition closes (st : State) : list Handle :=
  flat_map (fun e => match e with Closed h => [h] | _ => [] end) (effects st).

(** The state after a run of effects was logged. *)
Definition log_all (es : list Effect) (st : State) : State :=
  mkState (clients st) (effects st ++ es) (reads st).

(** The connections [broadcastToStore] selects, in registry order. *)
Definition recipients (env : Env) (store : string) (exclude : option string)
    (m : list (string * ClientConnection)) : list (string * ClientConnection) :=
  filter (fun e => store_target env store exclude (fst e) (snd e)) m.

Definition deliveries (message : WebSocketMessage)
    (m : list (string * ClientConnection)) : list Effect :=
  map (fun e => Sent (ws (snd e)) message) m.

(** The [user_left] frames [handleDisconnection] hands out for [sid]. *)
Definition departure_notices (env : Env) (sid : string) (st : State) : list Effect :=
  match map_get sid (clients st) with
  | Some c =>
      match storeId c with
      | Some store =>
          if truthy (storeId c) then
            deliveries (userLeftMessage (userId c) (storeId c) (clock env (reads st)))
                       (recipients env store (Some sid) (clients st))
          else []
      | None => []
      end
  | None => []
  end.

(** Every registered connection other than [sid] accepts every frame. *)
Definition others_accept (env : Env) (sid : string) (st : State) : Prop :=
  forall sid' c m, In (sid', c) (clients st) -> sid' <> sid ->
                   sendThrows env (ws c) m = false.

(** The registry is a map (no key twice), no transport is owned twice, and
    every connection is stored under its own [sessionId]. *)
Definition registry_ok (st : State) : Prop :=
  NoDup (keys (clients st)) /\
  NoDup (transports (clients st)) /\
  (forall sid c, In (sid, c) (clients st) -> sessionId c = sid).

(** A parsed frame that none of the three [case] labels matches. *)
Definition unhandled (p : Parsed) : Prop :=
  match p with
  | PNull => True
  | PValue type _ =>
      type <> Some "authenticate" /\ type <> Some "pong" /\ type <> Some "ping"
  end.

(** The calls of the last-active hook a ping or pong of [c] causes:
    [if (client.userId) this.updateUserLastActive(client.userId)]. *)
Definition hook_calls (c : ClientConnection) : list Effect :=
  match userId c with
  | Some u => if truthy (userId c) then [LastActiveHook u] else []
  | None => []
  end.

(** The connection after a ping or pong read the clock at [t0] (activity)
    and [t1] (liveness). *)
Definition refreshed (t0 t1 : Z) (c : ClientConnection) : ClientConnection :=
  set_lastPingTime t1 (set_isAlive true (set_lastActiveTime t0 c)).

(** Every transport accepts every frame. *)
Definition accepting (env : Env) : Prop :=
  forall h m, sendThrows env h m = false.

(** A frame the router treats as a sign of life: [pong] or [ping]. *)
Definition liveness_signal (message : option Parsed) : bool :=
  match message with
  | Some (PValue type _) => is_string type "pong" || is_string type "ping"
  | _ => false
  end.

(** Inbound frames handled one after the other, each with the transports
    and the clock as they are when it arrives. *)
Fixpoint deliver_frames (fuel : nat) (frames : list (Env * Handle * option Parsed))
    (st : State) : Outcome :=
  match frames with
  | [] => ret st
  | (env, w, message) :: rest =>
      handleWebSocketMessage fuel env w message st >>= deliver_frames fuel rest
  end.

(** A frame that arrives while the transports accept every send and that is
    no [pong] or [ping] on the transport [w0]. *)
Definition no_signal_from (w0 : Handle) (frame : Env * Handle * option Parsed) : Prop :=
  accepting (fst (fst frame)) /\
  (snd (fst frame) <> w0 \/ liveness_signal (snd frame) = false).

(** What a liveness tick leaves of the registry: the connections that were
    alive, each marked [isAlive = false]. *)
Definition swept (m : list (string * ClientConnection)) : list (string * ClientConnection) :=
  map (fun e => (fst e, set_isAlive false (snd e)))
      (filter (fun e => isAlive (snd e)) m).

(** The connection under [sid] still owns the transport [w0] and has not
    been heard from since it was pinged. *)
Definition suspect (sid : string) (w0 : Handle) (st : State) : Prop :=
  registry_ok st /\
  exists c, map_get sid (clients st) = Some c /\ ws c = w0 /\ isAlive c = false.

(** A call keeps [P]: whatever way it completes, [P] holds afterwards. *)
Definition preserves (P : State -> Prop) (f : State -> Outcome) : Prop :=
  forall st r, P st -> f st = Some r -> P (state_of r).

(** A call returns and keeps [P]. *)
Definition returns_keeping (P : State -> Prop) (f : State -> Outcome) : Prop :=
  forall st, P st -> exists st', f st = ret st' /\ P st'.

(** The effect is a frame handed (successfully or not) to the transport of
    a connection of [m] whose [storeId] is [store]. *)
Definition within_store (store : string) (m : list (string * ClientConnection))
    (e : Effect) : Prop :=
  exists h msg sid c,
    (e = Sent h msg \/ e = SendFailed h msg) /\
    In (sid, c) m /\ ws c = h /\ storeId c = Some store.

(** Since the state in which [m] was the registry and [es] the effect log,
    entries were only deleted and frames only went to the store. *)
Definition confined (store : string) (m : list (string * ClientConnection))
    (es : list Effect) (st : State) : Prop :=
  incl (clients st) m /\
  forall e, In e (effects st) -> In e es \/ within_store store m e.

(** ** Sample registries and environments *)

Definition alice : ClientConnection := mkClient 1 (Some "u1") (Some "s1") "a" true 0 0 0.
Definition bob : ClientConnection := mkClient 2 (Some "u2") (Some "s1") "b" true 0 0 0.
Definition carol : ClientConnection := mkClient 3 (Some "u3") (Some "s2") "c" true 0 0 0.
Definition guest : ClientConnection := mkClient 4 None None "g" true 0 0 0.

Definition shop : State :=
  mkState [("a", alice); ("b", bob); ("c", carol); ("g", guest)] [] 0.

Definition ticking (n : nat) : Z := Z.of_nat n.

(** Every transport open and accepting. *)
Definition env_open : Env :=
  mkEnv (fun _ => 1%Z) (fun _ _ => false) (fun _ => false) ticking.

(** Every transport closed ([readyState] 3). *)
Definition env_closed : Env :=
  mkEnv (fun _ => 3%Z) (fun _ _ => false) (fun _ => false) ticking.

(** Every transport open, the one of [alice] throwing on [send]. *)
Definition env_broken : Env :=
  mkEnv (fun _ => 1%Z) (fun h _ => (h =? 1)%nat) (fun _ => false) ticking.

Definition orderCreated : WebSocketMessage :=
  mkMessage ORDER_CREATED (AppData 0) 0 None (Some "s1") None.

(** Two frames that are no sign of life from [alice] (transport 1): a
    [pong] of [bob] and a [subscribe] of [alice]. *)
Definition idle_frames : list (Env * Handle * option Parsed) :=
  [ (env_open, 2, Some (PValue (Some "pong") None));
    (env_open, 1, Some (PValue (Some "subscribe") None)) ].

(** The registry after the server opened session [s1] on transport 1. *)
Definition after_open : State :=
  mkState [("s1", mkClient 1 None None "s1" true 0 0 0)] [Sent 1 (welcomeMessage 1)] 2.

(** An [authenticate] frame that carries a [userId] and no [storeId]. *)
Definition userOnly : option Parsed :=
  Some (PValue (Some "authenticate") (Some (mkAuth (Some "u1") None))).

Definition half_identified : State :=
  mkState [("s1", mkClient 1 (Some "u1") None "s1" true 0 2 0)]
          [Sent 1 (welcomeMessage 1)] 3.

(** Every transport open and throwing on [send]. *)
Definition env_all_broken : Env :=
  mkEnv (fun _ => 1%Z) (fun _ _ => true) (fun _ => false) ticking.

(** ** Typed notifications

    [sendProfileUpdate], [sendOrderUpdate], [sendOrderCreated] and
    [sendCustomerUpdate]: each builds its message around the payload of the
    caller, stamps it with the clock and hands it to [sendToUser] or
    [sendToStore]. *)

Definition profileUpdated (user : string) (profileData : Payload) (t : Z) : WebSocketMessage :=
  mkMessage PROFILE_UPDATED profileData t (Some user) None None.

Definition storeNotice (type : WebSocketEventType) (store : string) (data : Payload) (t : Z)
    : WebSocketMessage :=
  mkMessage type data t None (Some store) None.

Definition sendProfileUpdate (fuel : nat) (env : Env) (userId : string)
    (profileData : Payload) (st : State) : Outcome :=
  let (t, st1) := Date_now env st in
  sendToUser fuel env userId (profileUpdated userId profileData t) st1.

Definition sendOrderUpdate (fuel : nat) (env : Env) (storeId : string)
    (orderData : Payload) (st : State) : Outcome :=
  let (t, st1) := Date_now env st in
  sendToStore fuel env storeId (storeNotice ORDER_UPDATED storeId orderData t) st1.

Definition sendOrderCreated (fuel : nat) (env : Env) (storeId : string)
    (orderData : Payload) (st : State) : Outcome :=
  let (t, st1) := Date_now env st in
  sendToStore fuel env storeId (storeNotice ORDER_CREATED storeId orderData t) st1.

Definition sendCustomerUpdate (fuel : nat) (env : Env) (storeId : string)
    (customerData : Payload) (st : State) : Outcome :=
  let (t, st1) := Date_now env st in
  sendToStore fuel env storeId (storeNotice CUSTOMER_UPDATED storeId customerData t) st1.

(** ** Vocabulary of the further statements *)

(** The connections a guarded loop selects, in registry order. *)
Definition selected (test : string -> ClientConnection -> bool)
    (m : list (string * ClientConnection)) : list (string * ClientConnection) :=
  filter (fun e => test (fst e) (snd e)) m.

(** The conditions of the loop bodies of [sendToUser] and [broadcast]. *)
Definition user_target (env : Env) (user : string) (sid : string)
    (c : ClientConnection) : bool :=
  is_string (userId c) user && is_open env c.

Definition all_target (env : Env) (exclude : option string) (sid : string)
    (c : ClientConnection) : bool :=
  differs sid exclude && is_open env c.

(** The selected transports accept the message. *)
Definition targets_accept (env : Env) (test : string -> ClientConnection -> bool)
    (message : WebSocketMessage) (st : State) : Prop :=
  forall sid c, In (sid, c) (clients st) -> test sid c = true ->
                sendThrows env (ws c) message = false.


(** The connections whose [storeId] is [store]. *)
Definition members (store : string) (m : list (string * ClientConnection))
    : list (string * ClientConnection) :=
  filter (fun e => is_string (storeId (snd e)) store) m.

(** The loop body of [getStats] that fills the per-store map. *)
Definition tallyStore (counts : list (string * Z)) (e : string * ClientConnection)
    : list (string * Z) :=
  match storeId (snd e) with
  | Some store => if truthy (storeId (snd e)) then bump store counts else counts
  | None => counts
  end.

(** A count after [k] more connections of the store were met. *)
Definition counted (before : option Z) (k : nat) : option Z :=
  match k with
  | O => before
  | S _ => Some (match before with Some n => n | None => 0%Z end + Z.of_nat k)%Z
  end.

(** Every transport open and accepting, the one of [bob] throwing on
    [close]. *)
Definition env_stuck_close : Env :=
  mkEnv (fun _ => 1%Z) (fun _ _ => false) (fun h => (h =? 2)%nat) ticking.


(** The entry points that only send or remove. *)
Definition sends_or_closes (ev : Event) : Prop :=
  match ev with
  | Open _ _ | Frame _ _ | Tick => False
  | _ => True
  end.

Definition opens (ev : Event) : Prop :=
  match ev with
  | Open _ _ => True
  | _ => False
  end.


(** Two sessions are registered with the connections [ca] and [cb]. *)
Definition both_registered (a b : string) (ca cb : ClientConnection) (st : State) : Prop :=
  map_get a (clients st) = Some ca /\ map_get b (clients st) = Some cb.

(** The transport of [c] is open and throws on every [send]. *)
Definition broken (env : Env) (c : ClientConnection) : Prop :=
  is_open env c = true /\ forall m, sendThrows env (ws c) m = true.


(** The transports that were sent a [ping] frame, oldest first. *)
Definition pinged (es : list Effect) : list Handle :=
  flat_map (fun e => match e with
                     | Sent h m => match msg_type m with PING => [h] | _ => [] end
                     | _ => []
                     end) es.

(** The connections the liveness timer finds alive. *)
Definition alive (m : list (string * ClientConnection)) : list (string * ClientConnection) :=
  filter (fun e => isAlive (snd e)) m.

(** Between two visits of a liveness tick in which only the session [sid]
    may have a transport that throws: the registry is a map, the others
    accept, and whatever is stored under [sid] throws on every send; [gone]
    records that [sid] is already out of the registry. *)
Definition around_broken (env : Env) (sid : string) (gone : bool) (st : State) : Prop :=
  NoDup (keys (clients st)) /\
  others_accept env sid st /\
  (forall c m, In (sid, c) (clients st) -> sendThrows env (ws c) m = true) /\
  (gone = true -> map_get sid (clients st) = None).


(** The [user_joined] frames an [authenticate] frame of session [sid]
    causes: none when the frame carries no (or an empty) [storeId]. *)
Definition arrival_notices (env : Env) (sid : string) (a : AuthData) (st : State)
    : list Effect :=
  match auth_storeId a with
  | Some store =>
      if truthy (auth_storeId a) then
        deliveries (userJoinedMessage (auth_userId a) store (clock env (S (reads st))))
                   (recipients env store (Some sid) (clients st))
      else []
  | None => []
  end.


(** The users the last-active hook was called for, oldest first. *)
Definition hooks (st : State) : list string :=
  flat_map (fun e => match e with LastActiveHook u => [u] | _ => [] end) (effects st).

(** Any call but a [ping] or [pong] frame. *)
Definition no_liveness_frame (ev : Event) : Prop :=
  match ev with
  | Frame _ message => liveness_signal message = false
  | _ => True
  end.

(** A [pong] frame. *)
Definition pongFrame : option Parsed := Some (PValue (Some "pong") None).

(** ** A registry after some traffic

    The server opens [s1], [s2] and [s3] on the transports 1, 2 and 3;
    transport 2 closes; a session [s4] is opened on transport 2 again. *)






(** ** The registry one tick after nobody answered

    [shop] after a liveness tick on accepting transports: every connection
    was pinged and is marked [isAlive = false]. *)
Definition pinged_shop : State :=
  mkState [("a", set_isAlive false alice); ("b", set_isAlive false bob);
           ("c", set_isAlive false carol); ("g", set_isAlive false guest)]
          [Sent 1 (pingMessage 0); Sent 2 (pingMessage 1);
           Sent 3 (pingMessage 2); Sent 4 (pingMessage 3)] 4.

(** Every transport open, those of [alice] and [bob] throwing on [send]. *)
Definition env_pair_broken : Env :=
  mkEnv (fun _ => 1%Z) (fun h _ => (h <=? 2)%nat) (fun _ => false) ticking.

(** At most the session [sid] has a transport that throws: the registry is
    a map and every other registered transport accepts every frame. *)
Definition one_failing (env : Env) (sid : string) (st : State) : Prop :=
  NoDup (keys (clients st)) /\ others_accept env sid st.

(** Two distinct sessions of one store whose open transports throw on
    every [send]. *)
Definition failing_pair (env : Env) (store : string) (a b : string)
    (ca cb : ClientConnection) : Prop :=
  a <> b /\ store <> "" /\
  storeId ca = Some store /\ storeId cb = Some store /\
  broken env ca /\ broken env cb.

(** * Properties *)

(** ** The registry as a map *)

Section JsMapFacts.
Context {V : Type}.
Implicit Types (m : list (string * V)) (k : string).

Lemma map_get_In m k v : map_get k m = Some v -> In (k, v) m.
Proof.
  induction m as [|[k' v'] m IH]; simpl; [discriminate|].
  destruct (String.eqb_spec k' k) as [->|Hne]; intros H.
  - injection H as ->. now left.
  - right. now apply IH.
Qed.

Lemma map_get_not_key m k : ~ In k (keys m) -> map_get k m = None.
Proof.
  induction m as [|[k' v'] m IH]; simpl; [reflexivity|].
  intros H. destruct (String.eqb_spec k' k) as [->|Hne].
  - exfalso. apply H. now left.
  - apply IH. intros Hin. apply H. now right.
Qed.

Lemma map_get_key m k : In k (keys m) -> exists v, map_get k m = Some v.
Proof.
  induction m as [|[k' v'] m IH]; simpl; [tauto|].
  intros [->|Hin].
  - rewrite String.eqb_refl. eauto.
  - destruct (k' =? k); eauto.
Qed.

Lemma In_map_get m k v : NoDup (keys m) -> In (k, v) m -> map_get k m = Some v.
Proof.
  induction m as [|[k' v'] m IH]; simpl; [tauto|].
  intros Hnd [Heq|Hin]; inversion Hnd as [|? ? Hnotin Hnd']; subst.
  - injection Heq as -> ->. now rewrite String.eqb_refl.
  - destruct (String.eqb_spec k' k) as [->|Hne].
    + exfalso. apply Hnotin. change k with (fst (k, v)). now apply in_map.
    + now apply IH.
Qed.

Lemma map_get_app_fresh m1 m2 k :
  ~ In k (keys m1) -> map_get k (m1 ++ m2) = map_get k m2.
Proof.
  induction m1 as [|[k' v'] m1 IH]; simpl; [reflexivity|].
  intros H. destruct (String.eqb_spec k' k) as [->|Hne].
  - exfalso. apply H. now left.
  - apply IH. intros Hin. apply H. now right.
Qed.

Lemma keys_app m1 m2 : keys (m1 ++ m2) = keys m1 ++ keys m2.
Proof. unfold keys. apply map_app. Qed.

Lemma keys_update m k f : keys (map_update k f m) = keys m.
Proof.
  induction m as [|[k' v'] m IH]; simpl; [reflexivity|].
  destruct (k' =? k); simpl; [reflexivity|]. now rewrite IH.
Qed.

Lemma map_get_update m k k' f :
  map_get k' (map_update k f m) =
  if k =? k' then option_map f (map_get k' m) else map_get k' m.
Proof.
  induction m as [|[k0 v0] m IH]; simpl.
  - now destruct (k =? k').
  - destruct (String.eqb_spec k0 k) as [->|Hne]; simpl.
    + destruct (String.eqb_spec k k') as [->|Hne']; simpl; reflexivity.
    + destruct (String.eqb_spec k0 k') as [->|Hne'].
      * destruct (String.eqb_spec k k') as [->|]; [congruence|reflexivity].
      * apply IH.
Qed.

Lemma map_update_app_fresh m1 m2 k f :
  ~ In k (keys m1) -> map_update k f (m1 ++ m2) = m1 ++ map_update k f m2.
Proof.
  induction m1 as [|[k' v'] m1 IH]; simpl; [reflexivity|].
  intros H. destruct (String.eqb_spec k' k) as [->|Hne].
  - exfalso. apply H. now left.
  - f_equal. apply IH. intros Hin. apply H. now right.
Qed.

Lemma map_delete_fresh m k : ~ In k (keys m) -> map_delete k m = m.
Proof.
  induction m as [|[k' v'] m IH]; simpl; [reflexivity|].
  intros H. destruct (String.eqb_spec k' k) as [->|Hne]; simpl.
  - exfalso. apply H. now left.
  - f_equal. apply IH. intros Hin. apply H. now right.
Qed.

Lemma map_delete_app m1 m2 k :
  map_delete k (m1 ++ m2) = map_delete k m1 ++ map_delete k m2.
Proof. unfold map_delete. apply filter_app. Qed.

Lemma map_get_delete m k k' :
  map_get k' (map_delete k m) = if k =? k' then None else map_get k' m.
Proof.
  induction m as [|[k0 v0] m IH]; simpl.
  - now destruct (k =? k').
  - destruct (String.eqb_spec k0 k) as [->|Hne]; simpl.
    + rewrite IH. destruct (String.eqb_spec k k'); reflexivity.
    + rewrite IH. destruct (String.eqb_spec k0 k') as [->|Hne'].
      * destruct (String.eqb_spec k k') as [->|]; [congruence|reflexivity].
      * reflexivity.
Qed.

Lemma In_delete m k e : In e (map_delete k m) <-> In e m /\ fst e <> k.
Proof.
  unfold map_delete. rewrite filter_In, negb_true_iff, String.eqb_neq. tauto.
Qed.

Lemma keys_delete m k : keys (map_delete k m) = filter (fun x => negb (x =? k)) (keys m).
Proof.
  induction m as [|[k0 v0] m IH]; simpl; [reflexivity|].
  destruct (k0 =? k); simpl; now rewrite IH.
Qed.

Lemma NoDup_keys_delete m k : NoDup (keys m) -> NoDup (keys (map_delete k m)).
Proof. intros H. rewrite keys_delete. now apply NoDup_filter. Qed.

Lemma In_update m k f e :
  In e (map_update k f m) ->
  In e m \/ exists v, In (k, v) m /\ e = (k, f v).
Proof.
  induction m as [|[k0 v0] m IH]; simpl; [tauto|].
  destruct (String.eqb_spec k0 k) as [->|Hne]; simpl.
  - intros [<-|Hin]; [right; exists v0; auto | left; auto].
  - intros [<-|Hin]; [left; auto|].
    destruct (IH Hin) as [H|[v [H1 H2]]]; [left; auto | right; exists v; auto].
Qed.
End JsMapFacts.

(** ** Elementary facts about states and completions *)


Lemma log_all_nil st : log_all [] st = st.
Proof. destruct st. unfold log_all. simpl. now rewrite app_nil_r. Qed.

Lemma log_all_log es e st : log e (log_all es st) = log_all (es ++ [e]) st.
Proof. unfold log, log_all. simpl. now rewrite app_assoc. Qed.

Lemma log_all_all es es' st : log_all es' (log_all es st) = log_all (es ++ es') st.
Proof. unfold log_all. simpl. now rewrite app_assoc. Qed.

Lemma andThen_ret st k : ret st >>= k = k st.
Proof. reflexivity. Qed.

(** ** Sends on transports that accept them *)

Lemma sendToClient_absent fuel env sid m st :
  map_get sid (clients st) = None ->
  sendToClient (S fuel) env sid m st = ret st.
Proof. intros H. simpl. now rewrite H. Qed.

Lemma sendToClient_not_open fuel env sid m st c :
  map_get sid (clients st) = Some c ->
  is_open env c = false ->
  sendToClient (S fuel) env sid m st = ret st.
Proof. intros H Ho. simpl. now rewrite H, Ho. Qed.

Lemma sendToClient_accepted fuel env sid m st c :
  map_get sid (clients st) = Some c ->
  is_open env c = true ->
  sendThrows env (ws c) m = false ->
  sendToClient (S fuel) env sid m st = ret (log (Sent (ws c) m) st).
Proof. intros H Ho Ht. simpl. rewrite H, Ho. unfold ws_send. now rewrite Ht. Qed.


Lemma broadcast_loop fuel env store message exclude :
  forall (todo : list (string * ClientConnection)) (st : State),
    (forall sid c, In (sid, c) todo -> map_get sid (clients st) = Some c) ->
    (forall sid c, In (sid, c) todo ->
                   store_target env store exclude sid c = true ->
                   sendThrows env (ws c) message = false) ->
    forEach (fun sid client st' =>
               if store_target env store exclude sid client
               then sendToClient (S fuel) env sid message st'
               else ret st')
            (keys todo) st
    = ret (log_all (deliveries message (recipients env store exclude todo)) st).
Proof.
  induction todo as [|[sid c] todo IH]; intros st Hget Hcalm.
  - simpl. now rewrite log_all_nil.
  - cbn [keys map fst forEach].
    rewrite (Hget sid c (or_introl eq_refl)).
    unfold recipients. cbn [filter fst snd].
    destruct (store_target env store exclude sid c) eqn:Ht.
    + assert (Ho : is_open env c = true).
      { unfold store_target in Ht. now apply andb_true_iff in Ht as [_ Ho]. }
      rewrite (sendToClient_accepted fuel env sid message st c
                 (Hget sid c (or_introl eq_refl)) Ho
                 (Hcalm sid c (or_introl eq_refl) Ht)).
      rewrite andThen_ret. fold (keys todo).
      rewrite IH.
      * cbn [deliveries map snd].
        change (log (Sent (ws c) message) st) with (log_all [Sent (ws c) message] st).
        now rewrite log_all_all.
      * intros sid' c' Hin. simpl. apply Hget. now right.
      * intros sid' c' Hin. apply Hcalm. now right.
    + rewrite andThen_ret. fold (keys todo). apply IH.
      * intros sid' c' Hin. apply Hget. now right.
      * intros sid' c' Hin. apply Hcalm. now right.
Qed.

Lemma broadcastToStore_accepted fuel env store message exclude st :
  NoDup (keys (clients st)) ->
  (forall sid c, In (sid, c) (clients st) ->
                 store_target env store exclude sid c = true ->
                 sendThrows env (ws c) message = false) ->
  broadcastToStore (S fuel) env store message exclude st
  = ret (log_all (deliveries message (recipients env store exclude (clients st))) st).
Proof.
  intros Hnd Hcalm. unfold broadcastToStore, broadcastToStore_with, clients_forEach.
  apply broadcast_loop; [|assumption].
  intros sid c Hin. now apply In_map_get.
Qed.

Lemma store_target_spec env store exclude sid c :
  store_target env store exclude sid c = true <->
  storeId c = Some store /\ exclude <> Some sid /\ readyState env (ws c) = 1%Z.
Proof.
  unfold store_target, differs, is_string, is_open.
  rewrite !andb_true_iff, negb_true_iff, Z.eqb_eq.
  split.
  - intros [[Hs He] Ho]. repeat split; [| |assumption].
    + destruct (storeId c) as [x|]; [|discriminate].
      apply String.eqb_eq in Hs. now subst.
    + intros ->. now rewrite String.eqb_refl in He.
  - intros [Hs [He Ho]]. repeat split; [| |assumption].
    + rewrite Hs. apply String.eqb_refl.
    + destruct exclude as [x|]; [|reflexivity].
      apply String.eqb_neq. congruence.
Qed.

(** *** Store isolation, whatever the transports do *)

Section Isolation.
Variables (env : Env) (store : string).
Variables (m0 : list (string * ClientConnection)) (es0 : list Effect).

Lemma confined_log st h msg sid c :
  confined store m0 es0 st ->
  In (sid, c) (clients st) -> ws c = h -> storeId c = Some store ->
  confined store m0 es0 (log (Sent h msg) st) /\
  confined store m0 es0 (log (SendFailed h msg) st).
Proof.
  intros [Hsub Heff] Hin Hw Hs.
  assert (Hnew : within_store store m0 (Sent h msg) /\
                 within_store store m0 (SendFailed h msg)).
  { split; exists h, msg, sid, c; auto. }
  split; (split; [exact Hsub|]); intros e He; simpl in He;
    apply in_app_or in He as [He|[<-|[]]]; auto; right; tauto.
Qed.

Lemma confined_delete st sid :
  confined store m0 es0 st ->
  confined store m0 es0 (with_clients (map_delete sid) st).
Proof.
  intros [Hsub Heff]. split; [|exact Heff].
  intros e He. simpl in He. apply In_delete in He as [He _]. now apply Hsub.
Qed.

Lemma confined_forEach visit :
  (forall k c st r, confined store m0 es0 st ->
                    map_get k (clients st) = Some c ->
                    visit k c st = Some r -> confined store m0 es0 (state_of r)) ->
  forall ks st r, confined store m0 es0 st ->
                  forEach visit ks st = Some r -> confined store m0 es0 (state_of r).
Proof.
  intros Hv. induction ks as [|k ks IH]; intros st r HI H; simpl in H.
  - now injection H as <-.
  - destruct (map_get k (clients st)) as [c|] eqn:Hget; [|exact (IH st r HI H)].
    unfold andThen in H. destruct (visit k c st) as [[s|s]|] eqn:Hvis; [| |discriminate].
    + apply (IH s r); [|exact H]. exact (Hv k c st _ HI Hget Hvis).
    + injection H as <-. exact (Hv k c st _ HI Hget Hvis).
Qed.

Lemma confined_sendToClient :
  forall fuel sid msg st r,
    confined store m0 es0 st ->
    (forall c, map_get sid (clients st) = Some c -> storeId c = Some store) ->
    sendToClient fuel env sid msg st = Some r ->
    confined store m0 es0 (state_of r).
Proof.
  induction fuel as [|n IH]; intros sid msg st r HI Hmember H; [discriminate|].
  simpl in H.
  destruct (map_get sid (clients st)) as [c|] eqn:Hget; [|now injection H as <-].
  destruct (is_open env c); [|now injection H as <-].
  pose proof (Hmember c eq_refl) as Hstore.
  destruct (confined_log st (ws c) msg sid c HI (map_get_In _ _ _ Hget) eq_refl Hstore)
    as [Hsent Hfailed].
  unfold ws_send in H. destruct (sendThrows env (ws c) msg); simpl in H;
    [|now injection H as <-].
  unfold handleDisconnection_with in H. simpl in H. rewrite Hget, Hstore in H.
  destruct (truthy (Some store)).
  2:{ rewrite andThen_ret in H. injection H as <-. simpl.
      now apply confined_delete. }
  match type of H with
  | ?body >>= _ = _ =>
      assert (Hbody : forall r', body = Some r' -> confined store m0 es0 (state_of r'));
      [|unfold andThen in H; destruct body as [[s|s]|]; [| |discriminate]]
  end.
  - intros r' Hr'.
    refine (confined_forEach _ _ _ _ r' _ Hr'); [|exact Hfailed].
    intros k c' s r0 HIs Hgetk Hvis.
    destruct (store_target env store (Some sid) k c') eqn:Ht; [|now injection Hvis as <-].
    refine (IH k _ s r0 HIs _ Hvis).
    intros c'' Hc''. rewrite Hgetk in Hc''. injection Hc'' as <-.
    now apply store_target_spec in Ht as [Hs _].
  - injection H as <-. simpl. apply confined_delete. exact (Hbody _ eq_refl).
  - injection H as <-. exact (Hbody _ eq_refl).
Qed.

Lemma confined_broadcastToStore fuel msg exclude st r :
  confined store m0 es0 st ->
  broadcastToStore fuel env store msg exclude st = Some r ->
  confined store m0 es0 (state_of r).
Proof.
  intros HI H. unfold broadcastToStore, broadcastToStore_with, clients_forEach in H.
  refine (confined_forEach _ _ _ _ r HI H).
  intros k c s r0 HIs Hgetk Hvis.
  destruct (store_target env store exclude k c) eqn:Ht; [|now injection Hvis as <-].
  refine (confined_sendToClient fuel k msg s r0 HIs _ Hvis).
  intros c' Hc'. rewrite Hgetk in Hc'. injection Hc' as <-.
  now apply store_target_spec in Ht as [Hs _].
Qed.
End Isolation.


(** ** Removal *)

Lemma target_not_excluded env store sid sid' c :
  store_target env store (Some sid) sid' c = true -> sid' <> sid.
Proof.
  rewrite store_target_spec. intros [_ [H _]] ->. now apply H.
Qed.

Lemma handleDisconnection_calm fuel env sid st :
  NoDup (keys (clients st)) ->
  others_accept env sid st ->
  exists st',
    handleDisconnection (S fuel) env sid st = ret st' /\
    clients st' = map_delete sid (clients st) /\
    effects st' = effects st ++ departure_notices env sid st.
Proof.
  intros Hnd Hcalm.
  unfold handleDisconnection, handleDisconnection_with, departure_notices.
  destruct (map_get sid (clients st)) as [c|] eqn:Hget.
  2:{ rewrite andThen_ret. eexists. split; [reflexivity|]. simpl.
      now rewrite app_nil_r. }
  destruct (storeId c) as [store|] eqn:Hstore.
  2:{ rewrite andThen_ret. eexists. split; [reflexivity|]. simpl.
      now rewrite app_nil_r. }
  destruct (truthy (Some store)) eqn:Htruthy.
  2:{ rewrite andThen_ret. eexists. split; [reflexivity|]. simpl.
      now rewrite app_nil_r. }
  unfold Date_now.
  change (broadcastToStore_with (sendToClient (S fuel) env) env)
    with (broadcastToStore (S fuel) env).
  rewrite broadcastToStore_accepted.
  - rewrite andThen_ret. eexists. split; [reflexivity|]. simpl. auto.
  - exact Hnd.
  - simpl. intros sid' c' Hin Ht. apply (Hcalm sid' c'); [assumption|].
    eapply target_not_excluded; eassumption.
Qed.

(** A send that throws on an open transport: the failure is logged, the
    other connections of the store are told, the entry is deleted. *)
Lemma sendToClient_rejected fuel env sid m st c :
  NoDup (keys (clients st)) ->
  map_get sid (clients st) = Some c ->
  is_open env c = true ->
  sendThrows env (ws c) m = true ->
  others_accept env sid st ->
  exists st',
    sendToClient (S (S fuel)) env sid m st = ret st' /\
    clients st' = map_delete sid (clients st) /\
    effects st' = effects st ++ SendFailed (ws c) m
                    :: departure_notices env sid (log (SendFailed (ws c) m) st).
Proof.
  intros Hnd Hget Ho Ht Hcalm.
  cbn [sendToClient]. rewrite Hget, Ho. unfold ws_send. rewrite Ht.
  cbn [throw tryCatch].
  change (handleDisconnection_with (sendToClient (S fuel) env) env sid)
    with (handleDisconnection (S fuel) env sid).
  destruct (handleDisconnection_calm fuel env sid (log (SendFailed (ws c) m) st))
    as [st' [Hrun [Hc He]]]; [exact Hnd | exact Hcalm |].
  exists st'. split; [exact Hrun|]. split; [exact Hc|].
  rewrite He. simpl. now rewrite <- app_assoc.
Qed.

(** C4, as claimed, fails: a registered connection whose transport is not
    open is not evicted by [sendToClient]. *)
Lemma sendToClient_not_open_keeps_entry :
  ~ (forall fuel env sid m st c,
        map_get sid (clients st) = Some c ->
        is_open env c = false ->
        exists st', sendToClient (S fuel) env sid m st = ret st' /\
                    map_get sid (clients st') = None).
Proof.
  intros H.
  pose (c := mkClient 7 None None "s1" true 0 0 0).
  pose (env := mkEnv (fun _ => 3%Z) (fun _ _ => false) (fun _ => false) (fun _ => 0%Z)).
  destruct (H 0 env "s1" (welcomeMessage 0) (mkState [("s1", c)] [] 0) c
              eq_refl eq_refl) as [st' [Hrun Hgone]].
  simpl in Hrun. injection Hrun as <-. discriminate Hgone.
Qed.

(** C4, amended.  [sendToClient] on a registered connection whose transport
    is not open does nothing: it returns, no frame is sent, and the
    connection stays registered.  When the transport is open and the send
    throws, no exception reaches the caller and the connection is evicted,
    provided the other registered connections accept the [user_left]
    notification. *)
Theorem sendToClient_failure fuel env sid m st c
    (Hkeys : NoDup (keys (clients st)))
    (Hget : map_get sid (clients st) = Some c) :
  (is_open env c = false ->
   sendToClient (S fuel) env sid m st = ret st) /\
  (is_open env c = true ->
   sendThrows env (ws c) m = true ->
   others_accept env sid st ->
   exists st',
     sendToClient (S (S fuel)) env sid m st = ret st' /\
     map_get sid (clients st') = None /\
     clients st' = map_delete sid (clients st)).
Proof.
  split.
  - intros Ho. now apply (sendToClient_not_open fuel env sid m st c).
  - intros Ho Ht Hcalm.
    destruct (sendToClient_rejected fuel env sid m st c Hkeys Hget Ho Ht Hcalm)
      as [st' [Hrun [Hc _]]].
    exists st'. split; [exact Hrun|]. split; [|exact Hc].
    rewrite Hc, map_get_delete. now rewrite String.eqb_refl.
Qed.

Lemma shop_keys : NoDup (keys (clients shop)).
Proof. repeat constructor; simpl; intuition discriminate. Qed.

Lemma shop_ok : registry_ok shop.
Proof.
  split; [exact shop_keys|]. split.
  - repeat constructor; simpl; intuition discriminate.
  - intros sid c Hin. simpl in Hin.
    repeat (destruct Hin as [Hin|Hin]; [injection Hin as <- <-; reflexivity|]).
    destruct Hin.
Qed.


Lemma sendToClient_failure_witness :
  sendToClient 1 env_closed "a" orderCreated shop = ret shop /\
  exists st',
    sendToClient 2 env_broken "a" orderCreated shop = ret st' /\
    map_get "a" (clients st') = None /\
    clients st' = map_delete "a" (clients shop).
Proof.
  split.
  - apply (proj1 (sendToClient_failure 0 env_closed "a" orderCreated shop alice
                    shop_keys eq_refl)).
    reflexivity.
  - apply (proj2 (sendToClient_failure 0 env_broken "a" orderCreated shop alice
                    shop_keys eq_refl)); [reflexivity | reflexivity |].
    intros sid' c m Hin Hne. simpl in Hin.
    destruct Hin as [Hin|Hin]; [injection Hin as <- <-; congruence|].
    repeat (destruct Hin as [Hin|Hin]; [injection Hin as <- <-; reflexivity|]).
    destruct Hin.
Defined.

(** ** Inbound frames *)

Lemma find_ws_In m sid c :
  NoDup (transports m) -> In (sid, c) m -> find_ws (ws c) m = Some sid.
Proof.
  induction m as [|[k v] m IH]; simpl; [tauto|].
  intros Hnd [Heq|Hin]; inversion Hnd as [|? ? Hnotin Hnd']; subst.
  - injection Heq as -> ->. now rewrite Nat.eqb_refl.
  - destruct (Nat.eqb_spec (ws v) (ws c)) as [Heq|Hne].
    + exfalso. apply Hnotin. rewrite Heq.
      change (ws c) with ((fun e : string * ClientConnection => ws (snd e)) (sid, c)).
      now apply in_map.
    + now apply IH.
Qed.

Lemma find_ws_Some m w sid :
  find_ws w m = Some sid -> exists c, In (sid, c) m /\ ws c = w.
Proof.
  induction m as [|[k v] m IH]; simpl; [discriminate|].
  destruct (Nat.eqb_spec (ws v) w) as [Heq|Hne].
  - intros H. injection H as <-. exists v. auto.
  - intros H. destruct (IH H) as [c [Hin Hw]]. exists c. auto.
Qed.

Lemma is_string_false o s : o <> Some s -> is_string o s = false.
Proof.
  destruct o as [x|]; simpl; [|reflexivity].
  intros H. apply String.eqb_neq. congruence.
Qed.

Lemma map_update_twice {V : Type} (m : list (string * V)) k f g :
  map_update k g (map_update k f m) = map_update k (fun v => g (f v)) m.
Proof.
  induction m as [|[k0 v0] m IH]; simpl; [reflexivity|].
  destruct (String.eqb_spec k0 k) as [->|Hne]; simpl.
  - now rewrite String.eqb_refl.
  - apply String.eqb_neq in Hne. rewrite Hne. now rewrite IH.
Qed.

(** The router finds the session of a registered connection and enters the
    [try] block with the stored object. *)
Lemma router_resolves st sid c :
  registry_ok st -> In (sid, c) (clients st) ->
  findSessionIdByWebSocket (ws c) st = Some sid /\
  map_get sid (clients st) = Some c.
Proof.
  intros [Hk [Ht _]] Hin. split.
  - now apply find_ws_In.
  - now apply In_map_get.
Qed.

(** C8.  A frame that [JSON.parse] rejects is dropped: the handler returns
    normally (nothing is thrown to the caller) in the very state it was
    called in, so the connection stays registered with every field as it
    was, no other entry changes, and nothing is sent or closed. *)
Theorem malformed_frame_dropped fuel env w st :
  handleWebSocketMessage fuel env w None st = ret st.
Proof.
  unfold handleWebSocketMessage.
  destruct (findSessionIdByWebSocket w st) as [sid|]; [|reflexivity].
  destruct (sid =? ""); reflexivity.
Qed.

(** C10.  A parseable frame of a registered connection whose [type] is none
    of [authenticate], [ping], [pong]: the handler returns with the registry
    changed in one place only, the [lastActiveTime] of that connection, now
    the clock reading; the connection stays registered with its other fields
    as they were, every other entry is untouched, and the effect log is
    unchanged (nothing is sent). *)
Theorem unhandled_frame_effect fuel env st sid c parsed
    (Hok : registry_ok st)
    (Hin : In (sid, c) (clients st))
    (Hsid : sid <> "")
    (Htype : unhandled parsed) :
  exists st',
    handleWebSocketMessage fuel env (ws c) (Some parsed) st = ret st' /\
    clients st' = map_update sid (set_lastActiveTime (clock env (reads st))) (clients st) /\
    map_get sid (clients st')
      = Some (mkClient (ws c) (userId c) (storeId c) (sessionId c) (isAlive c)
                       (lastPingTime c) (clock env (reads st)) (connectedAt c)) /\
    (forall sid', sid' <> sid ->
                  map_get sid' (clients st') = map_get sid' (clients st)) /\
    keys (clients st') = keys (clients st) /\
    effects st' = effects st.
Proof.
  destruct (router_resolves st sid c Hok Hin) as [Hfind Hget].
  exists (assign sid (set_lastActiveTime (clock env (reads st))) (snd (Date_now env st))).
  split; [|split; [reflexivity|split; [|split; [|split; [|reflexivity]]]]].
  - unfold handleWebSocketMessage. rewrite Hfind.
    apply String.eqb_neq in Hsid. rewrite Hsid, Hget.
    cbn [Date_now snd]. unfold dispatch.
    destruct parsed as [|type data]; [reflexivity|].
    destruct Htype as [Ha [Hpo Hpi]].
    now rewrite (is_string_false _ _ Ha), (is_string_false _ _ Hpo),
      (is_string_false _ _ Hpi).
  - simpl. rewrite map_get_update, String.eqb_refl, Hget. reflexivity.
  - intros sid' Hne. simpl. rewrite map_get_update.
    assert (H : (sid =? sid') = false) by (apply String.eqb_neq; congruence).
    now rewrite H.
  - simpl. apply keys_update.
Qed.

Lemma unhandled_frame_effect_witness :
  exists st',
    handleWebSocketMessage 0 env_open 3 (Some (PValue (Some "subscribe") None)) shop
      = ret st' /\
    map_get "c" (clients st') = Some (set_lastActiveTime 0 carol) /\
    effects st' = [].
Proof.
  assert (Hin : In ("c", carol) (clients shop)) by (simpl; auto).
  assert (Hne : "c" <> "") by discriminate.
  assert (Hty : unhandled (PValue (Some "subscribe") None))
    by (repeat split; discriminate).
  destruct (unhandled_frame_effect 0 env_open shop "c" carol
              (PValue (Some "subscribe") None) shop_ok Hin Hne Hty)
    as [st' [Hrun [_ [Hget [_ [_ Heff]]]]]].
  exists st'. split; [exact Hrun|]. split; [exact Hget | exact Heff].
Defined.

Lemma hook_calls_spec c u :
  In (LastActiveHook u) (hook_calls c) <-> userId c = Some u /\ u <> "".
Proof.
  unfold hook_calls, truthy. destruct (userId c) as [x|]; simpl.
  - destruct (String.eqb_spec x "") as [->|Hne]; simpl.
    + split; [tauto|]. intros [H1 H2]. congruence.
    + split.
      * intros [H|[]]. injection H as ->. auto.
      * intros [H _]. injection H as ->. auto.
  - split; [tauto|]. intros [H _]. discriminate.
Qed.

Lemma touchLastActive_logs c st :
  touchLastActive c st = ret (log_all (hook_calls c) st).
Proof.
  unfold touchLastActive, hook_calls, updateUserLastActive.
  destruct (userId c) as [u|]; [destruct (truthy (Some u))|];
    try reflexivity; now rewrite log_all_nil.
Qed.

(** C7.  A [pong] frame of a registered connection: the handler returns,
    the stored connection has [isAlive = true] and [lastPingTime] set to the
    clock reading taken for it, the other entries are untouched, the effects
    added are the call of the last-active hook, made exactly when the
    connection has a (truthy) [userId], and no frame is sent.  A [ping] frame
    does the same to the registry and the hook and, the transport being open
    and accepting the frame, sends one [pong] to that transport first. *)
Theorem pong_and_ping_frames fuel env st sid c data
    (Hok : registry_ok st)
    (Hin : In (sid, c) (clients st))
    (Hsid : sid <> "") :
  let t0 := clock env (reads st) in
  let t1 := clock env (S (reads st)) in
  let t2 := clock env (S (S (reads st))) in
  (exists st',
      handleWebSocketMessage fuel env (ws c) (Some (PValue (Some "pong") data)) st
        = ret st' /\
      clients st' = map_update sid (refreshed t0 t1) (clients st) /\
      map_get sid (clients st')
        = Some (mkClient (ws c) (userId c) (storeId c) (sessionId c) true
                         t1 t0 (connectedAt c)) /\
      effects st' = effects st ++ hook_calls c) /\
  (is_open env c = true ->
   sendThrows env (ws c) (pongMessage t2) = false ->
   exists st',
      handleWebSocketMessage (S fuel) env (ws c) (Some (PValue (Some "ping") data)) st
        = ret st' /\
      clients st' = map_update sid (refreshed t0 t1) (clients st) /\
      map_get sid (clients st')
        = Some (mkClient (ws c) (userId c) (storeId c) (sessionId c) true
                         t1 t0 (connectedAt c)) /\
      effects st' = effects st ++ Sent (ws c) (pongMessage t2) :: hook_calls c) /\
  (forall u, In (LastActiveHook u) (hook_calls c) <-> userId c = Some u /\ u <> "") /\
  (forall h m, ~ In (Sent h m) (hook_calls c)).
Proof.
  intros t0 t1 t2.
  destruct (router_resolves st sid c Hok Hin) as [Hfind Hget].
  assert (Hstored : map_get sid (map_update sid (refreshed t0 t1) (clients st))
                    = Some (mkClient (ws c) (userId c) (storeId c) (sessionId c) true
                                     t1 t0 (connectedAt c))).
  { rewrite map_get_update, String.eqb_refl, Hget. reflexivity. }
  apply String.eqb_neq in Hsid.
  split; [|split; [|split]].
  - eexists. split; [|split; [|split]].
    + unfold handleWebSocketMessage. rewrite Hfind, Hsid, Hget.
      cbn [Date_now]. unfold dispatch. cbn [is_string].
      change ("pong" =? "authenticate") with false.
      change ("pong" =? "pong") with true. cbv iota.
      cbn [Date_now]. rewrite touchLastActive_logs. reflexivity.
    + simpl. now rewrite !map_update_twice.
    + simpl. rewrite !map_update_twice. exact Hstored.
    + reflexivity.
  - intros Ho Hacc.
    pose (cl := map_update sid (refreshed t0 t1) (clients st)).
    exists (log_all (Sent (ws c) (pongMessage t2) :: hook_calls c)
                    (mkState cl (effects st) (S (S (S (reads st)))))).
    split; [|split; [reflexivity|split; [exact Hstored|reflexivity]]].
    unfold handleWebSocketMessage. rewrite Hfind, Hsid, Hget.
    cbn [Date_now]. unfold dispatch. cbn [is_string].
    change ("ping" =? "authenticate") with false.
    change ("ping" =? "pong") with false.
    change ("ping" =? "ping") with true. cbv iota.
    cbn [Date_now]. unfold assign, with_clients. cbn [clients effects reads].
    rewrite !map_update_twice.
    change (fun v : ClientConnection =>
              set_lastPingTime (clock env (S (reads st)))
                (set_isAlive true (set_lastActiveTime (clock env (reads st)) v)))
      with (refreshed t0 t1).
    change (clock env (S (S (reads st)))) with t2.
    fold cl.
    rewrite (sendToClient_accepted fuel env sid (pongMessage t2)
               (mkState cl (effects st) (S (S (S (reads st)))))
               (refreshed t0 t1 c)).
    + rewrite andThen_ret, touchLastActive_logs. cbn [tryCatch ret].
      unfold log, log_all. cbn [clients effects reads refreshed ws
        set_lastPingTime set_isAlive set_lastActiveTime].
      now rewrite <- app_assoc.
    + cbn [clients]. unfold cl. rewrite map_get_update, String.eqb_refl, Hget.
      reflexivity.
    + exact Ho.
    + exact Hacc.
  - apply hook_calls_spec.
  - intros h m. unfold hook_calls.
    destruct (userId c) as [u|]; [destruct (truthy (Some u))|]; simpl;
      intuition discriminate.
Qed.

Lemma pong_and_ping_frames_witness :
  (exists st',
      handleWebSocketMessage 0 env_open 1 (Some (PValue (Some "pong") None)) shop
        = ret st' /\
      map_get "a" (clients st')
        = Some (mkClient 1 (Some "u1") (Some "s1") "a" true 1 0 0) /\
      effects st' = [LastActiveHook "u1"]) /\
  (exists st',
      handleWebSocketMessage 1 env_open 1 (Some (PValue (Some "ping") None)) shop
        = ret st' /\
      effects st' = [Sent 1 (pongMessage 2); LastActiveHook "u1"]).
Proof.
  assert (Hin : In ("a", alice) (clients shop)) by (simpl; auto).
  assert (Hne : "a" <> "") by discriminate.
  destruct (pong_and_ping_frames 0 env_open shop "a" alice None shop_ok Hin Hne)
    as [[st1 [Hrun1 [_ [Hget1 Heff1]]]] [Hping _]].
  split.
  - exists st1. split; [exact Hrun1|]. split; [exact Hget1 | exact Heff1].
  - destruct (Hping eq_refl eq_refl) as [st2 [Hrun2 [_ [_ Heff2]]]].
    exists st2. split; [exact Hrun2 | exact Heff2].
Defined.

(** ** Statistics *)

(** C9.  On an empty registry [getStats] returns zero connections, zero
    active connections, no per-store count and an average of 0 (the quotient
    is not computed); and on every registry [getStats] leaves the registry
    and the effect log as they were. *)
Theorem getStats_empty_and_pure env :
  (forall es n,
      fst (getStats env (mkState [] es n)) = mkStats 0 0 [] 0%Q) /\
  (forall st,
      clients (snd (getStats env st)) = clients st /\
      effects (snd (getStats env st)) = effects st).
Proof.
  split.
  - intros es n. reflexivity.
  - intros st. split; reflexivity.
Qed.

(** ** Properties kept by every call

    A property of states that survives logging a frame, reading the clock,
    deleting an entry and the liveness and time-stamp assignments survives
    the senders, the timer callback and the close handler, whatever the
    transports do and however deep the calls nest. *)

Section Preservation.
Variable P : State -> Prop.

Hypothesis P_sent : forall h m st, P st -> P (log (Sent h m) st).
Hypothesis P_failed : forall h m st, P st -> P (log (SendFailed h m) st).
Hypothesis P_hook : forall u st, P st -> P (log (LastActiveHook u) st).
Hypothesis P_clock : forall env st, P st -> P (snd (Date_now env st)).
Hypothesis P_delete : forall sid st, P st -> P (with_clients (map_delete sid) st).
Hypothesis P_alive : forall sid b st, P st -> P (assign sid (set_isAlive b) st).
Hypothesis P_pinged : forall sid t st, P st -> P (assign sid (set_lastPingTime t) st).
Hypothesis P_active : forall sid t st, P st -> P (assign sid (set_lastActiveTime t) st).

Lemma preserves_ret : preserves P ret.
Proof. intros st r HP H. injection H as <-. exact HP. Qed.

Lemma preserves_throw : preserves P throw.
Proof. intros st r HP H. injection H as <-. exact HP. Qed.

Lemma preserves_andThen f g :
  preserves P f -> preserves P g -> preserves P (fun st => f st >>= g).
Proof.
  intros Hf Hg st r HP H. unfold andThen in H.
  destruct (f st) as [[s|s]|] eqn:Hfs; [| |discriminate].
  - apply (Hg s r); [|exact H]. exact (Hf st _ HP Hfs).
  - injection H as <-. exact (Hf st _ HP Hfs).
Qed.

Lemma preserves_tryCatch f g :
  preserves P f -> preserves P g -> preserves P (fun st => tryCatch (f st) g).
Proof.
  intros Hf Hg st r HP H. unfold tryCatch in H.
  destruct (f st) as [[s|s]|] eqn:Hfs; [| |discriminate].
  - injection H as <-. exact (Hf st _ HP Hfs).
  - apply (Hg s r); [|exact H]. exact (Hf st _ HP Hfs).
Qed.

Lemma preserves_ws_send env h m : preserves P (ws_send env h m).
Proof.
  intros st r HP H. unfold ws_send in H.
  destruct (sendThrows env h m); injection H as <-; simpl; auto.
Qed.

Lemma preserves_forEach visit :
  (forall k c, preserves P (visit k c)) ->
  forall ks, preserves P (forEach visit ks).
Proof.
  intros Hv ks. induction ks as [|k ks IH]; intros st r HP H; simpl in H.
  - injection H as <-. exact HP.
  - destruct (map_get k (clients st)) as [c|].
    + exact (preserves_andThen (visit k c) (forEach visit ks) (Hv k c) IH st r HP H).
    + exact (IH st r HP H).
Qed.

Lemma preserves_clients_forEach visit :
  (forall k c, preserves P (visit k c)) -> preserves P (clients_forEach visit).
Proof. intros Hv st. apply preserves_forEach. exact Hv. Qed.

Lemma preserves_guarded (b : bool) f : preserves P f -> preserves P (fun st => if b then f st else ret st).
Proof. intros Hf. destruct b; [exact Hf | exact preserves_ret]. Qed.

Lemma preserves_broadcastToStore_with send env store m exclude :
  (forall k m', preserves P (send k m')) ->
  preserves P (broadcastToStore_with send env store m exclude).
Proof.
  intros Hs. apply preserves_clients_forEach. intros k c.
  apply (preserves_guarded _ (send k m)). apply Hs.
Qed.

Lemma preserves_handleDisconnection_with send env sid :
  (forall k m, preserves P (send k m)) ->
  preserves P (handleDisconnection_with send env sid).
Proof.
  intros Hs. unfold handleDisconnection_with.
  apply (preserves_andThen
           (fun st => match map_get sid (clients st) with
                      | Some client =>
                          match storeId client with
                          | Some store =>
                              if truthy (storeId client) then
                                let (t, st1) := Date_now env st in
                                broadcastToStore_with send env store
                                  (userLeftMessage (userId client) (storeId client) t)
                                  (Some sid) st1
                              else ret st
                          | None => ret st
                          end
                      | None => ret st
                      end)).
  - intros st r HP H.
    destruct (map_get sid (clients st)) as [c|]; [|exact (preserves_ret st r HP H)].
    destruct (storeId c) as [store|]; [|exact (preserves_ret st r HP H)].
    destruct (truthy (Some store)); [|exact (preserves_ret st r HP H)].
    cbn [Date_now] in H.
    eapply preserves_broadcastToStore_with; [exact Hs | | exact H].
    exact (P_clock env st HP).
  - intros st r HP H. injection H as <-. simpl. now apply P_delete.
Qed.

Lemma preserves_sendToClient env :
  forall fuel sid m, preserves P (sendToClient fuel env sid m).
Proof.
  induction fuel as [|n IH]; intros sid m st r HP H; simpl in H; [discriminate|].
  destruct (map_get sid (clients st)) as [c|]; [|exact (preserves_ret st r HP H)].
  destruct (is_open env c); [|exact (preserves_ret st r HP H)].
  refine (preserves_tryCatch (ws_send env (ws c) m) _ _ _ st r HP H).
  - apply preserves_ws_send.
  - apply preserves_handleDisconnection_with. exact (IH).
Qed.

Lemma preserves_handleDisconnection fuel env sid :
  preserves P (handleDisconnection fuel env sid).
Proof.
  apply preserves_handleDisconnection_with. apply preserves_sendToClient.
Qed.

Lemma preserves_broadcastToStore fuel env store m exclude :
  preserves P (broadcastToStore fuel env store m exclude).
Proof.
  apply preserves_broadcastToStore_with. apply preserves_sendToClient.
Qed.

Lemma preserves_sendToUser fuel env user m : preserves P (sendToUser fuel env user m).
Proof.
  apply preserves_clients_forEach. intros k c.
  apply (preserves_guarded _ (sendToClient fuel env k m)). apply preserves_sendToClient.
Qed.

Lemma preserves_sendToStore fuel env store m : preserves P (sendToStore fuel env store m).
Proof.
  apply preserves_clients_forEach. intros k c.
  apply (preserves_guarded _ (sendToClient fuel env k m)). apply preserves_sendToClient.
Qed.

Lemma preserves_broadcast fuel env m exclude : preserves P (broadcast fuel env m exclude).
Proof.
  apply preserves_clients_forEach. intros k c.
  apply (preserves_guarded _ (sendToClient fuel env k m)). apply preserves_sendToClient.
Qed.

Lemma preserves_livenessTick fuel env : preserves P (livenessTick fuel env).
Proof.
  apply preserves_clients_forEach. intros k c st r HP H.
  unfold livenessVisit in H. destruct (negb (isAlive c)).
  - exact (preserves_handleDisconnection fuel env k st r HP H).
  - cbn [Date_now] in H.
    refine (preserves_tryCatch (ws_send env (ws c) _) _ _ _ _ r _ H).
    + apply preserves_ws_send.
    + apply preserves_handleDisconnection.
    + apply (P_clock env). now apply P_alive.
Qed.

Lemma preserves_handleWebSocketClose fuel env w :
  preserves P (handleWebSocketClose fuel env w).
Proof.
  intros st r HP H. unfold handleWebSocketClose in H.
  destruct (findSessionIdByWebSocket w st) as [sid|]; [|exact (preserves_ret st r HP H)].
  destruct (sid =? ""); [exact (preserves_ret st r HP H)|].
  exact (preserves_handleDisconnection fuel env sid st r HP H).
Qed.

Lemma preserves_touchLastActive c : preserves P (touchLastActive c).
Proof.
  intros st r HP H. unfold touchLastActive, updateUserLastActive in H.
  destruct (userId c) as [u|]; [destruct (truthy (Some u))|];
    injection H as <-; simpl; auto.
Qed.

(** The two calls that write what a frame or the server supplies keep [P]
    when the writes themselves do. *)
Lemma preserves_authenticateClient fuel env sid authData :
  (forall a st, authData = Some a -> P st ->
                P (assign sid (set_identity (auth_userId a) (auth_storeId a)) st)) ->
  preserves P (authenticateClient fuel env sid authData).
Proof.
  intros Hid st r HP H. unfold authenticateClient in H.
  destruct (map_get sid (clients st)) as [c|]; [|exact (preserves_ret st r HP H)].
  destruct authData as [a|]; [|exact (preserves_throw st r HP H)].
  specialize (Hid a st eq_refl HP).
  destruct (auth_storeId a) as [store|] eqn:Hs; [|exact (preserves_ret _ r Hid H)].
  destruct (truthy (Some store)); [|exact (preserves_ret _ r Hid H)].
  cbn [Date_now] in H.
  refine (preserves_broadcastToStore fuel env store _ _ _ r _ H).
  exact (P_clock env _ Hid).
Qed.

Lemma preserves_handleWebSocketMessage fuel env w message :
  (forall type a sid st,
      message = Some (PValue type (Some a)) ->
      is_string type "authenticate" = true -> P st ->
      P (assign sid (set_identity (auth_userId a) (auth_storeId a)) st)) ->
  preserves P (handleWebSocketMessage fuel env w message).
Proof.
  intros Hid st r HP H. unfold handleWebSocketMessage in H.
  destruct (findSessionIdByWebSocket w st) as [sid|]; [|exact (preserves_ret st r HP H)].
  destruct (sid =? ""); [exact (preserves_ret st r HP H)|].
  match type of H with
  | tryCatch ?body ret = Some r =>
      assert (Hbody : forall r', body = Some r' -> P (state_of r'));
      [ clear H r
      | unfold tryCatch in H; destruct body as [[s|s]|]; [| |discriminate];
        injection H as <-; exact (Hbody _ eq_refl) ]
  end.
  intros r H.
  destruct message as [parsed|]; [|exact (preserves_throw st r HP H)].
  destruct (map_get sid (clients st)) as [c|]; [|exact (preserves_ret st r HP H)].
  cbn [Date_now] in H.
  assert (HP2 : P (assign sid (set_lastActiveTime (clock env (reads st)))
                          (mkState (clients st) (effects st) (S (reads st))))).
  { apply P_active. exact (P_clock env st HP). }
  revert H. generalize (assign sid (set_lastActiveTime (clock env (reads st)))
                          (mkState (clients st) (effects st) (S (reads st)))) HP2.
  clear HP2 HP. intros s HP H. unfold dispatch in H.
  destruct parsed as [|type data]; [exact (preserves_throw s r HP H)|].
  destruct (is_string type "authenticate") eqn:Hauth.
  { refine (preserves_authenticateClient fuel env sid data _ s r HP H).
    intros a s' -> HP'. now apply (Hid type a sid s'). }
  destruct (is_string type "pong").
  { cbn [Date_now] in H.
    refine (preserves_touchLastActive c _ r _ H).
    apply P_pinged. apply (P_clock env). now apply P_alive. }
  destruct (is_string type "ping"); [|exact (preserves_ret s r HP H)].
  cbn [Date_now] in H.
  refine (preserves_andThen (sendToClient fuel env sid _) (touchLastActive c)
            _ _ _ r _ H).
  - apply preserves_sendToClient.
  - apply preserves_touchLastActive.
  - apply (P_clock env). apply P_pinged. apply (P_clock env). now apply P_alive.
Qed.

Lemma preserves_handleWebSocketUpgrade fuel env sessionId w st r :
  (let now := clock env (reads st) in
   P (with_clients (map_set sessionId (mkClient w None None sessionId true now now now))
                   (snd (Date_now env st)))) ->
  handleWebSocketUpgrade fuel env sessionId w st = Some r ->
  P (state_of r).
Proof.
  intros Hset H. unfold handleWebSocketUpgrade in H. cbn [Date_now] in H.
  refine (preserves_sendToClient env fuel sessionId _ _ r _ H).
  apply (P_clock env). exact Hset.
Qed.

Lemma preserves_handle fuel env ev st r :
  (forall sessionId w, ev = Open sessionId w ->
      let now := clock env (reads st) in
      P (with_clients (map_set sessionId (mkClient w None None sessionId true now now now))
                      (snd (Date_now env st)))) ->
  (forall w type a sid s,
      ev = Frame w (Some (PValue type (Some a))) ->
      is_string type "authenticate" = true -> P s ->
      P (assign sid (set_identity (auth_userId a) (auth_storeId a)) s)) ->
  P st ->
  handle fuel env ev st = Some r ->
  P (state_of r).
Proof.
  intros Hopen Hauth HP H. destruct ev; simpl in H.
  - eapply preserves_handleWebSocketUpgrade; [|exact H]. now apply Hopen.
  - eapply preserves_handleWebSocketMessage; [|exact HP|exact H].
    intros type a sid s -> Ht HPs. now apply (Hauth w type a sid s).
  - exact (preserves_handleWebSocketClose fuel env w st r HP H).
  - exact (preserves_livenessTick fuel env st r HP H).
  - exact (preserves_sendToClient env fuel sid message st r HP H).
  - exact (preserves_sendToUser fuel env user message st r HP H).
  - exact (preserves_sendToStore fuel env store message st r HP H).
  - exact (preserves_broadcast fuel env message exclude st r HP H).
  - exact (preserves_broadcastToStore fuel env store message exclude st r HP H).
Qed.
End Preservation.

(** ** The registry invariant *)

Lemma transports_delete_sub m sid h :
  In h (transports (map_delete sid m)) -> In h (transports m).
Proof.
  unfold transports. rewrite !in_map_iff.
  intros [e [He Hin]]. exists e. split; [exact He|].
  now apply In_delete in Hin as [Hin _].
Qed.

Lemma NoDup_transports_delete m sid :
  NoDup (transports m) -> NoDup (transports (map_delete sid m)).
Proof.
  induction m as [|[k v] m IH]; intros Hnd; [exact Hnd|].
  apply NoDup_cons_iff in Hnd as [Hfresh Hnd].
  change (map_delete sid ((k, v) :: m))
    with (if negb (k =? sid) then (k, v) :: map_delete sid m else map_delete sid m).
  destruct (negb (k =? sid)); [|now apply IH].
  apply NoDup_cons; [|now apply IH].
  intros Hin. apply Hfresh. now apply (transports_delete_sub m sid).
Qed.

Lemma transports_update m sid f :
  (forall c, ws (f c) = ws c) ->
  transports (map_update sid f m) = transports m.
Proof.
  intros Hf. induction m as [|[k v] m IH]; simpl; [reflexivity|].
  destruct (k =? sid); simpl; [now rewrite Hf|now rewrite IH].
Qed.

Lemma In_set_inv {V : Type} (m : list (string * V)) k v e :
  In e (map_set k v m) -> e = (k, v) \/ In e m.
Proof.
  induction m as [|[k0 v0] m IH]; simpl.
  - intros [<-|[]]. now left.
  - destruct (String.eqb_spec k0 k) as [->|Hne]; simpl.
    + intros [<-|Hin]; auto.
    + intros [<-|Hin]; auto. destruct (IH Hin); auto.
Qed.

Lemma keys_set {V : Type} (m : list (string * V)) k v :
  keys (map_set k v m) = if existsb (String.eqb k) (keys m) then keys m else keys m ++ [k].
Proof.
  induction m as [|[k0 v0] m IH]; simpl; [reflexivity|].
  destruct (String.eqb_spec k0 k) as [->|Hne]; simpl.
  - now rewrite String.eqb_refl.
  - assert (H : (k =? k0) = false) by (apply String.eqb_neq; congruence).
    rewrite H, IH. simpl. now destruct (existsb (String.eqb k) (keys m)).
Qed.

Lemma NoDup_keys_set {V : Type} (m : list (string * V)) k v :
  NoDup (keys m) -> NoDup (keys (map_set k v m)).
Proof.
  intros Hnd. rewrite keys_set.
  destruct (existsb (String.eqb k) (keys m)) eqn:He; [exact Hnd|].
  apply NoDup_app; [exact Hnd | repeat constructor; simpl; tauto |].
  intros x Hx [Heq|[]]. subst x.
  assert (Ht : existsb (String.eqb k) (keys m) = true).
  { apply existsb_exists. exists k. split; [exact Hx | apply String.eqb_refl]. }
  congruence.
Qed.

Lemma transports_set_inv m k v h :
  In h (transports (map_set k v m)) -> h = ws v \/ In h (transports m).
Proof.
  unfold transports. intros Hin. apply in_map_iff in Hin as [e [<- Hin]].
  destruct (In_set_inv m k v e Hin) as [->|H]; [now left|].
  right. apply in_map_iff. eauto.
Qed.

Lemma NoDup_transports_set m k v :
  NoDup (transports m) -> ~ In (ws v) (transports m) ->
  NoDup (transports (map_set k v m)).
Proof.
  induction m as [|[k0 v0] m IH]; simpl; intros Hnd Hfresh.
  - repeat constructor. simpl. tauto.
  - inversion Hnd as [|? ? Hnotin Hnd']; subst.
    destruct (k0 =? k); simpl.
    + constructor; [tauto | exact Hnd'].
    + constructor.
      * intros Hin. destruct (transports_set_inv m k v _ Hin) as [Heq|Hin']; [|tauto].
        apply Hfresh. now left.
      * apply IH; [exact Hnd' | tauto].
Qed.

Lemma registry_ok_same_clients st st' :
  clients st' = clients st -> registry_ok st -> registry_ok st'.
Proof. unfold registry_ok. now intros ->. Qed.

Lemma registry_ok_delete sid st :
  registry_ok st -> registry_ok (with_clients (map_delete sid) st).
Proof.
  intros [Hk [Ht Hs]]. unfold registry_ok. simpl. split; [|split].
  - now apply NoDup_keys_delete.
  - now apply NoDup_transports_delete.
  - intros k c Hin. apply In_delete in Hin as [Hin _]. now apply Hs.
Qed.

Lemma registry_ok_assign sid f st :
  (forall c, ws (f c) = ws c) -> (forall c, sessionId (f c) = sessionId c) ->
  registry_ok st -> registry_ok (assign sid f st).
Proof.
  intros Hw Hid [Hk [Ht Hs]]. unfold registry_ok. simpl. split; [|split].
  - now rewrite keys_update.
  - now rewrite transports_update.
  - intros k c Hin. destruct (In_update _ _ _ _ Hin) as [H|[v [H Heq]]].
    + now apply Hs.
    + injection Heq as -> ->. rewrite Hid. now apply Hs.
Qed.

Lemma registry_ok_set sid c st :
  sessionId c = sid -> ~ In (ws c) (transports (clients st)) ->
  registry_ok st -> registry_ok (with_clients (map_set sid c) st).
Proof.
  intros Hid Hfresh [Hk [Ht Hs]]. unfold registry_ok. simpl. split; [|split].
  - now apply NoDup_keys_set.
  - now apply NoDup_transports_set.
  - intros k v Hin. destruct (In_set_inv _ _ _ _ Hin) as [H|H].
    + now injection H as -> ->.
    + now apply Hs.
Qed.

Lemma handle_keeps_registry_ok fuel env ev st r :
  fresh_transport ev st -> registry_ok st ->
  handle fuel env ev st = Some r -> registry_ok (state_of r).
Proof.
  intros Hfresh Hok H.
  refine (preserves_handle registry_ok _ _ _ _ _ _ _ _ fuel env ev st r _ _ Hok H).
  - intros h m s. now apply registry_ok_same_clients.
  - intros h m s. now apply registry_ok_same_clients.
  - intros u s. now apply registry_ok_same_clients.
  - intros e s. now apply registry_ok_same_clients.
  - intros sid s. apply registry_ok_delete.
  - intros sid b s. now apply registry_ok_assign.
  - intros sid t s. now apply registry_ok_assign.
  - intros sid t s. now apply registry_ok_assign.
  - intros sessionId w -> now. apply registry_ok_set; [reflexivity | exact Hfresh |].
    now apply (registry_ok_same_clients st).
  - intros w type a sid s _ _. now apply registry_ok_assign.
Qed.



(** ** Calls on accepting transports

    When no send throws, nothing is evicted outside the liveness timer: a
    property kept by logging, clock readings and the field assignments is
    kept by senders and by the frame router, which moreover return. *)

Section Calm.
Variable P : State -> Prop.

Hypothesis C_log : forall e st, P st -> P (log e st).
Hypothesis C_clock : forall env st, P st -> P (snd (Date_now env st)).
Hypothesis C_active : forall sid t st, P st -> P (assign sid (set_lastActiveTime t) st).
Hypothesis C_pinged : forall sid t st, P st -> P (assign sid (set_lastPingTime t) st).
Hypothesis C_identity : forall sid u s st, P st -> P (assign sid (set_identity u s) st).

Lemma calm_ret : returns_keeping P ret.
Proof. intros st HP. eauto. Qed.

Lemma calm_andThen f g :
  returns_keeping P f -> returns_keeping P g -> returns_keeping P (fun st => f st >>= g).
Proof.
  intros Hf Hg st HP. destruct (Hf st HP) as [s [-> HPs]]. exact (Hg s HPs).
Qed.

Lemma calm_sendToClient fuel env sid m :
  accepting env -> returns_keeping P (sendToClient (S fuel) env sid m).
Proof.
  intros Hacc st HP. simpl.
  destruct (map_get sid (clients st)) as [c|]; [|eauto].
  destruct (is_open env c); [|eauto].
  unfold ws_send. rewrite Hacc. simpl. eauto.
Qed.

Lemma calm_forEach visit :
  (forall k c, returns_keeping P (visit k c)) ->
  forall ks, returns_keeping P (forEach visit ks).
Proof.
  intros Hv ks. induction ks as [|k ks IH]; intros st HP; simpl; [eauto|].
  destruct (map_get k (clients st)) as [c|]; [|exact (IH st HP)].
  exact (calm_andThen (visit k c) (forEach visit ks) (Hv k c) IH st HP).
Qed.

Lemma calm_broadcastToStore fuel env store m exclude :
  accepting env -> returns_keeping P (broadcastToStore (S fuel) env store m exclude).
Proof.
  intros Hacc st. apply calm_forEach. intros k c s HP.
  destruct (store_target env store exclude k c); [|eauto].
  now apply calm_sendToClient.
Qed.

Lemma calm_touchLastActive c : returns_keeping P (touchLastActive c).
Proof.
  intros st HP. unfold touchLastActive, updateUserLastActive.
  destruct (userId c) as [u|]; [destruct (truthy (Some u))|]; eauto.
Qed.

Lemma calm_handleWebSocketMessage fuel env w message st :
  accepting env ->
  (forall sid s, findSessionIdByWebSocket w st = Some sid ->
                 liveness_signal message = true ->
                 P s -> P (assign sid (set_isAlive true) s)) ->
  P st ->
  exists st', handleWebSocketMessage (S fuel) env w message st = ret st' /\ P st'.
Proof.
  intros Hacc Halive HP. unfold handleWebSocketMessage.
  destruct (findSessionIdByWebSocket w st) as [sid|]; [|eauto].
  specialize (Halive sid).
  destruct (sid =? ""); [eauto|].
  destruct message as [parsed|]; [|simpl; eauto].
  destruct (map_get sid (clients st)) as [c|]; [|simpl; eauto].
  cbn [Date_now].
  assert (HP2 : P (assign sid (set_lastActiveTime (clock env (reads st)))
                          (mkState (clients st) (effects st) (S (reads st))))).
  { apply C_active. exact (C_clock env st HP). }
  revert HP2. generalize (assign sid (set_lastActiveTime (clock env (reads st)))
                            (mkState (clients st) (effects st) (S (reads st)))).
  intros s HPs. unfold dispatch.
  destruct parsed as [|type data]; [simpl; eauto|].
  destruct (is_string type "authenticate") eqn:Hauth.
  { unfold authenticateClient.
    destruct (map_get sid (clients s)) as [c'|]; [|simpl; eauto].
    destruct data as [a|]; [|simpl; eauto].
    pose proof (C_identity sid (auth_userId a) (auth_storeId a) s HPs) as HP3.
    destruct (auth_storeId a) as [store|]; [|simpl; eauto].
    destruct (truthy (Some store)); [|simpl; eauto].
    cbn [Date_now].
    destruct (calm_broadcastToStore fuel env store
                (userJoinedMessage (auth_userId a) store
                   (clock env (reads (assign sid (set_identity (auth_userId a) (Some store)) s))))
                (Some sid) Hacc _ (C_clock env _ HP3)) as [s' [Hrun HP']].
    cbn [Date_now snd] in Hrun. rewrite Hrun. simpl. eauto. }
  simpl in Halive.
  destruct (is_string type "pong").
  { cbn [Date_now].
    destruct (calm_touchLastActive c
                (assign sid (set_lastPingTime (clock env (reads (assign sid (set_isAlive true) s))))
                   (snd (Date_now env (assign sid (set_isAlive true) s)))))
      as [s' [Hrun HP']].
    - apply C_pinged. apply (C_clock env). apply (Halive s (eq_refl) eq_refl HPs).
    - cbn [Date_now snd] in Hrun. rewrite Hrun. simpl. eauto. }
  destruct (is_string type "ping"); [|simpl; eauto].
  cbn [Date_now].
  match goal with
  | |- exists st', tryCatch (sendToClient _ _ _ ?m ?s0 >>= _) _ = _ /\ _ =>
      destruct (calm_andThen (sendToClient (S fuel) env sid m) (touchLastActive c)
                  (calm_sendToClient fuel env sid m Hacc) (calm_touchLastActive c) s0)
        as [s' [Hrun HP']]
  end.
  - apply (C_clock env). apply C_pinged. apply (C_clock env).
    apply (Halive s eq_refl eq_refl HPs).
  - rewrite Hrun. simpl. eauto.
Qed.
End Calm.

(** ** The liveness timer *)

Lemma accepting_others env sid st : accepting env -> others_accept env sid st.
Proof. intros H sid' c m _ _. apply H. Qed.

Lemma map_delete_middle {V : Type} (done rest : list (string * V)) k v :
  ~ In k (keys done) -> ~ In k (keys rest) ->
  map_delete k (done ++ (k, v) :: rest) = done ++ rest.
Proof.
  intros Hd Hr. rewrite map_delete_app, (map_delete_fresh done k Hd).
  unfold map_delete at 1. cbn [filter fst]. rewrite String.eqb_refl. cbn [negb].
  fold (map_delete k rest). now rewrite (map_delete_fresh rest k Hr).
Qed.

Lemma tick_loop fuel env (Hacc : accepting env) :
  forall todo done st,
    clients st = done ++ todo ->
    NoDup (keys (done ++ todo)) ->
    exists st',
      forEach (livenessVisit (S fuel) env) (keys todo) st = ret st' /\
      clients st' = done ++ swept todo /\
      (forall e, In e (effects st) -> In e (effects st')) /\
      (forall k c, In (k, c) todo -> isAlive c = true ->
                   exists t, In (Sent (ws c) (pingMessage t)) (effects st')).
Proof.
  induction todo as [|[k c] rest IH]; intros done st Hcl Hnd.
  - exists st. simpl. rewrite app_nil_r in *. repeat split; auto.
    intros k c [].
  - assert (Hfresh : ~ In k (keys done ++ keys rest)).
    { rewrite keys_app in Hnd. simpl in Hnd. now apply NoDup_remove_2 in Hnd. }
    assert (Hkd : ~ In k (keys done)) by (intros H; apply Hfresh, in_or_app; auto).
    assert (Hkr : ~ In k (keys rest)) by (intros H; apply Hfresh, in_or_app; auto).
    assert (Hget : map_get k (clients st) = Some c).
    { rewrite Hcl, map_get_app_fresh by exact Hkd. simpl. now rewrite String.eqb_refl. }
    cbn [keys map fst forEach]. rewrite Hget. fold (keys rest).
    unfold livenessVisit at 1. destruct (isAlive c) eqn:Halive; cbn [negb].
    + cbn [Date_now]. unfold ws_send. rewrite Hacc. cbn [tryCatch ret andThen].
      match goal with
      | |- exists st', forEach _ _ ?s = _ /\ _ => set (s1 := s)
      end.
      destruct (IH (done ++ [(k, set_isAlive false c)]) s1) as [st' [Hrun [Hc [Hmono Hping]]]].
      * unfold s1. simpl. rewrite Hcl, map_update_app_fresh by exact Hkd.
        simpl. rewrite String.eqb_refl. now rewrite <- app_assoc.
      * rewrite <- app_assoc. simpl. rewrite keys_app in *. exact Hnd.
      * exists st'. split; [exact Hrun|]. split; [|split].
        -- rewrite Hc. unfold swept. simpl. rewrite Halive. simpl.
           now rewrite <- app_assoc.
        -- intros e He. apply Hmono. unfold s1. simpl. apply in_or_app. now left.
        -- intros k' c' [Heq|Hin] Hal; [|now apply (Hping k' c')].
           injection Heq as <- <-.
           eexists. apply Hmono. unfold s1. simpl. apply in_or_app. right. now left.
    + destruct (handleDisconnection_calm fuel env k st) as [s1 [Hrun1 [Hc1 He1]]].
      * now rewrite Hcl.
      * now apply accepting_others.
      * rewrite Hrun1, andThen_ret.
        destruct (IH done s1) as [st' [Hrun [Hc [Hmono Hping]]]].
        -- rewrite Hc1, Hcl. now apply map_delete_middle.
        -- rewrite keys_app in *. simpl in Hnd. now apply NoDup_remove_1 in Hnd.
        -- exists st'. split; [exact Hrun|]. split; [|split].
           ++ rewrite Hc. unfold swept. simpl. now rewrite Halive.
           ++ intros e He. apply Hmono. rewrite He1. apply in_or_app. now left.
           ++ intros k' c' [Heq|Hin] Hal; [|now apply (Hping k' c')].
              injection Heq as <- <-. congruence.
Qed.

Lemma livenessTick_calm fuel env st :
  accepting env -> NoDup (keys (clients st)) ->
  exists st',
    livenessTick (S fuel) env st = ret st' /\
    clients st' = swept (clients st) /\
    (forall k c, In (k, c) (clients st) -> isAlive c = true ->
                 exists t, In (Sent (ws c) (pingMessage t)) (effects st')).
Proof.
  intros Hacc Hnd.
  destruct (tick_loop fuel env Hacc (clients st) [] st eq_refl Hnd)
    as [st' [Hrun [Hc [_ Hping]]]].
  exists st'. repeat split; assumption.
Qed.

Lemma keys_swept m k : In k (keys (swept m)) -> In k (keys m).
Proof.
  induction m as [|[k0 v0] m IH]; simpl; [tauto|].
  unfold swept. simpl. destruct (isAlive v0); simpl.
  - intros [H|H]; [now left | right; now apply IH].
  - intros H. right. now apply IH.
Qed.

Lemma map_get_swept m sid c :
  NoDup (keys m) -> map_get sid m = Some c ->
  map_get sid (swept m) = if isAlive c then Some (set_isAlive false c) else None.
Proof.
  induction m as [|[k v] m IH]; simpl; [discriminate|].
  intros Hnd Hget. apply NoDup_cons_iff in Hnd as [Hnotin Hnd].
  unfold swept. simpl.
  destruct (String.eqb_spec k sid) as [->|Hne].
  - injection Hget as ->. destruct (isAlive c); simpl.
    + now rewrite String.eqb_refl.
    + apply map_get_not_key. intros H. apply Hnotin. now apply keys_swept.
  - apply String.eqb_neq in Hne. destruct (isAlive v); simpl.
    + rewrite Hne. now apply IH.
    + now apply IH.
Qed.

Lemma suspect_same_clients sid w0 st st' :
  clients st' = clients st -> suspect sid w0 st -> suspect sid w0 st'.
Proof. unfold suspect, registry_ok. now intros ->. Qed.

Lemma suspect_assign sid w0 k f st :
  (forall c, ws (f c) = ws c) -> (forall c, sessionId (f c) = sessionId c) ->
  (k = sid -> forall c, isAlive (f c) = isAlive c) ->
  suspect sid w0 st -> suspect sid w0 (assign k f st).
Proof.
  intros Hw Hid Hal [Hok [c [Hget [Hws Hdead]]]]. split.
  - now apply registry_ok_assign.
  - simpl. rewrite map_get_update.
    destruct (String.eqb_spec k sid) as [Heq|Hne].
    + rewrite Hget. simpl. exists (f c). rewrite Hw, (Hal Heq). auto.
    + exists c. auto.
Qed.

Lemma frames_keep_suspect fuel sid w0 :
  forall frames st,
    Forall (no_signal_from w0) frames ->
    suspect sid w0 st ->
    exists st', deliver_frames (S fuel) frames st = ret st' /\ suspect sid w0 st'.
Proof.
  induction frames as [|[[env w] message] frames IH]; intros st Hall Hs.
  - exists st. split; [reflexivity | exact Hs].
  - apply Forall_cons_iff in Hall as [[Hacc Hquiet] Hall]. simpl in Hacc, Hquiet.
    cbn [deliver_frames].
    destruct (calm_handleWebSocketMessage (suspect sid w0)) with
      (fuel := fuel) (env := env) (w := w) (message := message) (st := st)
      as [s1 [Hrun HP1]].
    + intros e s. now apply suspect_same_clients.
    + intros e s. now apply suspect_same_clients.
    + intros k t s. now apply suspect_assign.
    + intros k t s. now apply suspect_assign.
    + intros k u x s. now apply suspect_assign.
    + exact Hacc.
    + intros k s Hfind Hsig Hsus.
      apply suspect_assign; auto.
      intros ->. exfalso.
      destruct Hquiet as [Hw|Hno]; [|congruence].
      destruct Hs as [[Hk _] [c [Hget [Hws _]]]].
      apply find_ws_Some in Hfind as [c' [Hin Hw']].
      apply (In_map_get _ _ _ Hk) in Hin. congruence.
    + exact Hs.
    + rewrite Hrun, andThen_ret. now apply IH.
Qed.

(** On transports that accept every send, the timer does what it is meant
    to: a registered connection that is alive when a liveness tick fires is
    pinged by that tick and stays registered, marked [isAlive = false]; if
    no [pong] and no [ping] frame arrives on its transport before the
    following tick (whatever other frames arrive meanwhile), it is still
    registered when that tick fires and is gone from the registry when that
    tick returns.  Transports accept every send throughout. *)
Theorem unanswered_ping_evicted_next_tick fuel env1 env2 frames st sid c
    (Hok : registry_ok st)
    (Hin : In (sid, c) (clients st))
    (Halive : isAlive c = true)
    (Hacc1 : accepting env1)
    (Hacc2 : accepting env2)
    (Hquiet : Forall (no_signal_from (ws c)) frames) :
  exists st1 st2 st3 c2 t,
    livenessTick (S fuel) env1 st = ret st1 /\
    In (Sent (ws c) (pingMessage t)) (effects st1) /\
    map_get sid (clients st1) = Some (set_isAlive false c) /\
    deliver_frames (S fuel) frames st1 = ret st2 /\
    map_get sid (clients st2) = Some c2 /\ ws c2 = ws c /\ isAlive c2 = false /\
    livenessTick (S fuel) env2 st2 = ret st3 /\
    map_get sid (clients st3) = None.
Proof.
  pose proof Hok as [Hk _].
  destruct (livenessTick_calm fuel env1 st Hacc1 Hk) as [st1 [Hrun1 [Hc1 Hping]]].
  destruct (Hping sid c Hin Halive) as [t Hsent].
  assert (Hget1 : map_get sid (clients st1) = Some (set_isAlive false c)).
  { rewrite Hc1, (map_get_swept _ sid c Hk (In_map_get _ _ _ Hk Hin)).
    now rewrite Halive. }
  assert (Hok1 : registry_ok st1).
  { exact (handle_keeps_registry_ok (S fuel) env1 Tick st (Returned st1) I Hok Hrun1). }
  assert (Hsus : suspect sid (ws c) st1).
  { split; [exact Hok1|]. exists (set_isAlive false c). auto. }
  destruct (frames_keep_suspect fuel sid (ws c) frames st1 Hquiet Hsus)
    as [st2 [Hrun2 [Hok2 [c2 [Hget2 [Hws2 Hdead2]]]]]].
  pose proof Hok2 as [Hk2 _].
  destruct (livenessTick_calm fuel env2 st2 Hacc2 Hk2) as [st3 [Hrun3 [Hc3 _]]].
  exists st1, st2, st3, c2, t.
  repeat (split; [assumption|]).
  rewrite Hc3, (map_get_swept _ sid c2 Hk2 Hget2). now rewrite Hdead2.
Qed.

Lemma unanswered_ping_evicted_next_tick_witness :
  exists st1 st2 st3 c2 t,
    livenessTick 1 env_open shop = ret st1 /\
    In (Sent 1 (pingMessage t)) (effects st1) /\
    map_get "a" (clients st1) = Some (set_isAlive false alice) /\
    deliver_frames 1 idle_frames st1 = ret st2 /\
    map_get "a" (clients st2) = Some c2 /\ ws c2 = 1 /\ isAlive c2 = false /\
    livenessTick 1 env_open st2 = ret st3 /\
    map_get "a" (clients st3) = None.
Proof.
  assert (Hin : In ("a", alice) (clients shop)) by (simpl; auto).
  assert (Hacc : accepting env_open) by (intros h m; reflexivity).
  assert (Hquiet : Forall (no_signal_from (ws alice)) idle_frames).
  { constructor; [split; [exact Hacc | left; discriminate]|].
    constructor; [split; [exact Hacc | right; reflexivity]|].
    constructor. }
  exact (unanswered_ping_evicted_next_tick 0 env_open env_open idle_frames shop "a" alice
           shop_ok Hin eq_refl Hacc Hacc Hquiet).
Defined.

(** ** Reachable states *)

Lemma reach_ret admissible fuel env ev st st' :
  reachable admissible st -> admissible ev st ->
  handle fuel env ev st = ret st' -> reachable admissible st'.
Proof.
  intros Hr Ha H. change st' with (state_of (Returned st')).
  now apply (reach_step admissible fuel env ev st).
Qed.

Lemma after_open_reachable admissible :
  admissible (Open "s1" 1) initial -> reachable admissible after_open.
Proof.
  intros Ha.
  apply (reach_ret admissible 1 env_open (Open "s1" 1) initial);
    [constructor | exact Ha | reflexivity].
Qed.



(** ** Identity *)

Lemma half_identified_reachable : reachable fresh_transport half_identified.
Proof.
  apply (reach_ret fresh_transport 1 env_open (Frame 1 userOnly) after_open);
    [|exact I|reflexivity].
  apply after_open_reachable. simpl. tauto.
Qed.

(** C5, as claimed, fails: an [authenticate] frame with a [userId] and no
    [storeId] leaves a registered connection with the one and not the
    other. *)
Lemma identity_not_always_paired :
  ~ (forall st, reachable fresh_transport st -> identity_paired st).
Proof.
  intros H.
  destruct (H half_identified half_identified_reachable "s1"
              (mkClient 1 (Some "u1") None "s1" true 0 2 0)) as [_ Habs].
  - simpl. auto.
  - discriminate (Habs eq_refl).
Qed.

Lemma identity_paired_same_clients st st' :
  clients st' = clients st -> identity_paired st -> identity_paired st'.
Proof. unfold identity_paired. now intros ->. Qed.

Lemma identity_paired_assign sid f st :
  (forall c, paired (userId c) (storeId c) -> paired (userId (f c)) (storeId (f c))) ->
  identity_paired st -> identity_paired (assign sid f st).
Proof.
  intros Hf HP k c Hin. simpl in Hin.
  destruct (In_update _ _ _ _ Hin) as [H|[v [H Heq]]].
  - now apply (HP k).
  - injection Heq as -> ->. apply Hf. now apply (HP sid).
Qed.

Lemma handle_keeps_identity_paired fuel env ev st r :
  paired_authenticate ev st -> identity_paired st ->
  handle fuel env ev st = Some r -> identity_paired (state_of r).
Proof.
  intros Hadm HP H.
  refine (preserves_handle identity_paired _ _ _ _ _ _ _ _ fuel env ev st r _ _ HP H).
  - intros h m s. now apply identity_paired_same_clients.
  - intros h m s. now apply identity_paired_same_clients.
  - intros u s. now apply identity_paired_same_clients.
  - intros e s. now apply identity_paired_same_clients.
  - intros sid s HPs k c Hin. simpl in Hin. apply In_delete in Hin as [Hin _].
    now apply (HPs k).
  - intros sid b s. now apply identity_paired_assign.
  - intros sid t s. now apply identity_paired_assign.
  - intros sid t s. now apply identity_paired_assign.
  - intros sessionId w -> now k c Hin. simpl in Hin.
    destruct (In_set_inv _ _ _ _ Hin) as [Heq|Hin'].
    + injection Heq as -> ->. simpl. unfold paired. tauto.
    + now apply (HP k).
  - intros w type a sid s -> Hauth HPs. apply identity_paired_assign; [|exact HPs].
    intros c _. simpl. now apply Hadm.
Qed.

Lemma authenticate_stores_identity fuel env st sid c type a :
  registry_ok st -> In (sid, c) (clients st) -> sid <> "" ->
  is_string type "authenticate" = true ->
  accepting env ->
  exists st',
    handleWebSocketMessage (S fuel) env (ws c) (Some (PValue type (Some a))) st = ret st' /\
    map_get sid (clients st')
      = Some (set_identity (auth_userId a) (auth_storeId a)
                (set_lastActiveTime (clock env (reads st)) c)).
Proof.
  intros Hok Hin Hsid Hauth Hacc.
  destruct (router_resolves st sid c Hok Hin) as [Hfind Hget].
  destruct Hok as [Hk _].
  apply String.eqb_neq in Hsid.
  unfold handleWebSocketMessage. rewrite Hfind, Hsid, Hget.
  cbn [Date_now]. unfold dispatch. rewrite Hauth. unfold authenticateClient.
  set (t := clock env (reads st)).
  set (s1 := assign sid (set_lastActiveTime t) _).
  assert (Hget1 : map_get sid (clients s1) = Some (set_lastActiveTime t c)).
  { unfold s1. simpl. now rewrite map_get_update, String.eqb_refl, Hget. }
  assert (Hk1 : NoDup (keys (clients s1))).
  { unfold s1. simpl. now rewrite keys_update. }
  clearbody s1. rewrite Hget1.
  set (s2 := assign sid (set_identity (auth_userId a) (auth_storeId a)) s1).
  assert (Hget2 : map_get sid (clients s2)
                  = Some (set_identity (auth_userId a) (auth_storeId a)
                            (set_lastActiveTime t c))).
  { unfold s2. simpl. now rewrite map_get_update, String.eqb_refl, Hget1. }
  destruct (auth_storeId a) as [store|] eqn:Hstore;
    [|exists s2; split; [reflexivity | exact Hget2]].
  destruct (truthy (Some store));
    [|exists s2; split; [reflexivity | exact Hget2]].
  cbn [Date_now].
  rewrite broadcastToStore_accepted.
  - eexists. split; [reflexivity|]. exact Hget2.
  - unfold s2. simpl. now rewrite keys_update.
  - intros sid' c' _ _. apply Hacc.
Qed.

(** C5, amended.  As long as every [authenticate] frame carries both a
    [userId] and a [storeId], or neither, every connection of every
    reachable registry has both or neither; and an [authenticate] frame of a
    registered connection stores the [userId] and the [storeId] it carries,
    whichever are present, in that connection. *)
Theorem identity_follows_authenticate :
  (forall st, reachable paired_authenticate st -> identity_paired st) /\
  (forall fuel env st sid c a,
      registry_ok st -> In (sid, c) (clients st) -> sid <> "" -> accepting env ->
      exists st' c',
        handleWebSocketMessage (S fuel) env (ws c)
          (Some (PValue (Some "authenticate") (Some a))) st = ret st' /\
        map_get sid (clients st') = Some c' /\
        userId c' = auth_userId a /\ storeId c' = auth_storeId a).
Proof.
  split.
  - intros st Hreach. induction Hreach as [|fuel env ev st r _ IH Hadm Hrun].
    + intros sid c [].
    + exact (handle_keeps_identity_paired fuel env ev st r Hadm IH Hrun).
  - intros fuel env st sid c a Hok Hin Hsid Hacc.
    destruct (authenticate_stores_identity fuel env st sid c (Some "authenticate") a
                Hok Hin Hsid eq_refl Hacc) as [st' [Hrun Hget]].
    exists st'. eexists. split; [exact Hrun|]. split; [exact Hget|]. split; reflexivity.
Qed.

Lemma identity_follows_authenticate_witness :
  identity_paired after_open /\
  exists st' c',
    handleWebSocketMessage 1 env_open 1 userOnly after_open = ret st' /\
    map_get "s1" (clients st') = Some c' /\
    userId c' = Some "u1" /\ storeId c' = None.
Proof.
  split.
  - apply (proj1 identity_follows_authenticate).
    apply after_open_reachable. exact I.
  - assert (Hok : registry_ok after_open).
    { repeat split; try (repeat constructor; simpl; tauto).
      intros sid c [H|[]]. now injection H as <- <-. }
    assert (Hin : In ("s1", mkClient 1 None None "s1" true 0 0 0) (clients after_open))
      by (simpl; auto).
    assert (Hne : "s1" <> "") by discriminate.
    assert (Hacc : accepting env_open) by (intros h m; reflexivity).
    exact (proj2 identity_follows_authenticate 0 env_open after_open "s1" _
             (mkAuth (Some "u1") None) Hok Hin Hne Hacc).
Defined.

(** ** Removal and the transport *)

Lemma closes_log e st :
  closes (log e st) = closes st ++ match e with Closed h => [h] | _ => [] end.
Proof. unfold closes, log. simpl. rewrite flat_map_app. simpl. now rewrite app_nil_r. Qed.

Lemma closes_log_all_closed hs st :
  closes (log_all (map Closed hs) st) = closes st ++ hs.
Proof.
  unfold closes, log_all. simpl. rewrite flat_map_app. f_equal.
  induction hs as [|h hs IH]; simpl; [reflexivity|]. now rewrite IH.
Qed.

Lemma handle_never_closes fuel env ev st r :
  handle fuel env ev st = Some r -> closes (state_of r) = closes st.
Proof.
  intros H.
  refine (preserves_handle (fun s => closes s = closes st)
            _ _ _ _ _ _ _ _ fuel env ev st r _ _ eq_refl H).
  - intros h m s Hs. now rewrite closes_log, app_nil_r.
  - intros h m s Hs. now rewrite closes_log, app_nil_r.
  - intros u s Hs. now rewrite closes_log, app_nil_r.
  - intros e s Hs. exact Hs.
  - intros sid s Hs. exact Hs.
  - intros sid b s Hs. exact Hs.
  - intros sid t s Hs. exact Hs.
  - intros sid t s Hs. exact Hs.
  - intros sessionId w _. reflexivity.
  - intros w type a sid s _ _ Hs. exact Hs.
Qed.

Lemma handleDisconnection_never_closes fuel env sid st r :
  handleDisconnection fuel env sid st = Some r -> closes (state_of r) = closes st.
Proof.
  intros H.
  refine (preserves_handleDisconnection (fun s => closes s = closes st)
            _ _ _ _ fuel env sid st r eq_refl H).
  - intros h m s Hs. now rewrite closes_log, app_nil_r.
  - intros h m s Hs. now rewrite closes_log, app_nil_r.
  - intros e s Hs. exact Hs.
  - intros k s Hs. exact Hs.
Qed.

Lemma map_get_None_not_key {V : Type} (m : list (string * V)) k :
  map_get k m = None -> ~ In k (keys m).
Proof.
  intros Hget Hin. destruct (map_get_key m k Hin) as [v Hv]. congruence.
Qed.

Lemma handleDisconnection_absent fuel env sid st :
  map_get sid (clients st) = None ->
  handleDisconnection fuel env sid st = ret st.
Proof.
  intros Hget. unfold handleDisconnection, handleDisconnection_with.
  rewrite Hget, andThen_ret. unfold with_clients.
  rewrite (map_delete_fresh _ _ (map_get_None_not_key _ _ Hget)).
  now destruct st.
Qed.

Lemma cleanup_loop env (Hquiet : forall h, closeThrows env h = false) :
  forall todo st,
    (forall k c, In (k, c) todo -> map_get k (clients st) = Some c) ->
    forEach (fun _ client st' => ws_close env (ws client) st') (keys todo) st
    = ret (log_all (map Closed (transports todo)) st).
Proof.
  induction todo as [|[k c] todo IH]; intros st Hget.
  - simpl. now rewrite log_all_nil.
  - cbn [keys map fst forEach]. rewrite (Hget k c (or_introl eq_refl)).
    unfold ws_close at 1. rewrite Hquiet, andThen_ret. fold (keys todo).
    rewrite IH.
    + cbn [transports map snd].
      change (log (Closed (ws c)) st) with (log_all [Closed (ws c)] st).
      now rewrite log_all_all.
    + intros k' c' Hin. simpl. apply Hget. now right.
Qed.

Lemma cleanup_closes_registered env st :
  (forall h, closeThrows env h = false) ->
  NoDup (keys (clients st)) ->
  exists st',
    cleanup env st = ret st' /\ clients st' = [] /\
    closes st' = closes st ++ transports (clients st).
Proof.
  intros Hquiet Hk. unfold cleanup, clients_forEach.
  rewrite (cleanup_loop env Hquiet (clients st) st).
  - rewrite andThen_ret. eexists. split; [reflexivity|]. split; [reflexivity|].
    apply (closes_log_all_closed (transports (clients st)) st).
  - intros k c Hin. now apply In_map_get.
Qed.

(** The close handler removes the connection and closes nothing (there
    the runtime has closed the transport already). *)
Lemma removal_does_not_close :
  ~ (forall fuel env w st sid c st',
        findSessionIdByWebSocket w st = Some sid ->
        map_get sid (clients st) = Some c ->
        handleWebSocketClose (S fuel) env w st = ret st' ->
        map_get sid (clients st') = None /\ In (Closed (ws c)) (effects st')).
Proof.
  intros H.
  destruct (H 0 env_open 1 after_open "s1" (mkClient 1 None None "s1" true 0 0 0)
              (mkState [] [Sent 1 (welcomeMessage 1)] 2) eq_refl eq_refl eq_refl)
    as [_ [Habs|[]]].
  discriminate Habs.
Qed.

(** Removing a connection deletes its registry entry and closes no
    transport: [handleDisconnection] returns with the entry gone
    and the list of closed transports as it was (the other connections
    accepting the [user_left] notification); removing an absent session
    changes nothing; no entry point of the manager other than [cleanup]
    (open, frame, close, liveness tick, sends) ever closes a transport; and
    [cleanup] closes the transport of each registered connection once and
    empties the registry. *)
Theorem removal_leaves_transport_open :
  (forall fuel env sid st,
      NoDup (keys (clients st)) -> others_accept env sid st ->
      exists st',
        handleDisconnection (S fuel) env sid st = ret st' /\
        map_get sid (clients st') = None /\
        clients st' = map_delete sid (clients st) /\
        closes st' = closes st) /\
  (forall fuel env sid st,
      map_get sid (clients st) = None ->
      handleDisconnection fuel env sid st = ret st) /\
  (forall fuel env ev st r,
      handle fuel env ev st = Some r -> closes (state_of r) = closes st) /\
  (forall env st,
      (forall h, closeThrows env h = false) ->
      NoDup (keys (clients st)) ->
      exists st',
        cleanup env st = ret st' /\ clients st' = [] /\
        closes st' = closes st ++ transports (clients st)).
Proof.
  split; [|split; [|split]].
  - intros fuel env sid st Hk Hcalm.
    destruct (handleDisconnection_calm fuel env sid st Hk Hcalm) as [st' [Hrun [Hc _]]].
    exists st'. split; [exact Hrun|]. split; [|split; [exact Hc|]].
    + rewrite Hc, map_get_delete. now rewrite String.eqb_refl.
    + exact (handleDisconnection_never_closes (S fuel) env sid st (Returned st') Hrun).
  - exact handleDisconnection_absent.
  - exact handle_never_closes.
  - exact cleanup_closes_registered.
Qed.

Lemma removal_leaves_transport_open_witness :
  (exists st',
      handleDisconnection 1 env_open "a" shop = ret st' /\
      map_get "a" (clients st') = None /\
      clients st' = map_delete "a" (clients shop) /\
      closes st' = closes shop) /\
  handleDisconnection 0 env_open "zz" shop = ret shop /\
  (exists st',
      cleanup env_open shop = ret st' /\ clients st' = [] /\
      closes st' = closes shop ++ transports (clients shop)).
Proof.
  destruct removal_leaves_transport_open as [Hremove [Habsent [_ Hcleanup]]].
  split; [|split].
  - apply Hremove; [exact shop_keys|]. intros sid' c m _ _. reflexivity.
  - apply Habsent. reflexivity.
  - apply Hcleanup; [intros h; reflexivity | exact shop_keys].
Defined.

Lemma find_ws_swept_fresh m w : ~ In w (transports m) -> find_ws w (swept m) = None.
Proof.
  induction m as [|[k v] m IH]; [reflexivity|].
  cbn [transports map snd]. intros H. unfold swept. cbn [filter snd].
  assert (Hrest : find_ws w (swept m) = None) by (apply IH; intros Hin; apply H; now right).
  destruct (isAlive v); [|exact Hrest].
  cbn [map fst snd find_ws ws set_isAlive].
  destruct (Nat.eqb_spec (ws v) w) as [Heq|_]; [|exact Hrest].
  exfalso. apply H. now left.
Qed.

Lemma find_ws_swept_dead m sid c :
  NoDup (transports m) -> In (sid, c) m -> isAlive c = false ->
  find_ws (ws c) (swept m) = None.
Proof.
  induction m as [|[k v] m IH]; [intros _ []|].
  cbn [transports map snd]. intros Hnd Hin Hdead.
  apply NoDup_cons_iff in Hnd as [Hfresh Hnd].
  destruct Hin as [Heq|Hin].
  - injection Heq as -> ->. unfold swept. cbn [filter snd]. rewrite Hdead.
    now apply find_ws_swept_fresh.
  - assert (Hrest : find_ws (ws c) (swept m) = None) by now apply IH.
    unfold swept. cbn [filter snd]. destruct (isAlive v); [|exact Hrest].
    cbn [map fst snd find_ws ws set_isAlive].
    destruct (Nat.eqb_spec (ws v) (ws c)) as [Heq|_]; [|exact Hrest].
    exfalso. apply Hfresh. rewrite Heq. unfold transports. apply in_map_iff.
    exists (sid, c). split; [reflexivity | exact Hin].
Qed.

Lemma pinged_shop_ok : registry_ok pinged_shop.
Proof.
  repeat split.
  - exact shop_keys.
  - repeat constructor; simpl; intuition discriminate.
  - intros sid c Hin. simpl in Hin.
    repeat (destruct Hin as [Hin|Hin]; [injection Hin as <- <-; reflexivity|]).
    destruct Hin.
Qed.

(** C3.  The removal the liveness timer performs, announced in the log as
    [Terminating inactive connection]: a registered connection that is not
    alive when the tick fires is out of the registry when the tick returns
    and its transport no longer resolves to a session, so every frame that
    still arrives on it is dropped; yet the manager has closed no transport,
    the list of closed transports is what it was before the tick.
    [ws.close()] is called by [cleanup] alone. *)
Theorem eviction_closes_no_transport fuel env st sid c
    (Hok : registry_ok st)
    (Hin : In (sid, c) (clients st))
    (Hdead : isAlive c = false)
    (Hacc : accepting env) :
  exists st',
    livenessTick (S fuel) env st = ret st' /\
    map_get sid (clients st') = None /\
    findSessionIdByWebSocket (ws c) st' = None /\
    closes st' = closes st /\
    (forall fuel' env' message,
        handleWebSocketMessage fuel' env' (ws c) message st' = ret st').
Proof.
  destruct Hok as [Hk [Ht _]].
  destruct (livenessTick_calm fuel env st Hacc Hk) as [st' [Hrun [Hc _]]].
  assert (Hfind : findSessionIdByWebSocket (ws c) st' = None).
  { unfold findSessionIdByWebSocket. rewrite Hc. now apply (find_ws_swept_dead _ sid). }
  exists st'. split; [exact Hrun|]. split; [|split; [exact Hfind|split]].
  - rewrite Hc, (map_get_swept _ sid c Hk (In_map_get _ _ _ Hk Hin)). now rewrite Hdead.
  - exact (handle_never_closes (S fuel) env Tick st (Returned st') Hrun).
  - intros fuel' env' message. unfold handleWebSocketMessage. now rewrite Hfind.
Qed.

Lemma eviction_closes_no_transport_witness :
  exists st',
    livenessTick 1 env_open pinged_shop = ret st' /\
    map_get "c" (clients st') = None /\
    findSessionIdByWebSocket 3 st' = None /\
    closes st' = [] /\
    handleWebSocketMessage 1 env_open 3 pongFrame st' = ret st'.
Proof.
  assert (Hin : In ("c", set_isAlive false carol) (clients pinged_shop))
    by (simpl; auto).
  destruct (eviction_closes_no_transport 0 env_open pinged_shop "c"
              (set_isAlive false carol) pinged_shop_ok Hin eq_refl
              (fun _ _ => eq_refl))
    as [st' [Hrun [Hgone [Hfind [Hcl Hdrop]]]]].
  exists st'. split; [exact Hrun|]. split; [exact Hgone|]. split; [exact Hfind|].
  split; [exact Hcl | exact (Hdrop 1 env_open pongFrame)].
Defined.

(** ** Two failing transports in one store

    [handleDisconnection] notifies the store before it deletes the entry.
    When two open transports of one store both throw on [send], each
    eviction sends to the other connection, whose failure evicts it, which
    sends to the first again: the call chain has no end, whatever the fuel. *)
Lemma mutual_eviction_never_returns :
  forall fuel m st,
    clients st = clients shop ->
    sendToClient fuel env_all_broken "a" m st = None /\
    sendToClient fuel env_all_broken "b" m st = None.
Proof.
  induction fuel as [|n IH]; intros m st Hcl; [split; reflexivity|].
  destruct st as [cl es rd]. simpl in Hcl. subst cl.
  split; cbn; unfold handleDisconnection_with, broadcastToStore_with, clients_forEach; cbn.
  - match goal with
    | |- context [sendToClient n env_all_broken "b" ?m' ?s] =>
        now rewrite (proj2 (IH m' s eq_refl))
    end.
  - match goal with
    | |- context [sendToClient n env_all_broken "a" ?m' ?s] =>
        now rewrite (proj1 (IH m' s eq_refl))
    end.
Qed.

(** ** Every entry point returns on accepting transports *)

Lemma guarded_send_returns fuel env m (test : string -> ClientConnection -> bool) :
  accepting env ->
  forall st, exists st',
    clients_forEach
      (fun sid client s => if test sid client
                           then sendToClient (S fuel) env sid m s else ret s) st
    = ret st'.
Proof.
  intros Hacc st.
  destruct (calm_forEach (fun _ => True)
              (fun sid client s => if test sid client
                                   then sendToClient (S fuel) env sid m s else ret s))
    with (ks := keys (clients st)) (st := st) as [st' [Hrun _]].
  - intros k c s _. destruct (test k c); [|exists s; split; [reflexivity | exact I]].
    now apply (calm_sendToClient (fun _ => True)).
  - exact I.
  - now exists st'.
Qed.

Lemma handle_returns_when_accepting fuel env ev st :
  accepting env -> NoDup (keys (clients st)) ->
  exists st', handle (S fuel) env ev st = ret st'.
Proof.
  intros Hacc Hk. destruct ev as [sessionId w|w message|w| |sid m|user m|store m|m ex|store m ex].
  - unfold handle, handleWebSocketUpgrade. cbn [Date_now].
    match goal with
    | |- exists st', sendToClient _ _ _ ?m ?s = _ =>
        destruct (calm_sendToClient (fun _ => True) (fun _ _ _ => I)
                    fuel env sessionId m Hacc s I) as [st' [Hrun _]]
    end.
    now exists st'.
  - destruct (calm_handleWebSocketMessage (fun _ => True)) with
      (fuel := fuel) (env := env) (w := w) (message := message) (st := st)
      as [st' [Hrun _]]; auto.
    now exists st'.
  - unfold handle, handleWebSocketClose.
    destruct (findSessionIdByWebSocket w st) as [sid|]; [|now exists st].
    destruct (sid =? ""); [now exists st|].
    destruct (handleDisconnection_calm fuel env sid st Hk (accepting_others env sid st Hacc))
      as [st' [Hrun _]].
    now exists st'.
  - destruct (livenessTick_calm fuel env st Hacc Hk) as [st' [Hrun _]].
    now exists st'.
  - destruct (calm_sendToClient (fun _ => True) (fun _ _ _ => I)
                fuel env sid m Hacc st I) as [st' [Hrun _]].
    now exists st'.
  - exact (guarded_send_returns fuel env m
             (fun _ client => is_string (userId client) user && is_open env client) Hacc st).
  - exact (guarded_send_returns fuel env m
             (fun _ client => is_string (storeId client) store && is_open env client) Hacc st).
  - exact (guarded_send_returns fuel env m
             (fun sid client => differs sid ex && is_open env client) Hacc st).
  - exact (guarded_send_returns fuel env m (store_target env store ex) Hacc st).
Qed.

(** ** Scenarios *)

(** Two connections of store [s1], one of [s2], one unauthenticated: an
    event for [s2] reaches the transport of [carol] only. *)
Example broadcast_reaches_its_store_only :
  broadcastToStore 1 env_open "s2" orderCreated None shop
  = ret (log (Sent 3 orderCreated) shop).
Proof. reflexivity. Qed.

(** A send that throws evicts the connection and tells the rest of its
    store. *)
Example broken_transport_is_evicted :
  sendToClient 2 env_broken "a" orderCreated shop
  = ret (mkState [("b", bob); ("c", carol); ("g", guest)]
                 [SendFailed 1 orderCreated;
                  Sent 2 (userLeftMessage (Some "u1") (Some "s1") 0)]
                 1).
Proof. reflexivity. Qed.

(** Nobody answers the pings of the first tick: the second tick empties the
    registry. *)
Example silent_registry_is_emptied :
  option_map (fun r => clients (state_of r))
    (livenessTick 1 env_open shop >>= livenessTick 1 env_open)
  = Some [].
Proof. reflexivity. Qed.

(** A [pong] between the two ticks keeps the connection. *)
Example pong_survives_the_tick :
  option_map (fun r => keys (clients (state_of r)))
    (livenessTick 1 env_open shop
       >>= handleWebSocketMessage 1 env_open 3 (Some (PValue (Some "pong") None))
       >>= livenessTick 1 env_open)
  = Some ["c"].
Proof. reflexivity. Qed.

(** An [authenticate] frame without [data] throws inside the router, which
    catches it: only [lastActiveTime] has moved. *)
Example authenticate_without_data :
  handleWebSocketMessage 1 env_open 4 (Some (PValue (Some "authenticate") None))
    (mkState [("g", guest)] [] 5)
  = ret (mkState [("g", set_lastActiveTime 5 guest)] [] 6).
Proof. reflexivity. Qed.

Example stats_of_the_shop :
  fst (getStats env_closed shop)
  = mkStats 4 0 [("s1", 2%Z); ("s2", 1%Z)] (0 # 4).
Proof. reflexivity. Qed.

(** * Further properties *)

(** ** The other senders *)

Lemma guarded_loop fuel env message (test : string -> ClientConnection -> bool) :
  (forall sid c, test sid c = true -> is_open env c = true) ->
  forall (todo : list (string * ClientConnection)) (st : State),
    (forall sid c, In (sid, c) todo -> map_get sid (clients st) = Some c) ->
    (forall sid c, In (sid, c) todo -> test sid c = true ->
                   sendThrows env (ws c) message = false) ->
    forEach (fun sid client st' =>
               if test sid client
               then sendToClient (S fuel) env sid message st'
               else ret st')
            (keys todo) st
    = ret (log_all (deliveries message (selected test todo)) st).
Proof.
  intros Hopen. induction todo as [|[sid c] todo IH]; intros st Hget Hcalm.
  - simpl. now rewrite log_all_nil.
  - cbn [keys map fst forEach].
    pose proof (Hget sid c (or_introl eq_refl)) as Hhere.
    rewrite Hhere. unfold selected. cbn [filter fst snd]. fold (keys todo).
    destruct (test sid c) eqn:Ht.
    + rewrite (sendToClient_accepted fuel env sid message st c Hhere (Hopen sid c Ht)
                 (Hcalm sid c (or_introl eq_refl) Ht)).
      rewrite andThen_ret, IH.
      * cbn [deliveries map snd].
        change (log (Sent (ws c) message) st) with (log_all [Sent (ws c) message] st).
        now rewrite log_all_all.
      * intros sid' c' Hin. simpl. apply Hget. now right.
      * intros sid' c' Hin. apply Hcalm. now right.
    + rewrite andThen_ret. apply IH.
      * intros sid' c' Hin. apply Hget. now right.
      * intros sid' c' Hin. apply Hcalm. now right.
Qed.

Lemma guarded_send_accepted fuel env message test st :
  (forall sid c, test sid c = true -> is_open env c = true) ->
  NoDup (keys (clients st)) ->
  targets_accept env test message st ->
  clients_forEach (fun sid client st' =>
                     if test sid client
                     then sendToClient (S fuel) env sid message st'
                     else ret st') st
  = ret (log_all (deliveries message (selected test (clients st))) st).
Proof.
  intros Hopen Hk Hacc. unfold clients_forEach.
  apply guarded_loop; [exact Hopen | | exact Hacc].
  intros sid c Hin. now apply In_map_get.
Qed.

Lemma user_target_spec env user sid c :
  user_target env user sid c = true <->
  userId c = Some user /\ readyState env (ws c) = 1%Z.
Proof.
  unfold user_target, is_string, is_open. rewrite andb_true_iff, Z.eqb_eq.
  destruct (userId c) as [u|].
  - rewrite String.eqb_eq. split; intros [H1 H2]; split; congruence.
  - split; intros [H1 H2]; discriminate.
Qed.

Lemma all_target_spec env exclude sid c :
  all_target env exclude sid c = true <->
  exclude <> Some sid /\ readyState env (ws c) = 1%Z.
Proof.
  unfold all_target, differs, is_string, is_open.
  rewrite andb_true_iff, negb_true_iff, Z.eqb_eq.
  destruct exclude as [x|].
  - rewrite String.eqb_neq. split; intros [H1 H2]; split; congruence.
  - split; intros [H1 H2]; split; congruence.
Qed.

(** X1.  [sendToUser]: when the transports it selects accept the frame, the
    call returns, leaves the registry as it was, and hands the message once
    to each registered connection whose [userId] is the given one and whose
    transport is open, in registry order, and to no other; a connection
    that never authenticated is not among them. *)
Theorem sendToUser_delivery fuel env user message st
    (Hkeys : NoDup (keys (clients st)))
    (Haccept : targets_accept env (user_target env user) message st) :
  exists st',
    sendToUser (S fuel) env user message st = ret st' /\
    clients st' = clients st /\
    effects st' =
      effects st ++ deliveries message (selected (user_target env user) (clients st)) /\
    (forall sid c,
        In (sid, c) (selected (user_target env user) (clients st)) <->
        In (sid, c) (clients st) /\ userId c = Some user /\
        readyState env (ws c) = 1%Z) /\
    (forall sid c, userId c = None ->
                   ~ In (sid, c) (selected (user_target env user) (clients st))).
Proof.
  assert (Hsel : forall sid c,
             In (sid, c) (selected (user_target env user) (clients st)) <->
             In (sid, c) (clients st) /\ userId c = Some user /\
             readyState env (ws c) = 1%Z).
  { intros sid c. unfold selected. rewrite filter_In. cbn [fst snd].
    now rewrite user_target_spec. }
  exists (log_all (deliveries message (selected (user_target env user) (clients st))) st).
  split; [|split; [reflexivity|split; [reflexivity|split; [exact Hsel|]]]].
  - unfold sendToUser.
    apply (guarded_send_accepted fuel env message (user_target env user) st);
      [|exact Hkeys|exact Haccept].
    intros sid c Ht. unfold user_target in Ht. now apply andb_true_iff in Ht as [_ Ho].
  - intros sid c Hnone Hin. apply Hsel in Hin as [_ [Hu _]]. congruence.
Qed.

Lemma sendToUser_delivery_witness :
  exists st',
    sendToUser 1 env_open "u2" orderCreated shop = ret st' /\
    effects st' = [Sent 2 orderCreated].
Proof.
  destruct (sendToUser_delivery 0 env_open "u2" orderCreated shop shop_keys
              (fun _ _ _ _ => eq_refl)) as [st' [Hrun [_ [Heff _]]]].
  exists st'. split; [exact Hrun | exact Heff].
Defined.

(** X3.  [broadcast]: when the transports it selects accept the frame, the
    call returns, leaves the registry as it was, and hands the message once
    to every registered connection with an open transport other than the
    excluded session, authenticated or not, in registry order. *)
Theorem broadcast_delivery fuel env message exclude st
    (Hkeys : NoDup (keys (clients st)))
    (Haccept : targets_accept env (all_target env exclude) message st) :
  exists st',
    broadcast (S fuel) env message exclude st = ret st' /\
    clients st' = clients st /\
    effects st' =
      effects st ++ deliveries message (selected (all_target env exclude) (clients st)) /\
    (forall sid c,
        In (sid, c) (selected (all_target env exclude) (clients st)) <->
        In (sid, c) (clients st) /\ exclude <> Some sid /\
        readyState env (ws c) = 1%Z).
Proof.
  exists (log_all (deliveries message (selected (all_target env exclude) (clients st))) st).
  split; [|split; [reflexivity|split; [reflexivity|]]].
  - unfold broadcast.
    apply (guarded_send_accepted fuel env message (all_target env exclude) st);
      [|exact Hkeys|exact Haccept].
    intros sid c Ht. unfold all_target in Ht. now apply andb_true_iff in Ht as [_ Ho].
  - intros sid c. unfold selected. rewrite filter_In. cbn [fst snd].
    now rewrite all_target_spec.
Qed.

Lemma broadcast_delivery_witness :
  exists st',
    broadcast 1 env_open orderCreated (Some "b") shop = ret st' /\
    effects st' = [Sent 1 orderCreated; Sent 3 orderCreated; Sent 4 orderCreated].
Proof.
  destruct (broadcast_delivery 0 env_open orderCreated (Some "b") shop shop_keys
              (fun _ _ _ _ => eq_refl)) as [st' [Hrun [_ [Heff _]]]].
  exists st'. split; [exact Hrun | exact Heff].
Defined.

Lemma forEach_ext visit1 visit2 :
  (forall k c s, visit1 k c s = visit2 k c s) ->
  forall ks st, forEach visit1 ks st = forEach visit2 ks st.
Proof.
  intros Hv. induction ks as [|k ks IH]; intros st; simpl; [reflexivity|].
  destruct (map_get k (clients st)) as [c|]; [|apply IH].
  rewrite Hv. unfold andThen. destruct (visit2 k c st) as [[s|s]|]; auto.
Qed.

(** [sendToStore] is [broadcastToStore] with nobody excluded. *)
Lemma sendToStore_as_broadcast fuel env store message st :
  sendToStore fuel env store message st
  = broadcastToStore fuel env store message None st.
Proof.
  unfold sendToStore, broadcastToStore, broadcastToStore_with, clients_forEach.
  apply forEach_ext. intros k c s. unfold store_target, differs. simpl.
  now rewrite andb_true_r.
Qed.

Lemma sendToStore_confined fuel env store message st r e :
  sendToStore fuel env store message st = Some r ->
  In e (effects (state_of r)) ->
  In e (effects st) \/ within_store store (clients st) e.
Proof.
  rewrite sendToStore_as_broadcast. intros Hrun He.
  assert (HI : confined store (clients st) (effects st) st).
  { split; [apply incl_refl | auto]. }
  destruct (confined_broadcastToStore env store (clients st) (effects st)
              fuel message None st r HI Hrun) as [_ Heff].
  now apply Heff.
Qed.

Lemma sendToStore_accepted fuel env store message st :
  NoDup (keys (clients st)) ->
  accepting env ->
  sendToStore (S fuel) env store message st
  = ret (log_all (deliveries message (recipients env store None (clients st))) st).
Proof.
  intros Hk Hacc. rewrite sendToStore_as_broadcast.
  apply broadcastToStore_accepted; [exact Hk|]. intros sid c _ _. apply Hacc.
Qed.

(** X2.  [sendToStore]: whatever the transports do and however the call
    completes, every frame handed out during the call goes to the transport
    of a registered connection of the given store; and on accepting
    transports the call returns, leaves the registry as it was, and hands
    the message once to each open connection of the store, nobody
    excluded. *)
Theorem sendToStore_delivery env store message st
    (Hkeys : NoDup (keys (clients st))) :
  (forall fuel r e,
      sendToStore fuel env store message st = Some r ->
      In e (effects (state_of r)) ->
      In e (effects st) \/ within_store store (clients st) e) /\
  (accepting env ->
   forall fuel, exists st',
     sendToStore (S fuel) env store message st = ret st' /\
     clients st' = clients st /\
     effects st' =
       effects st ++ deliveries message (recipients env store None (clients st)) /\
     (forall sid c,
         In (sid, c) (recipients env store None (clients st)) <->
         In (sid, c) (clients st) /\ storeId c = Some store /\
         readyState env (ws c) = 1%Z)).
Proof.
  split.
  - intros fuel r e. apply sendToStore_confined.
  - intros Hacc fuel.
    exists (log_all (deliveries message (recipients env store None (clients st))) st).
    split; [now apply sendToStore_accepted|].
    split; [reflexivity|]. split; [reflexivity|].
    intros sid c. unfold recipients. rewrite filter_In. cbn [fst snd].
    rewrite store_target_spec. split; [tauto|].
    intros [H1 [H2 H3]]. repeat split; auto. discriminate.
Qed.

Lemma sendToStore_delivery_witness :
  exists st',
    sendToStore 1 env_open "s1" orderCreated shop = ret st' /\
    effects st' = [Sent 1 orderCreated; Sent 2 orderCreated].
Proof.
  destruct (proj2 (sendToStore_delivery env_open "s1" orderCreated shop shop_keys)
              (fun _ _ => eq_refl) 0) as [st' [Hrun [_ [Heff _]]]].
  exists st'. split; [exact Hrun | exact Heff].
Defined.

(** ** Typed notifications *)

Lemma storeNotice_sent type fuel env store data st :
  NoDup (keys (clients st)) -> accepting env ->
  exists st',
    (let (t, st1) := Date_now env st in
     sendToStore (S fuel) env store (storeNotice type store data t) st1) = ret st' /\
    clients st' = clients st /\
    effects st' =
      effects st ++ deliveries (storeNotice type store data (clock env (reads st)))
                               (recipients env store None (clients st)).
Proof.
  intros Hk Hacc. cbn [Date_now].
  rewrite sendToStore_accepted by assumption.
  eexists. split; [reflexivity|]. split; reflexivity.
Qed.

Lemma storeNotice_confined type fuel env store data st r e :
  (let (t, st1) := Date_now env st in
   sendToStore fuel env store (storeNotice type store data t) st1) = Some r ->
  In e (effects (state_of r)) ->
  In e (effects st) \/ within_store store (clients st) e.
Proof.
  cbn [Date_now]. intros Hrun He.
  exact (sendToStore_confined fuel env store _ _ r e Hrun He).
Qed.

(** X18.  [sendOrderUpdate], [sendOrderCreated] and [sendCustomerUpdate]:
    whatever the transports do, every frame handed out during the call goes
    to a connection of the store named by the caller; and on accepting
    transports each returns, leaves the registry as it was, and hands one
    frame of its own type ([order_updated], [order_created],
    [customer_updated]), carrying the payload, the [storeId] and the clock
    reading, to each open connection of that store. *)
Theorem store_notifications env store data st
    (Hkeys : NoDup (keys (clients st))) :
  (forall fuel r e,
      (sendOrderUpdate fuel env store data st = Some r \/
       sendOrderCreated fuel env store data st = Some r \/
       sendCustomerUpdate fuel env store data st = Some r) ->
      In e (effects (state_of r)) ->
      In e (effects st) \/ within_store store (clients st) e) /\
  (accepting env ->
   forall fuel,
     let t := clock env (reads st) in
     let members := recipients env store None (clients st) in
     (exists st',
         sendOrderUpdate (S fuel) env store data st = ret st' /\
         clients st' = clients st /\
         effects st' =
           effects st ++ deliveries (storeNotice ORDER_UPDATED store data t) members) /\
     (exists st',
         sendOrderCreated (S fuel) env store data st = ret st' /\
         clients st' = clients st /\
         effects st' =
           effects st ++ deliveries (storeNotice ORDER_CREATED store data t) members) /\
     (exists st',
         sendCustomerUpdate (S fuel) env store data st = ret st' /\
         clients st' = clients st /\
         effects st' =
           effects st ++ deliveries (storeNotice CUSTOMER_UPDATED store data t) members)).
Proof.
  split.
  - intros fuel r e [H|[H|H]] He.
    + exact (storeNotice_confined ORDER_UPDATED fuel env store data st r e H He).
    + exact (storeNotice_confined ORDER_CREATED fuel env store data st r e H He).
    + exact (storeNotice_confined CUSTOMER_UPDATED fuel env store data st r e H He).
  - intros Hacc fuel t members. split; [|split].
    + exact (storeNotice_sent ORDER_UPDATED fuel env store data st Hkeys Hacc).
    + exact (storeNotice_sent ORDER_CREATED fuel env store data st Hkeys Hacc).
    + exact (storeNotice_sent CUSTOMER_UPDATED fuel env store data st Hkeys Hacc).
Qed.

Lemma store_notifications_witness :
  exists st',
    sendOrderCreated 1 env_open "s2" (AppData 7) shop = ret st' /\
    effects st' = [Sent 3 (storeNotice ORDER_CREATED "s2" (AppData 7) 0)].
Proof.
  destruct (proj2 (store_notifications env_open "s2" (AppData 7) shop shop_keys)
              (fun _ _ => eq_refl) 0) as [_ [[st' [Hrun [_ Heff]]] _]].
  exists st'. split; [exact Hrun | exact Heff].
Defined.

(** X19.  [sendProfileUpdate]: on accepting transports the call returns,
    leaves the registry as it was, and hands one [profile_updated] frame,
    carrying the payload, the [userId] and the clock reading, to each open
    connection authenticated as that user, and to no other. *)
Theorem profile_notification fuel env user data st
    (Hkeys : NoDup (keys (clients st)))
    (Hacc : accepting env) :
  exists st',
    sendProfileUpdate (S fuel) env user data st = ret st' /\
    clients st' = clients st /\
    effects st' =
      effects st ++ deliveries (profileUpdated user data (clock env (reads st)))
                               (selected (user_target env user) (clients st)) /\
    (forall sid c,
        In (sid, c) (selected (user_target env user) (clients st)) <->
        In (sid, c) (clients st) /\ userId c = Some user /\
        readyState env (ws c) = 1%Z).
Proof.
  unfold sendProfileUpdate. cbn [Date_now]. unfold sendToUser.
  rewrite (guarded_send_accepted fuel env _ (user_target env user)).
  - eexists. split; [reflexivity|]. split; [reflexivity|]. split; [reflexivity|].
    intros sid c. unfold selected. rewrite filter_In. cbn [fst snd].
    now rewrite user_target_spec.
  - intros sid c Ht. unfold user_target in Ht. now apply andb_true_iff in Ht as [_ Ho].
  - exact Hkeys.
  - intros sid c _ _. apply Hacc.
Qed.

Lemma profile_notification_witness :
  exists st',
    sendProfileUpdate 1 env_open "u3" (AppData 1) shop = ret st' /\
    effects st' = [Sent 3 (profileUpdated "u3" (AppData 1) 0)].
Proof.
  destruct (profile_notification 0 env_open "u3" (AppData 1) shop shop_keys
              (fun _ _ => eq_refl)) as [st' [Hrun [_ [Heff _]]]].
  exists st'. split; [exact Hrun | exact Heff].
Defined.

(** ** Opening and closing a connection *)

Lemma map_get_set {V : Type} (m : list (string * V)) k k' v :
  map_get k' (map_set k v m) = if k =? k' then Some v else map_get k' m.
Proof.
  induction m as [|[k0 v0] m IH]; simpl.
  - destruct (k =? k'); reflexivity.
  - destruct (String.eqb_spec k0 k) as [->|Hne]; simpl.
    + destruct (k =? k'); reflexivity.
    + rewrite IH. destruct (String.eqb_spec k0 k') as [->|Hne'].
      * apply String.eqb_neq in Hne. rewrite String.eqb_sym in Hne.
        rewrite String.eqb_sym. now rewrite String.eqb_sym, Hne.
      * reflexivity.
Qed.

Lemma map_set_fresh {V : Type} (m : list (string * V)) k v :
  ~ In k (keys m) -> map_set k v m = m ++ [(k, v)].
Proof.
  induction m as [|[k0 v0] m IH]; simpl; [reflexivity|].
  intros H. destruct (String.eqb_spec k0 k) as [->|Hne]; [tauto|].
  f_equal. apply IH. tauto.
Qed.

Lemma map_delete_set {V : Type} (m : list (string * V)) k v :
  map_delete k (map_set k v m) = map_delete k m.
Proof.
  induction m as [|[k0 v0] m IH]; simpl.
  - now rewrite String.eqb_refl.
  - destruct (String.eqb_spec k0 k) as [->|Hne]; simpl.
    + now rewrite String.eqb_refl.
    + apply String.eqb_neq in Hne. rewrite Hne. simpl. f_equal. apply IH.
Qed.

Lemma find_ws_fresh m w : ~ In w (transports m) -> find_ws w m = None.
Proof.
  induction m as [|[k v] m IH]; simpl; [reflexivity|].
  intros H. destruct (Nat.eqb_spec (ws v) w); [tauto|]. apply IH. tauto.
Qed.

Lemma find_ws_last m sid c :
  ~ In (ws c) (transports m) -> find_ws (ws c) (m ++ [(sid, c)]) = Some sid.
Proof.
  induction m as [|[k v] m IH]; simpl.
  - now rewrite Nat.eqb_refl.
  - intros H. destruct (Nat.eqb_spec (ws v) (ws c)); [tauto|]. apply IH. tauto.
Qed.

Lemma transport_owner m e1 e2 :
  NoDup (transports m) -> In e1 m -> In e2 m ->
  ws (snd e1) = ws (snd e2) -> e1 = e2.
Proof.
  induction m as [|e m IH]; simpl; [tauto|].
  intros Hnd H1 H2 Hw. apply NoDup_cons_iff in Hnd as [Hfresh Hnd].
  assert (Hin : forall x, In x m -> In (ws (snd x)) (transports m)).
  { intros x Hx. unfold transports. apply in_map_iff. eauto. }
  destruct H1 as [<-|H1], H2 as [<-|H2]; auto.
  - exfalso. apply Hfresh. rewrite Hw. now apply Hin.
  - exfalso. apply Hfresh. rewrite <- Hw. now apply Hin.
Qed.

Lemma find_ws_after_delete m sid c :
  NoDup (transports m) -> In (sid, c) m ->
  find_ws (ws c) (map_delete sid m) = None.
Proof.
  intros Hnd Hin. apply find_ws_fresh. intros Hw.
  unfold transports in Hw. apply in_map_iff in Hw as [e [Hwe He]].
  apply In_delete in He as [He Hne].
  apply Hne. now rewrite (transport_owner m e (sid, c) Hnd He Hin Hwe).
Qed.

(** X4.  [handleWebSocketUpgrade] stores, under the generated session id, a
    connection that owns the transport, is alive, carries no [userId] and no
    [storeId], and has its three time stamps equal to the clock reading; no
    other session changes; a session id already in use is overwritten in
    place (the registry keeps its keys).  On an open transport that accepts
    it, one welcome frame is sent to that transport; on a transport that is
    not open, nothing is sent and the connection is registered all the
    same. *)
Theorem upgrade_registers fuel env sid w st :
  let now := clock env (reads st) in
  let t := clock env (S (reads st)) in
  let c := mkClient w None None sid true now now now in
  (sendThrows env w (welcomeMessage t) = false \/ readyState env w <> 1%Z ->
   exists st',
     handleWebSocketUpgrade (S fuel) env sid w st = ret st' /\
     clients st' = map_set sid c (clients st) /\
     map_get sid (clients st') = Some c /\
     (forall k, k <> sid -> map_get k (clients st') = map_get k (clients st)) /\
     (In sid (keys (clients st)) -> keys (clients st') = keys (clients st)) /\
     effects st' =
       effects st ++ (if (readyState env w =? 1)%Z then [Sent w (welcomeMessage t)] else [])).
Proof.
  intros now t c Hok. subst now t c.
  assert (Hget : forall c, map_get sid (map_set sid c (clients st)) = Some c).
  { intros c. now rewrite map_get_set, String.eqb_refl. }
  assert (Hrest : forall c k, k <> sid ->
                    map_get k (map_set sid c (clients st)) = map_get k (clients st)).
  { intros c k Hne. rewrite map_get_set.
    assert (H : (sid =? k) = false) by (apply String.eqb_neq; congruence).
    now rewrite H. }
  assert (Hkeys : forall c, In sid (keys (clients st)) ->
                    keys (map_set sid c (clients st)) = keys (clients st)).
  { intros c Hin. rewrite keys_set.
    assert (H : existsb (String.eqb sid) (keys (clients st)) = true).
    { apply existsb_exists. exists sid. split; [exact Hin | apply String.eqb_refl]. }
    now rewrite H. }
  unfold handleWebSocketUpgrade. cbn [Date_now].
  cbn [sendToClient with_clients clients effects reads].
  rewrite Hget. unfold is_open. cbn [ws].
  destruct (readyState env w =? 1)%Z eqn:Ho.
  - destruct Hok as [Hacc|Hclosed]; [|apply Z.eqb_eq in Ho; tauto].
    unfold ws_send. cbn [ws]. rewrite Hacc. cbn [tryCatch ret].
    eexists. split; [reflexivity|]. cbn [clients effects log]. repeat split; auto.
  - eexists. split; [reflexivity|]. cbn [clients effects]. rewrite app_nil_r.
    repeat split; auto.
Qed.

Lemma upgrade_registers_witness :
  exists st',
    handleWebSocketUpgrade 1 env_open "n" 9 shop = ret st' /\
    map_get "n" (clients st') = Some (mkClient 9 None None "n" true 0 0 0) /\
    effects st' = [Sent 9 (welcomeMessage 1)].
Proof.
  destruct (upgrade_registers 0 env_open "n" 9 shop (or_introl eq_refl))
    as [st' [Hrun [_ [Hget [_ [_ Heff]]]]]].
  exists st'. split; [exact Hrun|]. split; [exact Hget | exact Heff].
Defined.

(** X5.  When the welcome frame throws on an open transport, the connection
    just stored is deleted again before [handleWebSocketUpgrade] returns: the
    session id is not registered afterwards (an older connection under the
    same id is gone with it), nobody is notified, and this holds whatever the
    other transports do. *)
Theorem upgrade_rejected fuel env sid w st
    (Hopen : readyState env w = 1%Z)
    (Hthrows : sendThrows env w (welcomeMessage (clock env (S (reads st)))) = true) :
  exists st',
    handleWebSocketUpgrade (S fuel) env sid w st = ret st' /\
    clients st' = map_delete sid (clients st) /\
    map_get sid (clients st') = None /\
    effects st' = effects st ++ [SendFailed w (welcomeMessage (clock env (S (reads st))))].
Proof.
  assert (Hget : forall c, map_get sid (map_set sid c (clients st)) = Some c).
  { intros c. now rewrite map_get_set, String.eqb_refl. }
  unfold handleWebSocketUpgrade. cbn [Date_now].
  cbn [sendToClient with_clients clients effects reads].
  rewrite Hget. unfold is_open. cbn [ws]. rewrite Hopen. cbn [Z.eqb Pos.eqb].
  unfold ws_send. cbn [ws]. rewrite Hthrows. cbn [tryCatch throw].
  unfold handleDisconnection_with. cbn [log clients]. rewrite Hget. cbn [storeId].
  rewrite andThen_ret. eexists. split; [reflexivity|].
  cbn [with_clients clients effects log]. rewrite map_delete_set. repeat split.
  rewrite map_get_delete. now rewrite String.eqb_refl.
Qed.

Lemma upgrade_rejected_witness :
  exists st',
    handleWebSocketUpgrade 1 env_all_broken "a" 9 shop = ret st' /\
    clients st' = [("b", bob); ("c", carol); ("g", guest)] /\
    map_get "a" (clients st') = None /\
    effects st' = [SendFailed 9 (welcomeMessage 1)].
Proof.
  exact (upgrade_rejected 0 env_all_broken "a" 9 shop eq_refl eq_refl).
Defined.

Lemma upgrade_state fuel env sid w st :
  sendThrows env w (welcomeMessage (clock env (S (reads st)))) = false ->
  handleWebSocketUpgrade (S fuel) env sid w st
  = ret (mkState
           (map_set sid (mkClient w None None sid true (clock env (reads st))
                                  (clock env (reads st)) (clock env (reads st)))
                    (clients st))
           (effects st ++ (if (readyState env w =? 1)%Z
                           then [Sent w (welcomeMessage (clock env (S (reads st))))]
                           else []))
           (S (S (reads st)))).
Proof.
  intros Hacc. unfold handleWebSocketUpgrade. cbn [Date_now].
  cbn [sendToClient with_clients clients effects reads].
  rewrite map_get_set, String.eqb_refl. unfold is_open. cbn [ws].
  destruct (readyState env w =? 1)%Z.
  - unfold ws_send. cbn [ws]. rewrite Hacc. reflexivity.
  - now rewrite app_nil_r.
Qed.

Lemma find_ws_app_found m1 m2 w :
  In w (transports m1) -> find_ws w (m1 ++ m2) = find_ws w m1.
Proof.
  induction m1 as [|[k v] m1 IH]; simpl; [tauto|].
  intros [H|H].
  - apply Nat.eqb_eq in H. now rewrite H.
  - destruct (ws v =? w)%nat; [reflexivity|now apply IH].
Qed.

Lemma handleWebSocketClose_unknown fuel env w st :
  findSessionIdByWebSocket w st = None ->
  handleWebSocketClose fuel env w st = ret st.
Proof. intros H. unfold handleWebSocketClose. now rewrite H. Qed.

Lemma handleWebSocketMessage_unknown fuel env w message st :
  findSessionIdByWebSocket w st = None ->
  handleWebSocketMessage fuel env w message st = ret st.
Proof. intros H. unfold handleWebSocketMessage. now rewrite H. Qed.

(** X6.  [handleWebSocketClose] on the transport of a registered connection
    (the other connections accepting the notification): the entry is
    deleted, the frames sent are the [user_left] notices to the open
    connections of its store other than itself (none when it has no store),
    the transport no longer resolves to a session, and from then on a second
    close and any frame arriving on that transport change nothing, whatever
    the transports do. *)
Theorem close_removes fuel env st sid c
    (Hok : registry_ok st)
    (Hin : In (sid, c) (clients st))
    (Hsid : sid <> "")
    (Hcalm : others_accept env sid st) :
  exists st',
    handleWebSocketClose (S fuel) env (ws c) st = ret st' /\
    clients st' = map_delete sid (clients st) /\
    effects st' = effects st ++ departure_notices env sid st /\
    (storeId c = None -> effects st' = effects st) /\
    findSessionIdByWebSocket (ws c) st' = None /\
    (forall fuel' env', handleWebSocketClose fuel' env' (ws c) st' = ret st') /\
    (forall fuel' env' message,
        handleWebSocketMessage fuel' env' (ws c) message st' = ret st').
Proof.
  destruct (router_resolves st sid c Hok Hin) as [Hfind Hget].
  destruct Hok as [Hk [Ht _]].
  destruct (handleDisconnection_calm fuel env sid st Hk Hcalm) as [st' [Hrun [Hc He]]].
  assert (Hgone : findSessionIdByWebSocket (ws c) st' = None).
  { unfold findSessionIdByWebSocket. rewrite Hc. now apply find_ws_after_delete. }
  exists st'. split; [|split; [exact Hc|split; [exact He|split; [|split; [exact Hgone|split]]]]].
  - unfold handleWebSocketClose. rewrite Hfind.
    apply String.eqb_neq in Hsid. now rewrite Hsid.
  - intros Hnone. rewrite He. unfold departure_notices. rewrite Hget, Hnone.
    apply app_nil_r.
  - intros fuel' env'. now apply handleWebSocketClose_unknown.
  - intros fuel' env' message. now apply handleWebSocketMessage_unknown.
Qed.

Lemma close_removes_witness :
  exists st',
    handleWebSocketClose 1 env_open 2 shop = ret st' /\
    clients st' = [("a", alice); ("c", carol); ("g", guest)] /\
    effects st' = [Sent 1 (userLeftMessage (Some "u2") (Some "s1") 0)] /\
    findSessionIdByWebSocket 2 st' = None.
Proof.
  assert (Hin : In ("b", bob) (clients shop)) by (simpl; auto).
  assert (Hne : "b" <> "") by discriminate.
  destruct (close_removes 0 env_open shop "b" bob shop_ok Hin Hne
              (fun _ _ _ _ _ => eq_refl))
    as [st' [Hrun [Hc [He [_ [Hgone _]]]]]].
  exists st'. split; [exact Hrun|]. split; [exact Hc|]. split; [exact He | exact Hgone].
Defined.

(** X7.  Open, look up, close.  After [handleWebSocketUpgrade] on a
    transport the registry does not hold, under a session id that is new and
    not empty, the reverse lookup of that transport yields the new session
    id and the lookups of the transports already registered are unchanged;
    [handleWebSocketClose] on it then returns, whatever the transports do
    and with any fuel, and leaves the registry exactly as it was before the
    open, the transport resolving to no session. *)
Theorem open_lookup_close fuel fuel' env env' sid w st
    (Hw : ~ In w (transports (clients st)))
    (Hk : ~ In sid (keys (clients st)))
    (Hsid : sid <> "")
    (Hwelcome : sendThrows env w (welcomeMessage (clock env (S (reads st)))) = false) :
  exists st1 st2,
    handleWebSocketUpgrade (S fuel) env sid w st = ret st1 /\
    findSessionIdByWebSocket w st1 = Some sid /\
    (forall w', In w' (transports (clients st)) ->
                findSessionIdByWebSocket w' st1 = findSessionIdByWebSocket w' st) /\
    handleWebSocketClose fuel' env' w st1 = ret st2 /\
    clients st2 = clients st /\
    effects st2 = effects st1 /\
    findSessionIdByWebSocket w st2 = None.
Proof.
  set (c := mkClient w None None sid true (clock env (reads st))
                     (clock env (reads st)) (clock env (reads st))).
  eexists. eexists.
  split; [apply (upgrade_state fuel env sid w st Hwelcome)|].
  fold c. rewrite (map_set_fresh _ sid c Hk).
  assert (Hfind : find_ws w (clients st ++ [(sid, c)]) = Some sid).
  { exact (find_ws_last (clients st) sid c Hw). }
  split; [exact Hfind|]. split.
  { intros w' Hin. unfold findSessionIdByWebSocket. cbn [clients].
    now apply find_ws_app_found. }
  unfold handleWebSocketClose, findSessionIdByWebSocket. cbn [clients]. rewrite Hfind.
  apply String.eqb_neq in Hsid. rewrite Hsid.
  unfold handleDisconnection, handleDisconnection_with. cbn [clients].
  rewrite (map_get_app_fresh _ _ _ Hk). cbn [map_get]. rewrite String.eqb_refl.
  cbn [storeId c]. rewrite andThen_ret. unfold with_clients. cbn [clients effects reads].
  rewrite (map_delete_middle (clients st) [] sid c Hk (fun H => H)), app_nil_r.
  split; [reflexivity|]. split; [reflexivity|]. split; [reflexivity|].
  cbn [clients]. now apply find_ws_fresh.
Qed.

Lemma open_lookup_close_witness :
  exists st1 st2,
    handleWebSocketUpgrade 1 env_open "n" 9 shop = ret st1 /\
    findSessionIdByWebSocket 9 st1 = Some "n" /\
    handleWebSocketClose 0 env_all_broken 9 st1 = ret st2 /\
    clients st2 = clients shop /\
    findSessionIdByWebSocket 9 st2 = None.
Proof.
  assert (Hw : ~ In 9 (transports (clients shop))) by (simpl; intuition discriminate).
  assert (Hk : ~ In "n" (keys (clients shop))) by (simpl; intuition discriminate).
  assert (Hne : "n" <> "") by discriminate.
  destruct (open_lookup_close 0 0 env_open env_all_broken "n" 9 shop Hw Hk Hne eq_refl)
    as [st1 [st2 [H1 [H2 [_ [H3 [H4 [_ H5]]]]]]]].
  exists st1, st2. repeat (split; [assumption|]). assumption.
Defined.

(** ** Statistics of a registry *)

Lemma countStores_fold m : countStores m = fold_left tallyStore m [].
Proof. reflexivity. Qed.

Lemma bump_get store x counts :
  map_get store (bump x counts)
  = if x =? store
    then Some (match map_get store counts with Some n => n | None => 0%Z end + 1)%Z
    else map_get store counts.
Proof.
  unfold bump. rewrite map_get_set.
  destruct (String.eqb_spec x store) as [->|Hne]; [|reflexivity].
  destruct (map_get store counts) as [n|]; [|reflexivity].
  destruct (Z.eqb_spec n 0) as [->|]; reflexivity.
Qed.

Lemma tally_get store (Hstore : store <> "") :
  forall m counts,
    map_get store (fold_left tallyStore m counts)
    = counted (map_get store counts) (List.length (members store m)).
Proof.
  induction m as [|e m IH]; intros counts; [reflexivity|].
  cbn [fold_left]. rewrite IH.
  assert (Hlen : List.length (members store (e :: m))
                 = if is_string (storeId (snd e)) store
                   then S (List.length (members store m))
                   else List.length (members store m)).
  { unfold members. cbn [filter].
    now destruct (is_string (storeId (snd e)) store). }
  rewrite Hlen. clear Hlen IH.
  generalize (List.length (members store m)). intros k.
  unfold tallyStore, is_string, truthy.
  destruct (storeId (snd e)) as [x|]; [|reflexivity].
  destruct (String.eqb_spec x "") as [->|Hx]; cbn [negb].
  - assert (H : ("" =? store) = false) by (apply String.eqb_neq; congruence).
    now rewrite H.
  - rewrite bump_get. destruct (String.eqb_spec x store) as [->|Hne]; [|reflexivity].
    destruct k as [|k]; unfold counted.
    + reflexivity.
    + f_equal. destruct (map_get store counts); lia.
Qed.

Lemma tally_get_empty :
  forall m counts,
    map_get "" (fold_left tallyStore m counts) = map_get "" counts.
Proof.
  induction m as [|e m IH]; intros counts; [reflexivity|].
  cbn [fold_left]. rewrite IH. unfold tallyStore, truthy.
  destruct (storeId (snd e)) as [x|]; [|reflexivity].
  destruct (String.eqb_spec x "") as [->|Hx]; cbn [negb]; [reflexivity|].
  rewrite bump_get. apply String.eqb_neq in Hx. now rewrite Hx.
Qed.

Lemma tally_keys :
  forall m counts,
    NoDup (keys counts) -> NoDup (keys (fold_left tallyStore m counts)).
Proof.
  induction m as [|e m IH]; intros counts Hnd; [exact Hnd|].
  cbn [fold_left]. apply IH. unfold tallyStore.
  destruct (storeId (snd e)) as [x|]; [|exact Hnd].
  destruct (truthy (Some x)); [|exact Hnd].
  unfold bump. now apply NoDup_keys_set.
Qed.

Lemma filter_all_length {A : Type} (p : A -> bool) (l : list A) :
  List.length (filter p l) = List.length l <-> forall x, In x l -> p x = true.
Proof.
  induction l as [|a l IH]; simpl; [tauto|].
  pose proof (filter_length_le p l) as Hle.
  destruct (p a) eqn:Hp; simpl.
  - split.
    + intros H x [<-|Hx]; [exact Hp|]. apply IH; [lia | exact Hx].
    + intros H. f_equal. apply IH. auto.
  - split; [lia|]. intros H. specialize (H a (or_introl eq_refl)). congruence.
Qed.

(** X8.  [getStats] counts: [totalConnections] is the size of the
    registry; [activeConnections] is the number of connections whose
    transport is open, never more than the total and equal to it exactly
    when every transport is open; [storeConnections] has one entry per store
    that has at least one connection, holding the number of connections of
    that store (open or not), no store twice, and no entry for a store nobody
    is in or for the empty store id. *)
Theorem stats_counts env st :
  let stats := fst (getStats env st) in
  totalConnections stats = List.length (clients st) /\
  activeConnections stats
    = List.length (filter (fun e => is_open env (snd e)) (clients st)) /\
  activeConnections stats <= totalConnections stats /\
  (activeConnections stats = totalConnections stats <->
   forall sid c, In (sid, c) (clients st) -> readyState env (ws c) = 1%Z) /\
  (forall store, store <> "" ->
     map_get store (storeConnections stats)
     = match List.length (members store (clients st)) with
       | O => None
       | S k => Some (Z.of_nat (S k))
       end) /\
  map_get "" (storeConnections stats) = None /\
  NoDup (keys (storeConnections stats)).
Proof.
  cbn [getStats Date_now fst clients totalConnections activeConnections storeConnections].
  split; [reflexivity|]. split; [reflexivity|]. split; [apply filter_length_le|].
  split; [|split; [|split]].
  - rewrite filter_all_length. split.
    + intros H sid c Hin. apply Z.eqb_eq. exact (H (sid, c) Hin).
    + intros H [sid c] Hin. apply Z.eqb_eq. exact (H sid c Hin).
  - intros store Hstore. rewrite countStores_fold, (tally_get store Hstore).
    destruct (List.length (members store (clients st))); reflexivity.
  - rewrite countStores_fold. apply tally_get_empty.
  - rewrite countStores_fold. apply tally_keys. constructor.
Qed.

(** ** Shutdown *)

Lemma forEach_app visit ks1 :
  forall ks2 st,
    forEach visit (ks1 ++ ks2) st = forEach visit ks1 st >>= forEach visit ks2.
Proof.
  induction ks1 as [|k ks1 IH]; intros ks2 st; [reflexivity|].
  cbn [app forEach]. destruct (map_get k (clients st)) as [c|]; [|apply IH].
  unfold andThen at 1 3. destruct (visit k c st) as [[s|s]|]; [apply IH | |]; reflexivity.
Qed.

Lemma cleanup_on_empty env st :
  clients st = [] -> cleanup env st = ret st.
Proof.
  intros H. unfold cleanup, clients_forEach. rewrite H. simpl.
  unfold with_clients. destruct st as [cl es rd]. simpl in H. now subst cl.
Qed.

(** X10.  [cleanup], when no [close] throws: the call returns with the
    registry empty, and a second [cleanup] then returns in the same state:
    it closes nothing again and throws nothing, whatever the transports
    have become. *)
Theorem cleanup_twice env env' st
    (Hquiet : forall h, closeThrows env h = false)
    (Hkeys : NoDup (keys (clients st))) :
  exists st',
    cleanup env st = ret st' /\
    clients st' = [] /\
    cleanup env' st' = ret st' /\
    closes st' = closes st ++ transports (clients st).
Proof.
  destruct (cleanup_closes_registered env st Hquiet Hkeys) as [st' [Hrun [Hc Hcl]]].
  exists st'. split; [exact Hrun|]. split; [exact Hc|]. split; [|exact Hcl].
  now apply cleanup_on_empty.
Qed.

Lemma cleanup_twice_witness :
  exists st',
    cleanup env_open shop = ret st' /\
    clients st' = [] /\
    cleanup env_stuck_close st' = ret st' /\
    closes st' = closes shop ++ transports (clients shop).
Proof.
  exact (cleanup_twice env_open env_stuck_close shop (fun _ => eq_refl) shop_keys).
Defined.

(** X11.  [cleanup] when a [close] throws: the exception leaves [cleanup];
    the transports registered before the failing one have been closed, in
    registry order, the failing one and those after it have not, and the
    registry is not emptied: every connection is still registered. *)
Theorem cleanup_stops_at_failure env st before sid c after
    (Hkeys : NoDup (keys (clients st)))
    (Hsplit : clients st = before ++ (sid, c) :: after)
    (Hbefore : forall e, In e before -> closeThrows env (ws (snd e)) = false)
    (Hthrows : closeThrows env (ws c) = true) :
  exists st',
    cleanup env st = throw st' /\
    clients st' = clients st /\
    closes st' = closes st ++ transports before.
Proof.
  exists (log_all (map Closed (transports before)) st).
  split; [|split; [reflexivity | apply closes_log_all_closed]].
  unfold cleanup, clients_forEach. rewrite Hsplit, keys_app, forEach_app.
  assert (Hloop : forEach (fun _ client st' => ws_close env (ws client) st')
                    (keys before) st
                  = ret (log_all (map Closed (transports before)) st)).
  { clear Hthrows.
    assert (Hget : forall k v, In (k, v) before -> map_get k (clients st) = Some v).
    { intros k v Hin. apply In_map_get; [exact Hkeys|].
      rewrite Hsplit. apply in_or_app. now left. }
    clear Hsplit Hkeys. revert st Hget.
    induction before as [|[k v] before IH]; intros st Hget.
    - simpl. now rewrite log_all_nil.
    - cbn [keys map fst forEach]. rewrite (Hget k v (or_introl eq_refl)).
      pose proof (Hbefore (k, v) (or_introl eq_refl)) as Hq. cbn [snd] in Hq.
      unfold ws_close at 1. rewrite Hq, andThen_ret. fold (keys before). rewrite IH.
      + cbn [transports map snd].
        change (log (Closed (ws v)) st) with (log_all [Closed (ws v)] st).
        now rewrite log_all_all.
      + intros e He. apply Hbefore. now right.
      + intros k' v' Hin. simpl. apply Hget. now right. }
  rewrite Hloop, andThen_ret. cbn [keys map fst forEach log_all clients].
  assert (Hhere : map_get sid (clients st) = Some c).
  { apply In_map_get; [exact Hkeys|]. rewrite Hsplit. apply in_or_app. right. now left. }
  rewrite Hhere. unfold ws_close. now rewrite Hthrows.
Qed.

Lemma cleanup_stops_at_failure_witness :
  exists st',
    cleanup env_stuck_close shop = throw st' /\
    clients st' = clients shop /\
    closes st' = [1].
Proof.
  apply (cleanup_stops_at_failure env_stuck_close shop [("a", alice)] "b" bob
           [("c", carol); ("g", guest)] shop_keys eq_refl); [|reflexivity].
  intros e [<-|[]]. reflexivity.
Defined.

(** ** One failing transport is contained *)

Section OneFailing.
Variables (env : Env) (sid : string).

Local Notation "'Contained'" := (one_failing env sid).

Lemma of_same_clients st st' :
  clients st' = clients st -> Contained st -> Contained st'.
Proof. unfold one_failing, others_accept. now intros ->. Qed.

Lemma of_delete k st : Contained st -> Contained (with_clients (map_delete k) st).
Proof.
  intros [Hk Ho]. split; simpl.
  - now apply NoDup_keys_delete.
  - intros sid' c m Hin Hne. apply In_delete in Hin as [Hin _]. now apply (Ho sid' c).
Qed.

Lemma of_assign k f st :
  (forall c, ws (f c) = ws c) -> Contained st -> Contained (assign k f st).
Proof.
  intros Hw [Hk Ho]. split; simpl.
  - now rewrite keys_update.
  - intros sid' c m Hin Hne. destruct (In_update _ _ _ _ Hin) as [H|[v [H Heq]]].
    + now apply (Ho sid' c).
    + injection Heq as -> ->. rewrite Hw. now apply (Ho k v).
Qed.

Lemma send_contained n k m :
  returns_keeping Contained (sendToClient (S (S n)) env k m).
Proof.
  intros st HC. pose proof HC as [Hk Ho].
  destruct (map_get k (clients st)) as [c|] eqn:Hget.
  2:{ exists st. split; [now apply sendToClient_absent | exact HC]. }
  destruct (is_open env c) eqn:Hopen.
  2:{ exists st. split; [now apply (sendToClient_not_open _ _ _ _ _ c) | exact HC]. }
  destruct (sendThrows env (ws c) m) eqn:Hthrows.
  - assert (Heq : k = sid).
    { destruct (String.eqb_spec k sid) as [|Hne]; [assumption|].
      rewrite (Ho k c m (map_get_In _ _ _ Hget) Hne) in Hthrows. discriminate. }
    subst k.
    destruct (sendToClient_rejected n env sid m st c Hk Hget Hopen Hthrows Ho)
      as [st' [Hrun [Hc _]]].
    exists st'. split; [exact Hrun|].
    apply (of_same_clients (with_clients (map_delete sid) st)); [exact Hc|].
    now apply of_delete.
  - exists (log (Sent (ws c) m) st).
    split; [now apply sendToClient_accepted|]. now apply (of_same_clients st).
Qed.

Lemma loop_contained n (test : string -> ClientConnection -> bool) m :
  returns_keeping Contained
    (clients_forEach (fun k client s => if test k client
                                        then sendToClient (S (S n)) env k m s else ret s)).
Proof.
  intros st HC. unfold clients_forEach.
  apply (calm_forEach Contained); [|exact HC].
  intros k c s HCs. destruct (test k c); [|eauto].
  now apply send_contained.
Qed.

Lemma disconnect_contained n k :
  returns_keeping Contained (handleDisconnection (S (S n)) env k).
Proof.
  intros st HC. unfold handleDisconnection, handleDisconnection_with.
  assert (Hbody : exists s,
             match map_get k (clients st) with
             | Some client =>
                 match storeId client with
                 | Some store =>
                     if truthy (storeId client) then
                       let (t, st1) := Date_now env st in
                       broadcastToStore_with (sendToClient (S (S n)) env) env store
                         (userLeftMessage (userId client) (storeId client) t) (Some k) st1
                     else ret st
                 | None => ret st
                 end
             | None => ret st
             end = ret s /\ Contained s).
  { destruct (map_get k (clients st)) as [c|]; [|eauto].
    destruct (storeId c) as [store|]; [|eauto].
    destruct (truthy (Some store)); [|eauto].
    cbn [Date_now]. unfold broadcastToStore_with.
    apply (loop_contained n (store_target env store (Some k))).
    now apply (of_same_clients st). }
  destruct Hbody as [s [-> HCs]]. rewrite andThen_ret.
  eexists. split; [reflexivity|]. now apply of_delete.
Qed.

Lemma visit_contained n k c :
  returns_keeping Contained (livenessVisit (S (S n)) env k c).
Proof.
  intros st HC. unfold livenessVisit. destruct (isAlive c); cbn [negb].
  - assert (HC1 : Contained (assign k (set_isAlive false) st))
      by (apply of_assign; [reflexivity | exact HC]).
    cbn [Date_now]. unfold ws_send.
    destruct (sendThrows env (ws c) _); cbn [tryCatch throw ret].
    + apply disconnect_contained.
      now apply (of_same_clients (assign k (set_isAlive false) st)).
    + eexists. split; [reflexivity|].
      now apply (of_same_clients (assign k (set_isAlive false) st)).
  - now apply disconnect_contained.
Qed.

Lemma touch_contained c : returns_keeping Contained (touchLastActive c).
Proof.
  apply calm_touchLastActive. intros e st. now apply of_same_clients.
Qed.

Lemma frame_contained n w message :
  returns_keeping Contained (handleWebSocketMessage (S (S n)) env w message).
Proof.
  intros st HC. unfold handleWebSocketMessage.
  destruct (findSessionIdByWebSocket w st) as [k|]; [|eauto].
  destruct (k =? ""); [eauto|].
  destruct message as [parsed|]; [|simpl; eauto].
  destruct (map_get k (clients st)) as [c|]; [|simpl; eauto].
  cbn [Date_now].
  assert (HC2 : Contained (assign k (set_lastActiveTime (clock env (reads st)))
                             (mkState (clients st) (effects st) (S (reads st))))).
  { apply of_assign; [reflexivity|]. now apply (of_same_clients st). }
  revert HC2. generalize (assign k (set_lastActiveTime (clock env (reads st)))
                            (mkState (clients st) (effects st) (S (reads st)))).
  intros s HCs. unfold dispatch.
  destruct parsed as [|type data]; [simpl; eauto|].
  destruct (is_string type "authenticate").
  { unfold authenticateClient.
    destruct (map_get k (clients s)) as [c'|]; [|simpl; eauto].
    destruct data as [a|]; [|simpl; eauto].
    assert (HC3 : Contained (assign k (set_identity (auth_userId a) (auth_storeId a)) s))
      by (apply of_assign; [reflexivity | exact HCs]).
    destruct (auth_storeId a) as [store|]; [|simpl; eauto].
    destruct (truthy (Some store)); [|simpl; eauto].
    cbn [Date_now]. unfold broadcastToStore, broadcastToStore_with.
    match goal with
    | |- exists st', tryCatch (clients_forEach _ ?s0) _ = _ /\ _ =>
        destruct (loop_contained n (store_target env store (Some k))
                    (userJoinedMessage (auth_userId a) store
                       (clock env (reads (assign k (set_identity (auth_userId a) (Some store)) s))))
                    s0) as [s' [Hrun HC']]
    end.
    - now apply (of_same_clients (assign k (set_identity (auth_userId a) (Some store)) s)).
    - rewrite Hrun. simpl. eauto. }
  assert (HCa : forall s0, Contained s0 -> Contained (assign k (set_isAlive true) s0))
    by (intros s0; apply of_assign; reflexivity).
  assert (HCp : forall t s0, Contained s0 -> Contained (assign k (set_lastPingTime t) s0))
    by (intros t s0; apply of_assign; reflexivity).
  assert (HCc : forall s0, Contained s0 -> Contained (snd (Date_now env s0)))
    by (intros s0; now apply of_same_clients).
  destruct (is_string type "pong").
  { cbn [Date_now].
    destruct (touch_contained c
                (assign k (set_lastPingTime (clock env (reads (assign k (set_isAlive true) s))))
                   (snd (Date_now env (assign k (set_isAlive true) s)))))
      as [s' [Hrun HC']].
    - apply HCp, HCc, HCa, HCs.
    - cbn [Date_now snd] in Hrun. rewrite Hrun. simpl. eauto. }
  destruct (is_string type "ping"); [|simpl; eauto].
  cbn [Date_now].
  match goal with
  | |- exists st', tryCatch (sendToClient _ _ _ ?m ?s0 >>= _) _ = _ /\ _ =>
      destruct (calm_andThen Contained (sendToClient (S (S n)) env k m) (touchLastActive c)
                  (send_contained n k m) (touch_contained c) s0)
        as [s' [Hrun HC']]
  end.
  - apply (HCc _). apply HCp. apply (HCc _). apply HCa. exact HCs.
  - rewrite Hrun. simpl. eauto.
Qed.

Lemma open_returns n sessionId w st :
  exists st', handleWebSocketUpgrade (S n) env sessionId w st = ret st'.
Proof.
  unfold handleWebSocketUpgrade. cbn [Date_now].
  cbn [sendToClient with_clients clients effects reads].
  rewrite map_get_set, String.eqb_refl. unfold is_open. cbn [ws].
  destruct (readyState env w =? 1)%Z; [|eauto].
  unfold ws_send. cbn [ws].
  destruct (sendThrows env w _); cbn [tryCatch throw ret]; [|eauto].
  unfold handleDisconnection_with. cbn [log clients].
  rewrite map_get_set, String.eqb_refl. cbn [storeId].
  rewrite andThen_ret. eauto.
Qed.
End OneFailing.

(** X12.  When at most one registered session has a transport that throws
    on [send] (every other registered transport accepts every frame), every
    call of [handleWebSocketUpgrade], [handleWebSocketMessage],
    [handleWebSocketClose], the liveness callback, [sendToClient],
    [sendToUser], [sendToStore], [broadcast] and [broadcastToStore] returns:
    it ends, and no exception reaches the caller, whatever the frame holds.
    The failure of the one transport is caught and answered by the eviction
    of its session, whose notices the others accept.  After any call but an
    open, the registry is again a map in which at most that session
    fails. *)
Theorem one_failing_transport_is_contained fuel env sid ev st
    (Hkeys : NoDup (keys (clients st)))
    (Hothers : others_accept env sid st) :
  exists st',
    handle (S (S fuel)) env ev st = ret st' /\
    (~ opens ev -> NoDup (keys (clients st')) /\ others_accept env sid st').
Proof.
  assert (HC : one_failing env sid st) by (split; assumption).
  assert (Hwrap : forall f, returns_keeping (one_failing env sid) f ->
                            exists st', f st = ret st' /\
                                        (~ opens ev -> NoDup (keys (clients st')) /\
                                                       others_accept env sid st')).
  { intros f Hf. destruct (Hf st HC) as [st' [Hrun HC']]. exists st'. now split. }
  destruct ev as [sessionId w|w message|w| |k m|user m|store m|m ex|store m ex];
    cbn [handle].
  - destruct (open_returns env (S fuel) sessionId w st) as [st' Hrun].
    exists st'. split; [exact Hrun|]. intros H. exfalso. exact (H I).
  - apply Hwrap. apply frame_contained.
  - apply Hwrap. intros s HCs. unfold handleWebSocketClose.
    destruct (findSessionIdByWebSocket w s) as [k|]; [|eauto].
    destruct (k =? ""); [eauto|]. now apply disconnect_contained.
  - apply Hwrap. intros s HCs. unfold livenessTick, clients_forEach.
    apply (calm_forEach (one_failing env sid)); [|exact HCs].
    intros k c. apply visit_contained.
  - apply Hwrap. apply send_contained.
  - apply Hwrap. unfold sendToUser.
    apply (loop_contained env sid fuel
             (fun _ client => is_string (userId client) user && is_open env client)).
  - apply Hwrap. unfold sendToStore.
    apply (loop_contained env sid fuel
             (fun _ client => is_string (storeId client) store && is_open env client)).
  - apply Hwrap. unfold broadcast.
    apply (loop_contained env sid fuel (fun k client => differs k ex && is_open env client)).
  - apply Hwrap. unfold broadcastToStore, broadcastToStore_with.
    apply (loop_contained env sid fuel (store_target env store ex)).
Qed.

Lemma one_failing_transport_is_contained_witness :
  exists st',
    handle 2 env_broken (ToStore "s1" orderCreated) shop = ret st' /\
    (~ opens (ToStore "s1" orderCreated) ->
     NoDup (keys (clients st')) /\ others_accept env_broken "a" st').
Proof.
  apply (one_failing_transport_is_contained 0 env_broken "a" (ToStore "s1" orderCreated) shop
           shop_keys).
  intros sid' c m Hin Hne. simpl in Hin.
  destruct Hin as [Hin|Hin]; [injection Hin as <- <-; congruence|].
  repeat (destruct Hin as [Hin|Hin]; [injection Hin as <- <-; reflexivity|]).
  destruct Hin.
Defined.

(** ** What the calls never add *)

Lemma incl_keys_delete (m0 : list string) sid st :
  incl (keys (clients st)) m0 ->
  incl (keys (clients (with_clients (map_delete sid) st))) m0.
Proof.
  intros H k Hk. simpl in Hk. rewrite keys_delete in Hk.
  apply filter_In in Hk as [Hk _]. now apply H.
Qed.

Lemma incl_keys_assign (m0 : list string) sid f st :
  incl (keys (clients st)) m0 -> incl (keys (clients (assign sid f st))) m0.
Proof. intros H. simpl. now rewrite keys_update. Qed.

Lemma incl_clients_delete (m0 : list (string * ClientConnection)) sid st :
  incl (clients st) m0 -> incl (clients (with_clients (map_delete sid) st)) m0.
Proof.
  intros H e He. simpl in He. apply In_delete in He as [He _]. now apply H.
Qed.

(** X13.  Only [handleWebSocketUpgrade] adds a session: after any other
    call (frame, close, liveness tick, any sender), with any transports,
    every registered session id was registered before.  And the close
    handler and the senders do not touch the connections they leave: every
    entry of the registry after the call is an entry of the registry before
    it, field for field. *)
Theorem registry_grows_only_on_open fuel env ev st r
    (Hrun : handle fuel env ev st = Some r) :
  (~ opens ev -> incl (keys (clients (state_of r))) (keys (clients st))) /\
  (sends_or_closes ev -> incl (clients (state_of r)) (clients st)).
Proof.
  split.
  - intros Hev.
    refine (preserves_handle (fun s => incl (keys (clients s)) (keys (clients st)))
              _ _ _ _ _ _ _ _ fuel env ev st r _ _ (incl_refl _) Hrun).
    + intros h m s Hs. exact Hs.
    + intros h m s Hs. exact Hs.
    + intros u s Hs. exact Hs.
    + intros e s Hs. exact Hs.
    + intros sid s. apply incl_keys_delete.
    + intros sid b s. apply incl_keys_assign.
    + intros sid t s. apply incl_keys_assign.
    + intros sid t s. apply incl_keys_assign.
    + intros sid w ->. exfalso. exact (Hev I).
    + intros w type a sid s _ _. apply incl_keys_assign.
  - intros Hev.
    pose (P := fun s => incl (clients s) (clients st)).
    assert (P0 : P st) by apply incl_refl.
    assert (P1 : forall h m s, P s -> P (log (Sent h m) s)) by (intros h m s Hs; exact Hs).
    assert (P2 : forall h m s, P s -> P (log (SendFailed h m) s))
      by (intros h m s Hs; exact Hs).
    assert (P3 : forall e s, P s -> P (snd (Date_now e s))) by (intros e s Hs; exact Hs).
    assert (P4 : forall sid s, P s -> P (with_clients (map_delete sid) s))
      by (intros sid s; apply incl_clients_delete).
    destruct ev as [sid w|w message|w| |sid m|user m|store m|m ex|store m ex];
      try contradiction; cbn [handle] in Hrun.
    + exact (preserves_handleWebSocketClose P P1 P2 P3 P4 fuel env w st r P0 Hrun).
    + exact (preserves_sendToClient P P1 P2 P3 P4 env fuel sid m st r P0 Hrun).
    + exact (preserves_sendToUser P P1 P2 P3 P4 fuel env user m st r P0 Hrun).
    + exact (preserves_sendToStore P P1 P2 P3 P4 fuel env store m st r P0 Hrun).
    + exact (preserves_broadcast P P1 P2 P3 P4 fuel env m ex st r P0 Hrun).
    + exact (preserves_broadcastToStore P P1 P2 P3 P4 fuel env store m ex st r P0 Hrun).
Qed.

Lemma registry_grows_only_on_open_witness :
  incl (keys (clients (mkState [("b", bob); ("c", carol); ("g", guest)]
                               [SendFailed 1 orderCreated;
                                Sent 2 (userLeftMessage (Some "u1") (Some "s1") 0)] 1)))
       (keys (clients shop)) /\
  incl (clients (mkState [("b", bob); ("c", carol); ("g", guest)]
                         [SendFailed 1 orderCreated;
                          Sent 2 (userLeftMessage (Some "u1") (Some "s1") 0)] 1))
       (clients shop).
Proof.
  destruct (registry_grows_only_on_open 2 env_broken (ToClient "a" orderCreated) shop
              (Returned (mkState [("b", bob); ("c", carol); ("g", guest)]
                                 [SendFailed 1 orderCreated;
                                  Sent 2 (userLeftMessage (Some "u1") (Some "s1") 0)] 1))
              eq_refl) as [Hkeys Hentries].
  split; [apply Hkeys; intros H; exact H | apply Hentries; exact I].
Defined.

(** ** Two failing transports in one store, in general *)

Section MutualEviction.
Variables (env : Env) (a b : string) (ca cb : ClientConnection) (store : string).
Hypothesis Hab : a <> b.
Hypothesis Hstore : store <> "".
Hypothesis Hsa : storeId ca = Some store.
Hypothesis Hsb : storeId cb = Some store.
Hypothesis Hba : broken env ca.
Hypothesis Hbb : broken env cb.

Local Notation "'Inv'" := (both_registered a b ca cb).

Lemma inv_same_clients st st' : clients st' = clients st -> Inv st -> Inv st'.
Proof. unfold both_registered. now intros ->. Qed.

Lemma inv_delete st k : k <> a -> k <> b -> Inv st -> Inv (with_clients (map_delete k) st).
Proof.
  intros Hka Hkb [H1 H2]. split; simpl; rewrite map_get_delete.
  - assert (H : (k =? a) = false) by (apply String.eqb_neq; congruence). now rewrite H.
  - assert (H : (k =? b) = false) by (apply String.eqb_neq; congruence). now rewrite H.
Qed.

Lemma forEach_keeps visit :
  (forall k c st r, Inv st -> visit k c st = Some r -> exists s, r = Returned s /\ Inv s) ->
  forall ks st r, Inv st -> forEach visit ks st = Some r ->
                  exists s, r = Returned s /\ Inv s.
Proof.
  intros Hv. induction ks as [|k ks IH]; intros st r HI H; simpl in H.
  - injection H as <-. eauto.
  - destruct (map_get k (clients st)) as [c|]; [|exact (IH st r HI H)].
    unfold andThen in H. destruct (visit k c st) as [r1|] eqn:Hvis; [|discriminate].
    destruct (Hv k c st r1 HI Hvis) as [s [-> HIs]]. exact (IH s r HIs H).
Qed.

Lemma forEach_stuck visit x :
  (forall c st, Inv st -> map_get x (clients st) = Some c -> visit x c st = None) ->
  (forall k c st r, Inv st -> visit k c st = Some r -> exists s, r = Returned s /\ Inv s) ->
  (forall st, Inv st -> exists c, map_get x (clients st) = Some c) ->
  forall ks st, Inv st -> In x ks -> forEach visit ks st = None.
Proof.
  intros Hx Hv Hreg. induction ks as [|k ks IH]; intros st HI Hin; [destruct Hin|].
  simpl. destruct (map_get k (clients st)) as [c|] eqn:Hget.
  - destruct (String.eqb_spec k x) as [->|Hne].
    + now rewrite (Hx c st HI Hget).
    + unfold andThen. destruct (visit k c st) as [r1|] eqn:Hvis; [|reflexivity].
      destruct (Hv k c st r1 HI Hvis) as [s [-> HIs]].
      apply IH; [exact HIs|]. destruct Hin as [Heq|Hin]; [congruence | exact Hin].
  - apply IH; [exact HI|]. destruct Hin as [<-|Hin]; [|exact Hin].
    destruct (Hreg st HI) as [c Hc]. congruence.
Qed.

Lemma eviction_body_keeps n k msg visitor_store st r :
  (forall st k m r, Inv st -> sendToClient n env k m st = Some r ->
                    exists s, r = Returned s /\ Inv s) ->
  Inv st ->
  broadcastToStore_with (sendToClient n env) env visitor_store msg (Some k) st = Some r ->
  exists s, r = Returned s /\ Inv s.
Proof.
  intros IH2 HI H. unfold broadcastToStore_with, clients_forEach in H.
  refine (forEach_keeps _ _ _ st r HI H).
  intros k' c' s r' HIs Hvis.
  destruct (store_target env visitor_store (Some k) k' c'); [exact (IH2 s k' msg r' HIs Hvis)|].
  injection Hvis as <-. eauto.
Qed.

Lemma eviction_body_stuck n x cx other msg st :
  (x = a /\ cx = ca /\ other = b \/ x = b /\ cx = cb /\ other = a) ->
  (forall st m, Inv st -> sendToClient n env x m st = None) ->
  (forall st k m r, Inv st -> sendToClient n env k m st = Some r ->
                    exists s, r = Returned s /\ Inv s) ->
  Inv st ->
  broadcastToStore_with (sendToClient n env) env store msg (Some other) st = None.
Proof.
  intros Hx IH1 IH2 HI. unfold broadcastToStore_with, clients_forEach.
  assert (Hreg : forall s, Inv s -> map_get x (clients s) = Some cx).
  { intros s [H1 H2]. destruct Hx as [[-> [-> _]]|[-> [-> _]]]; assumption. }
  assert (Htarget : store_target env store (Some other) x cx = true).
  { apply store_target_spec.
    destruct Hx as [[-> [-> ->]]|[-> [-> ->]]]; repeat split;
      try assumption; try (intros H; injection H; congruence).
    - destruct Hba as [Ho _]. now apply Z.eqb_eq in Ho.
    - destruct Hbb as [Ho _]. now apply Z.eqb_eq in Ho. }
  apply (forEach_stuck _ x).
  - intros c s HIs Hget. rewrite (Hreg s HIs) in Hget. injection Hget as <-.
    rewrite Htarget. now apply IH1.
  - intros k' c' s r' HIs Hvis.
    destruct (store_target env store (Some other) k' c'); [exact (IH2 s k' msg r' HIs Hvis)|].
    injection Hvis as <-. eauto.
  - intros s HIs. exists cx. now apply Hreg.
  - exact HI.
  - unfold keys. apply in_map_iff. exists (x, cx). split; [reflexivity|].
    apply map_get_In. now apply Hreg.
Qed.

Lemma mutual_eviction_step :
  forall n,
    (forall st m, Inv st -> sendToClient n env a m st = None) /\
    (forall st m, Inv st -> sendToClient n env b m st = None) /\
    (forall st k m r, Inv st -> sendToClient n env k m st = Some r ->
                      exists s, r = Returned s /\ Inv s).
Proof.
  induction n as [|n [IHa [IHb IH2]]].
  { repeat split; intros; try reflexivity; discriminate. }
  assert (Hstuck : forall x cx other st m,
             (x = a /\ cx = ca /\ other = b \/ x = b /\ cx = cb /\ other = a) ->
             Inv st -> map_get other (clients st) = Some (if other =? a then ca else cb) ->
             sendToClient (S n) env other m st = None).
  { intros x cx other st m Hx HI Hget. cbn [sendToClient]. rewrite Hget.
    assert (Hco : broken env (if other =? a then ca else cb) /\
                  storeId (if other =? a then ca else cb) = Some store).
    { destruct (other =? a); auto. }
    destruct Hco as [[Ho Ht] Hs]. rewrite Ho. unfold ws_send. rewrite Ht.
    cbn [throw tryCatch]. unfold handleDisconnection_with. cbn [log clients].
    rewrite Hget, Hs. unfold truthy. apply String.eqb_neq in Hstore as Hne.
    rewrite Hne. cbn [negb Date_now].
    rewrite (eviction_body_stuck n x cx other _ _ Hx); [reflexivity | | exact IH2 |].
    - destruct Hx as [[-> _]|[-> _]]; assumption.
    - now apply (inv_same_clients st). }
  assert (HA : forall st m, Inv st -> sendToClient (S n) env a m st = None).
  { intros st m HI. apply (Hstuck b cb a st m); [right; auto | exact HI |].
    rewrite String.eqb_refl. exact (proj1 HI). }
  assert (HB : forall st m, Inv st -> sendToClient (S n) env b m st = None).
  { intros st m HI. apply (Hstuck a ca b st m); [left; auto | exact HI |].
    assert (H : (b =? a) = false) by (apply String.eqb_neq; congruence).
    rewrite H. exact (proj2 HI). }
  split; [exact HA|]. split; [exact HB|].
  intros st k m r HI H.
  destruct (String.eqb_spec k a) as [->|Hka]; [rewrite (HA st m HI) in H; discriminate|].
  destruct (String.eqb_spec k b) as [->|Hkb]; [rewrite (HB st m HI) in H; discriminate|].
  cbn [sendToClient] in H.
  destruct (map_get k (clients st)) as [c|] eqn:Hget; [|injection H as <-; eauto].
  destruct (is_open env c); [|injection H as <-; eauto].
  unfold ws_send in H. destruct (sendThrows env (ws c) m).
  2:{ cbn in H. injection H as <-. eexists. split; [reflexivity|].
      now apply (inv_same_clients st). }
  cbn [throw tryCatch] in H. unfold handleDisconnection_with in H.
  cbn [log clients] in H. rewrite Hget in H.
  assert (HI1 : Inv (log (SendFailed (ws c) m) st)) by now apply (inv_same_clients st).
  assert (Hdel : forall s, Inv s -> exists s', Returned (with_clients (map_delete k) s)
                                               = Returned s' /\ Inv s').
  { intros s HIs. eexists. split; [reflexivity|]. now apply inv_delete. }
  destruct (storeId c) as [st0|];
    [|rewrite andThen_ret in H; injection H as <-; now apply Hdel].
  destruct (truthy (Some st0));
    [|rewrite andThen_ret in H; injection H as <-; now apply Hdel].
  cbn [Date_now] in H. unfold andThen in H.
  match type of H with
  | match ?body with _ => _ end = _ => destruct body as [r1|] eqn:Hbody; [|discriminate]
  end.
  assert (Hkept : exists s, r1 = Returned s /\ Inv s).
  { refine (eviction_body_keeps n k _ st0 _ r1 IH2 _ Hbody).
    now apply (inv_same_clients st). }
  destruct Hkept as [s [-> HIs]].
  injection H as <-. now apply Hdel.
Qed.
End MutualEviction.

(** X14.  Two registered connections of one store whose open transports
    both throw on [send]: a [sendToClient] to either, and a
    [broadcastToStore] to that store, never returns, however deep the calls
    may nest.  [handleDisconnection] of the one sends the [user_left]
    notice to the other before deleting anything, whose failure evicts it,
    which sends to the first again.  The other connections may behave in
    any way. *)
Theorem mutual_eviction_diverges env a b ca cb store st
    (Hab : a <> b)
    (Hstore : store <> "")
    (Ha : map_get a (clients st) = Some ca)
    (Hb : map_get b (clients st) = Some cb)
    (Hsa : storeId ca = Some store)
    (Hsb : storeId cb = Some store)
    (Hba : broken env ca)
    (Hbb : broken env cb) :
  forall fuel m,
    sendToClient fuel env a m st = None /\
    sendToClient fuel env b m st = None /\
    (forall exclude, broadcastToStore fuel env store m exclude st = None).
Proof.
  intros fuel m.
  destruct (mutual_eviction_step env a b ca cb store Hab Hstore Hsa Hsb Hba Hbb fuel)
    as [HA [HB H2]].
  assert (HI : both_registered a b ca cb st) by (split; assumption).
  split; [now apply HA|]. split; [now apply HB|].
  intros exclude. unfold broadcastToStore.
  destruct (String.eqb_spec a b) as [|_]; [contradiction|].
  assert (Hcase : exists x cx, (x = a /\ cx = ca \/ x = b /\ cx = cb) /\ exclude <> Some x).
  { destruct exclude as [e|].
    - destruct (String.eqb_spec e a) as [->|Hne].
      + exists b, cb. split; [auto|]. intros H. injection H. congruence.
      + exists a, ca. split; [auto|]. intros H. injection H. congruence.
    - exists a, ca. split; [auto | discriminate]. }
  destruct Hcase as [x [cx [Hx Hex]]].
  unfold broadcastToStore_with, clients_forEach.
  assert (Hreg : forall s, both_registered a b ca cb s -> map_get x (clients s) = Some cx).
  { intros s [H1 H3]. destruct Hx as [[-> ->]|[-> ->]]; assumption. }
  apply (forEach_stuck a b ca cb _ x).
  - intros c s HIs Hget. rewrite (Hreg s HIs) in Hget. injection Hget as <-.
    assert (Ht : store_target env store exclude x cx = true).
    { apply store_target_spec.
      destruct Hx as [[-> ->]|[-> ->]]; repeat split; try assumption.
      - destruct Hba as [Ho _]. now apply Z.eqb_eq in Ho.
      - destruct Hbb as [Ho _]. now apply Z.eqb_eq in Ho. }
    rewrite Ht. destruct Hx as [[-> _]|[-> _]]; [now apply HA | now apply HB].
  - intros k' c' s r' HIs Hvis.
    destruct (store_target env store exclude k' c'); [exact (H2 s k' m r' HIs Hvis)|].
    injection Hvis as <-. eauto.
  - intros s HIs. exists cx. now apply Hreg.
  - exact HI.
  - unfold keys. apply in_map_iff. exists (x, cx). split; [reflexivity|].
    apply map_get_In. now apply Hreg.
Qed.

Lemma mutual_eviction_diverges_witness :
  sendToClient 100 env_all_broken "a" orderCreated shop = None /\
  sendToClient 100 env_all_broken "b" orderCreated shop = None /\
  broadcastToStore 100 env_all_broken "s1" orderCreated None shop = None.
Proof.
  assert (Hbroken : forall c, broken env_all_broken c) by (intros c; split; reflexivity).
  assert (Hne : "a" <> "b") by discriminate.
  assert (Hs : "s1" <> "") by discriminate.
  destruct (mutual_eviction_diverges env_all_broken "a" "b" alice bob "s1" shop
              Hne Hs eq_refl eq_refl eq_refl eq_refl (Hbroken alice) (Hbroken bob)
              100 orderCreated) as [Ha [Hb Hall]].
  split; [exact Ha|]. split; [exact Hb | exact (Hall None)].
Defined.

(** ** The liveness tick behind two failing transports *)

Lemma failing_pair_sym env store a b ca cb :
  failing_pair env store a b ca cb -> failing_pair env store b a cb ca.
Proof.
  intros [Hab [Hstore [Hsa [Hsb [Hba Hbb]]]]]. repeat split; auto; apply Hbb || apply Hba.
Qed.

Lemma both_registered_sym a b ca cb st :
  both_registered a b ca cb st -> both_registered b a cb ca st.
Proof. intros [H1 H2]. now split. Qed.

Lemma both_registered_assign a b ca cb k f st :
  k <> a -> k <> b ->
  both_registered a b ca cb st -> both_registered a b ca cb (assign k f st).
Proof.
  intros Hka Hkb [H1 H2]. apply String.eqb_neq in Hka, Hkb.
  split; simpl; rewrite map_get_update.
  - now rewrite Hka.
  - now rewrite Hkb.
Qed.

Lemma eviction_stuck env store a b ca cb n st :
  failing_pair env store a b ca cb -> both_registered a b ca cb st ->
  handleDisconnection n env a st = None.
Proof.
  intros [Hab [Hstore [Hsa [Hsb [Hba Hbb]]]]] HI.
  destruct (mutual_eviction_step env a b ca cb store Hab Hstore Hsa Hsb Hba Hbb n)
    as [_ [HB H2]].
  unfold handleDisconnection, handleDisconnection_with.
  rewrite (proj1 HI), Hsa. unfold truthy.
  apply String.eqb_neq in Hstore as Hne. rewrite Hne. cbn [negb Date_now].
  rewrite (eviction_body_stuck env a b ca cb store Hab Hsa Hsb Hba Hbb n b cb a _ _
             (or_intror (conj eq_refl (conj eq_refl eq_refl))) HB H2);
    [reflexivity|].
  now apply (inv_same_clients a b ca cb st).
Qed.

Lemma eviction_keeps env store a b ca cb n k st r :
  failing_pair env store a b ca cb -> k <> a -> k <> b ->
  both_registered a b ca cb st ->
  handleDisconnection n env k st = Some r ->
  exists s, r = Returned s /\ both_registered a b ca cb s.
Proof.
  intros [Hab [Hstore [Hsa [Hsb [Hba Hbb]]]]] Hka Hkb HI H.
  destruct (mutual_eviction_step env a b ca cb store Hab Hstore Hsa Hsb Hba Hbb n)
    as [_ [_ H2]].
  unfold handleDisconnection, handleDisconnection_with in H.
  assert (Hdel : forall s, both_registered a b ca cb s ->
                           exists s', Returned (with_clients (map_delete k) s) = Returned s' /\
                                      both_registered a b ca cb s').
  { intros s HIs. eexists. split; [reflexivity|]. now apply inv_delete. }
  destruct (map_get k (clients st)) as [c|];
    [|rewrite andThen_ret in H; injection H as <-; now apply Hdel].
  destruct (storeId c) as [st0|];
    [|rewrite andThen_ret in H; injection H as <-; now apply Hdel].
  destruct (truthy (Some st0));
    [|rewrite andThen_ret in H; injection H as <-; now apply Hdel].
  cbn [Date_now] in H. unfold andThen in H.
  match type of H with
  | match ?body with _ => _ end = _ => destruct body as [r1|] eqn:Hbody; [|discriminate]
  end.
  assert (Hkept : exists s, r1 = Returned s /\ both_registered a b ca cb s).
  { refine (eviction_body_keeps env a b ca cb n k _ st0 _ r1 H2 _ Hbody).
    now apply (inv_same_clients a b ca cb st). }
  destruct Hkept as [s [-> HIs]].
  injection H as <-. now apply Hdel.
Qed.

Lemma visit_stuck env store a b ca cb n st :
  failing_pair env store a b ca cb -> both_registered a b ca cb st ->
  livenessVisit n env a ca st = None.
Proof.
  intros Hp HI. unfold livenessVisit. destruct (isAlive ca) eqn:Halive; cbn [negb].
  - cbn [Date_now]. pose proof Hp as [Hab [Hstore [Hsa [Hsb [[Hopen Hthrows] Hbb]]]]].
    unfold ws_send. rewrite Hthrows. cbn [throw tryCatch].
    apply (eviction_stuck env store a b (set_isAlive false ca) cb).
    + repeat split; auto; apply Hbb.
    + apply String.eqb_neq in Hab.
      split; cbn [log assign with_clients clients]; rewrite map_get_update.
      * now rewrite String.eqb_refl, (proj1 HI).
      * rewrite Hab. exact (proj2 HI).
  - now apply (eviction_stuck env store a b ca cb).
Qed.

Lemma visit_keeps env store a b ca cb n k c st r :
  failing_pair env store a b ca cb -> k <> a -> k <> b ->
  both_registered a b ca cb st ->
  livenessVisit n env k c st = Some r ->
  exists s, r = Returned s /\ both_registered a b ca cb s.
Proof.
  intros Hp Hka Hkb HI H. unfold livenessVisit in H.
  destruct (isAlive c); cbn [negb] in H.
  - cbn [Date_now] in H. unfold ws_send in H.
    assert (HI1 : both_registered a b ca cb (assign k (set_isAlive false) st))
      by now apply both_registered_assign.
    destruct (sendThrows env (ws c) _); cbn [throw ret tryCatch] in H.
    + refine (eviction_keeps env store a b ca cb n k _ r Hp Hka Hkb _ H).
      now apply (inv_same_clients a b ca cb (assign k (set_isAlive false) st)).
    + injection H as <-. eexists. split; [reflexivity|].
      now apply (inv_same_clients a b ca cb (assign k (set_isAlive false) st)).
  - exact (eviction_keeps env store a b ca cb n k st r Hp Hka Hkb HI H).
Qed.

Lemma tick_stuck env store a b ca cb n :
  failing_pair env store a b ca cb ->
  forall ks st,
    both_registered a b ca cb st -> In a ks \/ In b ks ->
    forEach (livenessVisit n env) ks st = None.
Proof.
  intros Hp. induction ks as [|k ks IH]; intros st HI Hin; [destruct Hin as [[]|[]]|].
  cbn [forEach].
  destruct (String.eqb_spec k a) as [->|Hka].
  { rewrite (proj1 HI). now rewrite (visit_stuck env store a b ca cb n st Hp HI). }
  destruct (String.eqb_spec k b) as [->|Hkb].
  { rewrite (proj2 HI).
    now rewrite (visit_stuck env store b a cb ca n st
                   (failing_pair_sym _ _ _ _ _ _ Hp) (both_registered_sym _ _ _ _ _ HI)). }
  assert (Hrest : In a ks \/ In b ks).
  { destruct Hin as [[H|H]|[H|H]]; try congruence; auto. }
  destruct (map_get k (clients st)) as [c|] eqn:Hget; [|now apply IH].
  unfold andThen. destruct (livenessVisit n env k c st) as [r|] eqn:Hvis; [|reflexivity].
  destruct (visit_keeps env store a b ca cb n k c st r Hp Hka Hkb HI Hvis) as [s [-> HIs]].
  now apply IH.
Qed.

(** C2.  The tick that should evict a silent connection does not complete
    when the registry holds two connections of one store whose open
    transports throw on [send]: whatever the call depth allowed, the
    callback of the timer has no outcome.  It stops at the first of the two
    it visits: the failed [ping] (or the eviction of a connection that was
    not alive) starts [handleDisconnection], which notifies the other
    before it deletes anything, whose failure starts the same for the
    other, and so on without end.  The connections that come later in the
    registry, silent or not, are not visited; none is deleted. *)
Theorem tick_stuck_behind_failing_pair env store a b ca cb st
    (Hpair : failing_pair env store a b ca cb)
    (Ha : map_get a (clients st) = Some ca)
    (Hb : map_get b (clients st) = Some cb) :
  forall fuel, livenessTick fuel env st = None.
Proof.
  intros fuel. unfold livenessTick, clients_forEach.
  apply (tick_stuck env store a b ca cb fuel Hpair); [now split|].
  left. unfold keys. apply in_map_iff. exists (a, ca).
  split; [reflexivity | now apply map_get_In].
Qed.

Lemma tick_stuck_behind_failing_pair_witness :
  livenessTick 1 env_open shop = ret pinged_shop /\
  In (Sent 3 (pingMessage 2)) (effects pinged_shop) /\
  map_get "c" (clients pinged_shop) = Some (set_isAlive false carol) /\
  livenessTick 1000 env_pair_broken pinged_shop = None.
Proof.
  split; [reflexivity|]. split; [simpl; auto|]. split; [reflexivity|].
  apply (tick_stuck_behind_failing_pair env_pair_broken "s1" "a" "b"
           (set_isAlive false alice) (set_isAlive false bob) pinged_shop);
    [|reflexivity|reflexivity].
  repeat split; try reflexivity; discriminate.
Defined.

(** ** The liveness tick on a whole registry *)

Lemma pinged_app es1 es2 : pinged (es1 ++ es2) = pinged es1 ++ pinged es2.
Proof. unfold pinged. apply flat_map_app. Qed.

Lemma pinged_departure env sid st : pinged (departure_notices env sid st) = [].
Proof.
  unfold departure_notices.
  destruct (map_get sid (clients st)) as [c|]; [|reflexivity].
  destruct (storeId c) as [store|]; [|reflexivity].
  destruct (truthy (Some store)); [|reflexivity].
  unfold deliveries. induction (recipients env store (Some sid) (clients st)) as [|e l IH];
    [reflexivity | exact IH].
Qed.

Lemma tick_loop_pings fuel env (Hacc : accepting env) :
  forall todo done st,
    clients st = done ++ todo ->
    NoDup (keys (done ++ todo)) ->
    exists st',
      forEach (livenessVisit (S fuel) env) (keys todo) st = ret st' /\
      clients st' = done ++ swept todo /\
      pinged (effects st') = pinged (effects st) ++ transports (alive todo).
Proof.
  induction todo as [|[k c] rest IH]; intros done st Hcl Hnd.
  - exists st. simpl. rewrite !app_nil_r in *. auto.
  - assert (Hfresh : ~ In k (keys done ++ keys rest)).
    { rewrite keys_app in Hnd. simpl in Hnd. now apply NoDup_remove_2 in Hnd. }
    assert (Hkd : ~ In k (keys done)) by (intros H; apply Hfresh, in_or_app; auto).
    assert (Hkr : ~ In k (keys rest)) by (intros H; apply Hfresh, in_or_app; auto).
    assert (Hget : map_get k (clients st) = Some c).
    { rewrite Hcl, map_get_app_fresh by exact Hkd. simpl. now rewrite String.eqb_refl. }
    cbn [keys map fst forEach]. rewrite Hget. fold (keys rest).
    unfold livenessVisit at 1. unfold alive, swept. cbn [filter snd].
    destruct (isAlive c) eqn:Halive; cbn [negb].
    + cbn [Date_now]. unfold ws_send. rewrite Hacc. cbn [tryCatch ret andThen].
      match goal with
      | |- exists st', forEach _ _ ?s = _ /\ _ => set (s1 := s)
      end.
      destruct (IH (done ++ [(k, set_isAlive false c)]) s1) as [st' [Hrun [Hc Hp]]].
      * unfold s1. simpl. rewrite Hcl, map_update_app_fresh by exact Hkd.
        simpl. rewrite String.eqb_refl. now rewrite <- app_assoc.
      * rewrite <- app_assoc. simpl. rewrite keys_app in *. exact Hnd.
      * exists st'. split; [exact Hrun|]. split.
        -- rewrite Hc. cbn [map fst snd]. now rewrite <- app_assoc.
        -- rewrite Hp. unfold s1. cbn [effects log assign with_clients reads clients].
           rewrite pinged_app. cbn [transports map snd]. fold (alive rest).
           fold (transports (alive rest)). cbn. now rewrite <- app_assoc.
    + destruct (handleDisconnection_calm fuel env k st) as [s1 [Hrun1 [Hc1 He1]]].
      * now rewrite Hcl.
      * now apply accepting_others.
      * rewrite Hrun1, andThen_ret.
        destruct (IH done s1) as [st' [Hrun [Hc Hp]]].
        -- rewrite Hc1, Hcl. now apply map_delete_middle.
        -- rewrite keys_app in *. simpl in Hnd. now apply NoDup_remove_1 in Hnd.
        -- exists st'. split; [exact Hrun|]. split; [exact Hc|].
           rewrite Hp, He1, pinged_app, pinged_departure. now rewrite app_nil_r.
Qed.

(** X15.  One liveness tick over a registry whose transports accept every
    send: the tick returns; the connections left are those that were alive,
    in registry order, each now marked [isAlive = false]; those that were
    not alive are gone; and a [ping] frame went to the transport of each
    connection that was alive, whether that transport is open or not, and
    to no other transport. *)
Theorem tick_sweeps fuel env st
    (Hacc : accepting env)
    (Hkeys : NoDup (keys (clients st))) :
  exists st',
    livenessTick (S fuel) env st = ret st' /\
    clients st' = swept (clients st) /\
    keys (clients st') = keys (alive (clients st)) /\
    (forall sid c, In (sid, c) (clients st') -> isAlive c = false) /\
    pinged (effects st') = pinged (effects st) ++ transports (alive (clients st)).
Proof.
  destruct (tick_loop_pings fuel env Hacc (clients st) [] st eq_refl Hkeys)
    as [st' [Hrun [Hc Hp]]].
  cbn [app] in Hc.
  exists st'. split; [exact Hrun|]. split; [exact Hc|]. split; [|split; [|exact Hp]].
  - rewrite Hc. unfold swept, alive, keys.
    induction (filter (fun e => isAlive (snd e)) (clients st)) as [|e l IH];
      [reflexivity | simpl; now rewrite IH].
  - intros sid c Hin. rewrite Hc in Hin. unfold swept in Hin.
    apply in_map_iff in Hin as [e [He _]]. now injection He as _ <-.
Qed.

Lemma tick_sweeps_witness :
  exists st',
    livenessTick 1 env_closed shop = ret st' /\
    keys (clients st') = ["a"; "b"; "c"; "g"] /\
    pinged (effects st') = [1; 2; 3; 4].
Proof.
  destruct (tick_sweeps 0 env_closed shop (fun _ _ => eq_refl) shop_keys)
    as [st' [Hrun [_ [Hk [_ Hp]]]]].
  exists st'. split; [exact Hrun|]. split; [exact Hk | exact Hp].
Defined.

(** ** A transport that throws is evicted by the tick *)

Section BrokenTransport.
Variables (env : Env) (sid : string).

Local Notation "'Around'" := (around_broken env sid).

Lemma ab_same_clients gone st st' :
  clients st' = clients st -> Around gone st -> Around gone st'.
Proof. unfold around_broken, others_accept. now intros ->. Qed.

Lemma ab_delete gone k st :
  Around gone st -> Around gone (with_clients (map_delete k) st).
Proof.
  intros [Hk [Ho [Hb Hg]]]. repeat split; simpl.
  - now apply NoDup_keys_delete.
  - intros sid' c m Hin Hne. apply In_delete in Hin as [Hin _]. now apply (Ho sid' c).
  - intros c m Hin. apply In_delete in Hin as [Hin _]. now apply Hb.
  - intros Hgone. rewrite map_get_delete. destruct (k =? sid); [reflexivity | now apply Hg].
Qed.

Lemma ab_assign gone k f st :
  (forall c, ws (f c) = ws c) ->
  Around gone st -> Around gone (assign k f st).
Proof.
  intros Hw [Hk [Ho [Hb Hg]]]. repeat split; simpl.
  - now rewrite keys_update.
  - intros sid' c m Hin Hne. destruct (In_update _ _ _ _ Hin) as [H|[v [H Heq]]].
    + now apply (Ho sid' c).
    + injection Heq as -> ->. rewrite Hw. now apply (Ho k v).
  - intros c m Hin. destruct (In_update _ _ _ _ Hin) as [H|[v [H Heq]]].
    + now apply Hb.
    + injection Heq as -> ->. rewrite Hw. now apply Hb.
  - intros Hgone. rewrite map_get_update, (Hg Hgone). now destruct (k =? sid).
Qed.

Lemma ab_gone gone st :
  Around gone st -> map_get sid (clients st) = None -> Around true st.
Proof. intros [Hk [Ho [Hb _]]] Hnone. repeat split; auto. Qed.

Lemma send_around n k m gone :
  returns_keeping (Around gone) (sendToClient (S (S n)) env k m).
Proof.
  intros st HA. pose proof HA as [Hk [Ho [Hb Hg]]].
  destruct (map_get k (clients st)) as [c|] eqn:Hget.
  2:{ exists st. split; [now apply sendToClient_absent | exact HA]. }
  destruct (is_open env c) eqn:Hopen.
  2:{ exists st. split; [now apply (sendToClient_not_open _ _ _ _ _ c) | exact HA]. }
  destruct (sendThrows env (ws c) m) eqn:Hthrows.
  - assert (Heq : k = sid).
    { destruct (String.eqb_spec k sid) as [|Hne]; [assumption|].
      rewrite (Ho k c m (map_get_In _ _ _ Hget) Hne) in Hthrows. discriminate. }
    subst k.
    destruct (sendToClient_rejected n env sid m st c Hk Hget Hopen Hthrows Ho)
      as [st' [Hrun [Hc _]]].
    exists st'. split; [exact Hrun|].
    apply (ab_same_clients gone (with_clients (map_delete sid) st)); [exact Hc|].
    now apply ab_delete.
  - exists (log (Sent (ws c) m) st).
    split; [now apply sendToClient_accepted|]. now apply (ab_same_clients gone st).
Qed.

Lemma disconnect_around n k gone st :
  Around gone st ->
  exists st',
    handleDisconnection (S (S n)) env k st = ret st' /\
    Around gone st' /\ map_get k (clients st') = None.
Proof.
  intros HA. unfold handleDisconnection, handleDisconnection_with.
  assert (Hbody : exists s,
             match map_get k (clients st) with
             | Some client =>
                 match storeId client with
                 | Some store =>
                     if truthy (storeId client) then
                       let (t, st1) := Date_now env st in
                       broadcastToStore_with (sendToClient (S (S n)) env) env store
                         (userLeftMessage (userId client) (storeId client) t) (Some k) st1
                     else ret st
                 | None => ret st
                 end
             | None => ret st
             end = ret s /\ Around gone s).
  { destruct (map_get k (clients st)) as [c|]; [|eauto].
    destruct (storeId c) as [store|]; [|eauto].
    destruct (truthy (Some store)); [|eauto].
    cbn [Date_now]. unfold broadcastToStore_with, clients_forEach.
    apply (calm_forEach (Around gone)).
    - intros k' c' s HAs. destruct (store_target env store (Some k) k' c'); [|eauto].
      now apply send_around.
    - now apply (ab_same_clients gone st). }
  destruct Hbody as [s [-> HAs]]. rewrite andThen_ret.
  eexists. split; [reflexivity|]. split; [now apply ab_delete|].
  simpl. rewrite map_get_delete. now rewrite String.eqb_refl.
Qed.

Lemma visit_around n k c gone st :
  Around gone st -> map_get k (clients st) = Some c ->
  exists st',
    livenessVisit (S (S n)) env k c st = ret st' /\
    Around gone st' /\ (k = sid -> map_get sid (clients st') = None).
Proof.
  intros HA Hget. unfold livenessVisit. destruct (isAlive c); cbn [negb].
  - assert (HA1 : Around gone (assign k (set_isAlive false) st)) by now apply ab_assign.
    cbn [Date_now]. unfold ws_send.
    destruct (sendThrows env (ws c) (pingMessage (clock env (reads (assign k (set_isAlive false) st)))))
      eqn:Hthrows; cbn [tryCatch throw ret].
    + match goal with
      | |- exists st', handleDisconnection _ _ _ ?s = _ /\ _ =>
          destruct (disconnect_around n k gone s) as [st' [Hrun [HA' Hnone]]];
          [now apply (ab_same_clients gone (assign k (set_isAlive false) st))|]
      end.
      exists st'. split; [exact Hrun|]. split; [exact HA'|]. now intros <-.
    + eexists. split; [reflexivity|].
      split; [now apply (ab_same_clients gone (assign k (set_isAlive false) st))|].
      intros ->. destruct HA as [_ [_ [Hb _]]].
      rewrite (Hb c _ (map_get_In _ _ _ Hget)) in Hthrows. discriminate.
  - destruct (disconnect_around n k gone st HA) as [st' [Hrun [HA' Hnone]]].
    exists st'. split; [exact Hrun|]. split; [exact HA'|]. now intros <-.
Qed.

Lemma tick_around n :
  forall ks gone st,
    Around gone st -> In sid ks \/ gone = true ->
    exists st',
      forEach (livenessVisit (S (S n)) env) ks st = ret st' /\
      map_get sid (clients st') = None.
Proof.
  induction ks as [|k ks IH]; intros gone st HA Hcase.
  - exists st. split; [reflexivity|]. destruct Hcase as [[]|Hg].
    destruct HA as [_ [_ [_ Hgone]]]. now apply Hgone.
  - cbn [forEach]. destruct (map_get k (clients st)) as [c|] eqn:Hget.
    + destruct (visit_around n k c gone st HA Hget) as [s [-> [HAs Hsid]]].
      rewrite andThen_ret.
      destruct (String.eqb_spec k sid) as [Heq|Hne].
      * apply (IH true s); [|now right]. exact (ab_gone gone s HAs (Hsid Heq)).
      * apply (IH gone s HAs). destruct Hcase as [[H|H]|H]; [congruence | now left | now right].
    + destruct (String.eqb_spec k sid) as [Heq|Hne].
      * subst k. apply (IH true st); [|now right]. exact (ab_gone gone st HA Hget).
      * apply (IH gone st HA). destruct Hcase as [[H|H]|H]; [congruence | now left | now right].
Qed.
End BrokenTransport.

(** X16.  A registered connection whose transport throws on every [send]
    does not survive a liveness tick, alive or not: if it was alive, the
    [ping] of that very tick fails and evicts it at once, without waiting
    for the next tick.  The other transports accept their frames. *)
Theorem tick_evicts_broken fuel env st sid c
    (Hkeys : NoDup (keys (clients st)))
    (Hget : map_get sid (clients st) = Some c)
    (Hthrows : forall m, sendThrows env (ws c) m = true)
    (Hcalm : others_accept env sid st) :
  exists st',
    livenessTick (S (S fuel)) env st = ret st' /\
    map_get sid (clients st') = None.
Proof.
  apply (tick_around env sid fuel (keys (clients st)) false st).
  - repeat split; auto; [|discriminate].
    intros c' m Hin. rewrite (In_map_get _ _ _ Hkeys Hin) in Hget.
    injection Hget as ->. apply Hthrows.
  - left. unfold keys. apply in_map_iff. exists (sid, c).
    split; [reflexivity | now apply map_get_In].
Qed.

Lemma tick_evicts_broken_witness :
  exists st',
    livenessTick 2 env_broken shop = ret st' /\
    map_get "a" (clients st') = None.
Proof.
  apply (tick_evicts_broken 0 env_broken shop "a" alice shop_keys eq_refl
           (fun _ => eq_refl)).
  intros sid' c m Hin Hne. simpl in Hin.
  destruct Hin as [Hin|Hin]; [injection Hin as <- <-; congruence|].
  repeat (destruct Hin as [Hin|Hin]; [injection Hin as <- <-; reflexivity|]).
  destruct Hin.
Defined.

(** ** What an authenticate frame announces *)

Lemma recipients_update env store sid f m :
  recipients env store (Some sid) (map_update sid f m)
  = recipients env store (Some sid) m.
Proof.
  assert (Hself : forall c, store_target env store (Some sid) sid c = false).
  { intros c. unfold store_target, differs. simpl. rewrite String.eqb_refl. simpl.
    now rewrite andb_false_r. }
  unfold recipients. induction m as [|[k v] m IH]; [reflexivity|].
  cbn [map_update]. destruct (String.eqb_spec k sid) as [->|Hne].
  - cbn [filter fst snd]. now rewrite !Hself.
  - cbn [filter fst snd]. now rewrite IH.
Qed.

(** X17.  An [authenticate] frame of a registered connection, on accepting
    transports: when it carries a non-empty [storeId], one [user_joined]
    frame with the [userId] and [storeId] of the frame goes to each open
    connection that is registered under that store, the sender left out;
    nothing else is sent: the store the sender was in before is not told,
    and a frame with no [storeId] or an empty one sends nothing at all. *)
Theorem authenticate_announces fuel env st sid c a
    (Hok : registry_ok st)
    (Hin : In (sid, c) (clients st))
    (Hsid : sid <> "")
    (Hacc : accepting env) :
  exists st',
    handleWebSocketMessage (S fuel) env (ws c)
      (Some (PValue (Some "authenticate") (Some a))) st = ret st' /\
    effects st' = effects st ++ arrival_notices env sid a st /\
    (forall store c', ~ In (sid, c') (recipients env store (Some sid) (clients st))) /\
    (truthy (auth_storeId a) = false -> effects st' = effects st).
Proof.
  destruct (router_resolves st sid c Hok Hin) as [Hfind Hget].
  destruct Hok as [Hk _].
  assert (Hself : forall store c', ~ In (sid, c') (recipients env store (Some sid) (clients st))).
  { intros store c' H. unfold recipients in H. apply filter_In in H as [_ H].
    cbn [fst snd] in H. apply store_target_spec in H as [_ [H _]]. now apply H. }
  assert (Hquiet : truthy (auth_storeId a) = false -> arrival_notices env sid a st = []).
  { intros H. unfold arrival_notices. rewrite H. now destruct (auth_storeId a). }
  apply String.eqb_neq in Hsid.
  unfold handleWebSocketMessage. rewrite Hfind, Hsid, Hget.
  cbn [Date_now]. unfold dispatch. cbn [is_string].
  change ("authenticate" =? "authenticate") with true. cbv iota.
  unfold authenticateClient.
  set (t := clock env (reads st)).
  set (s1 := assign sid (set_lastActiveTime t) _).
  assert (Hget1 : map_get sid (clients s1) = Some (set_lastActiveTime t c)).
  { unfold s1. simpl. now rewrite map_get_update, String.eqb_refl, Hget. }
  assert (Hc1 : clients s1 = map_update sid (set_lastActiveTime t) (clients st))
    by reflexivity.
  assert (He1 : effects s1 = effects st) by reflexivity.
  assert (Hr1 : reads s1 = S (reads st)) by reflexivity.
  clearbody s1. rewrite Hget1.
  unfold arrival_notices.
  destruct (auth_storeId a) as [store|] eqn:Hstore.
  2:{ cbn [tryCatch ret]. eexists. split; [reflexivity|]. cbn [assign with_clients effects].
      rewrite He1, app_nil_r. auto. }
  destruct (truthy (Some store)) eqn:Htruthy.
  2:{ cbn [tryCatch ret]. eexists. split; [reflexivity|]. cbn [assign with_clients effects].
      rewrite He1, app_nil_r. auto. }
  cbn [Date_now]. rewrite broadcastToStore_accepted.
  - cbn [tryCatch ret]. eexists. split; [reflexivity|].
    cbn [log_all effects assign with_clients clients reads].
    rewrite He1, Hr1, Hc1, !recipients_update.
    split; [reflexivity|]. split; [exact Hself|]. discriminate.
  - cbn [assign with_clients clients]. rewrite Hc1. now rewrite !keys_update.
  - intros sid' c' _ _. apply Hacc.
Qed.

Lemma authenticate_announces_witness :
  exists st',
    handleWebSocketMessage 1 env_open 4
      (Some (PValue (Some "authenticate") (Some (mkAuth (Some "u9") (Some "s1"))))) shop
      = ret st' /\
    effects st' = [Sent 1 (userJoinedMessage (Some "u9") "s1" 1);
                   Sent 2 (userJoinedMessage (Some "u9") "s1" 1)].
Proof.
  assert (Hin : In ("g", guest) (clients shop)) by (simpl; auto).
  assert (Hne : "g" <> "") by discriminate.
  destruct (authenticate_announces 0 env_open shop "g" guest
              (mkAuth (Some "u9") (Some "s1")) shop_ok Hin Hne (fun _ _ => eq_refl))
    as [st' [Hrun [Heff _]]].
  exists st'. split; [exact Hrun | exact Heff].
Defined.

(** ** The last-active hook *)

Lemma hooks_log_send st e :
  (forall u, e <> LastActiveHook u) -> hooks (log e st) = hooks st.
Proof.
  intros He. unfold hooks, log. simpl. rewrite flat_map_app. simpl.
  destruct e; try apply app_nil_r. exfalso. now apply (He user).
Qed.

(** X20.  The last-active hook is called by [ping] and [pong] frames only:
    an open, a close, a liveness tick, any sender, and any other frame
    ([authenticate], an unknown type, an unparseable frame) leave the list
    of hook calls as it was, whatever the transports do. *)
Theorem hook_only_on_liveness_frames fuel env ev st r
    (Hev : no_liveness_frame ev)
    (Hrun : handle fuel env ev st = Some r) :
  hooks (state_of r) = hooks st.
Proof.
  pose (P := fun s => hooks s = hooks st).
  assert (P0 : P st) by reflexivity.
  assert (P1 : forall h m s, P s -> P (log (Sent h m) s)).
  { intros h m s Hs. unfold P. rewrite hooks_log_send; [exact Hs | discriminate]. }
  assert (P2 : forall h m s, P s -> P (log (SendFailed h m) s)).
  { intros h m s Hs. unfold P. rewrite hooks_log_send; [exact Hs | discriminate]. }
  assert (P3 : forall e s, P s -> P (snd (Date_now e s))) by (intros e s Hs; exact Hs).
  assert (P4 : forall sid s, P s -> P (with_clients (map_delete sid) s))
    by (intros sid s Hs; exact Hs).
  assert (P5 : forall sid f s, P s -> P (assign sid f s)) by (intros sid f s Hs; exact Hs).
  destruct ev as [sid w|w message|w| |sid m|user m|store m|m ex|store m ex];
    cbn [handle] in Hrun.
  - refine (preserves_handleWebSocketUpgrade P P1 P2 P3 P4 fuel env sid w st r _ Hrun).
    exact P0.
  - cbn [no_liveness_frame] in Hev. unfold handleWebSocketMessage in Hrun.
    destruct (findSessionIdByWebSocket w st) as [sid|]; [|now injection Hrun as <-].
    destruct (sid =? ""); [now injection Hrun as <-|].
    match type of Hrun with
    | tryCatch ?body ret = Some r =>
        assert (Hbody : forall r', body = Some r' -> P (state_of r'));
        [ clear Hrun r
        | unfold tryCatch in Hrun; destruct body as [[s|s]|]; [| |discriminate];
          injection Hrun as <-; exact (Hbody _ eq_refl) ]
    end.
    intros r Hrun.
    destruct message as [parsed|]; [|now injection Hrun as <-].
    destruct (map_get sid (clients st)) as [c|]; [|now injection Hrun as <-].
    cbn [Date_now] in Hrun. unfold dispatch in Hrun.
    destruct parsed as [|type data]; [now injection Hrun as <-|].
    cbn [liveness_signal] in Hev. apply orb_false_iff in Hev as [Hpong Hping].
    destruct (is_string type "authenticate").
    + refine (preserves_authenticateClient P P1 P2 P3 P4 fuel env sid data _ _ r _ Hrun).
      * intros a s _. apply P5.
      * exact P0.
    + rewrite Hpong, Hping in Hrun. now injection Hrun as <-.
  - exact (preserves_handleWebSocketClose P P1 P2 P3 P4 fuel env w st r P0 Hrun).
  - exact (preserves_livenessTick P P1 P2 P3 P4 (fun sid b => P5 sid _) fuel env st r P0 Hrun).
  - exact (preserves_sendToClient P P1 P2 P3 P4 env fuel sid m st r P0 Hrun).
  - exact (preserves_sendToUser P P1 P2 P3 P4 fuel env user m st r P0 Hrun).
  - exact (preserves_sendToStore P P1 P2 P3 P4 fuel env store m st r P0 Hrun).
  - exact (preserves_broadcast P P1 P2 P3 P4 fuel env m ex st r P0 Hrun).
  - exact (preserves_broadcastToStore P P1 P2 P3 P4 fuel env store m ex st r P0 Hrun).
Qed.

Lemma hook_only_on_liveness_frames_witness :
  hooks (mkState [("g", set_lastActiveTime 5 guest)] [] 6)
  = hooks (mkState [("g", guest)] [] 5).
Proof.
  exact (hook_only_on_liveness_frames 1 env_open
           (Frame 4 (Some (PValue (Some "authenticate") None)))
           (mkState [("g", guest)] [] 5)
           (Returned (mkState [("g", set_lastActiveTime 5 guest)] [] 6))
           eq_refl eq_refl).
Defined.

(** ** A pong buys one tick *)

Lemma pong_state fuel env st sid c data :
  registry_ok st -> In (sid, c) (clients st) -> sid <> "" ->
  handleWebSocketMessage fuel env (ws c) (Some (PValue (Some "pong") data)) st
  = ret (log_all (hook_calls c)
           (mkState (map_update sid (refreshed (clock env (reads st))
                                               (clock env (S (reads st))))
                                (clients st))
                    (effects st) (S (S (reads st))))).
Proof.
  intros Hok Hin Hsid.
  destruct (router_resolves st sid c Hok Hin) as [Hfind Hget].
  apply String.eqb_neq in Hsid.
  unfold handleWebSocketMessage. rewrite Hfind, Hsid, Hget.
  cbn [Date_now]. unfold dispatch. cbn [is_string].
  change ("pong" =? "authenticate") with false.
  change ("pong" =? "pong") with true. cbv iota.
  cbn [Date_now]. rewrite touchLastActive_logs. cbn [tryCatch ret].
  unfold assign, with_clients. cbn [clients effects reads].
  now rewrite !map_update_twice.
Qed.

(** X21.  A [pong] frame followed by a liveness tick (transports accepting
    the sends of the tick): whatever its [isAlive] flag was before the
    frame, the connection is still registered after the tick, on the same
    transport, pinged again and marked [isAlive = false]. *)
Theorem pong_survives_next_tick fuel env env' st sid c data
    (Hok : registry_ok st)
    (Hin : In (sid, c) (clients st))
    (Hsid : sid <> "")
    (Hacc : accepting env') :
  exists st1 st2 c2,
    handleWebSocketMessage fuel env (ws c) (Some (PValue (Some "pong") data)) st = ret st1 /\
    livenessTick (S fuel) env' st1 = ret st2 /\
    map_get sid (clients st2) = Some c2 /\
    ws c2 = ws c /\ isAlive c2 = false /\
    exists t, In (Sent (ws c) (pingMessage t)) (effects st2).
Proof.
  pose proof (pong_state fuel env st sid c data Hok Hin Hsid) as Hpong.
  destruct (router_resolves st sid c Hok Hin) as [_ Hget].
  destruct Hok as [Hk _].
  set (t0 := clock env (reads st)) in *. set (t1 := clock env (S (reads st))) in *.
  match type of Hpong with _ = ret ?s => set (st1 := s) in * end.
  assert (Hk1 : NoDup (keys (clients st1))).
  { unfold st1. simpl. now rewrite keys_update. }
  assert (Hget1 : map_get sid (clients st1) = Some (refreshed t0 t1 c)).
  { unfold st1. simpl. now rewrite map_get_update, String.eqb_refl, Hget. }
  destruct (livenessTick_calm fuel env' st1 Hacc Hk1) as [st2 [Hrun2 [Hc2 Hping]]].
  exists st1, st2, (set_isAlive false (refreshed t0 t1 c)).
  split; [exact Hpong|]. split; [exact Hrun2|]. split.
  { rewrite Hc2, (map_get_swept _ sid _ Hk1 Hget1). reflexivity. }
  split; [reflexivity|]. split; [reflexivity|].
  exact (Hping sid (refreshed t0 t1 c) (map_get_In _ _ _ Hget1) eq_refl).
Qed.

Lemma pong_survives_next_tick_witness :
  exists st1 st2 c2,
    handleWebSocketMessage 0 env_open 3 pongFrame
      (mkState [("c", set_isAlive false carol)] [] 0) = ret st1 /\
    livenessTick 1 env_open st1 = ret st2 /\
    map_get "c" (clients st2) = Some c2 /\
    ws c2 = 3 /\ isAlive c2 = false /\
    exists t, In (Sent 3 (pingMessage t)) (effects st2).
Proof.
  assert (Hok : registry_ok (mkState [("c", set_isAlive false carol)] [] 0)).
  { repeat split; try (repeat constructor; simpl; tauto).
    intros sid c [H|[]]. now injection H as <- <-. }
  assert (Hin : In ("c", set_isAlive false carol)
                   (clients (mkState [("c", set_isAlive false carol)] [] 0)))
    by (simpl; auto).
  assert (Hne : "c" <> "") by discriminate.
  exact (pong_survives_next_tick 0 env_open env_open _ "c" _ None Hok Hin Hne
           (fun _ _ => eq_refl)).
Defined.
